(** * Fail-closed pipeline runner: a shallow embedding of [src/runner]

    The development follows the package layout of the runner:
    [contracts.py] (enumerations, the event record and its wire form, step
    definitions), [state_machine.py] (transition tables, retry policy,
    DAG gating), [event_log.py], [executor.py] (step and pipeline
    executors), [resume.py] (reconstruction and resume guard) and
    [summary.py].

    Conventions.
    - Python [int] is [Z]; [str] is [string]; [Optional[T]] is [option T];
      [dict[str, T]] is [gmap string T]; [set[str]] is [gset string].
    - The executor mutates one [RunContext] object and appends to one log
      file.  Both are threaded explicitly through a state-and-exception
      monad [M]; a raised Python exception is the outcome [Raise].
    - [Event.new_id] and [Event.now_utc] read the environment.  They are two
      fields of a class indexed by a counter kept in the state; every built
      event consumes one index.
    - A step callable is handed the context object itself: what it does to
      the context stays done.
    - [time.sleep] and the random jitter of [backoff_seconds] act on wall
      clock time only and leave no trace in the state; the exception that
      [backoff_seconds] raises on a large attempt is kept.
    - [execute_step] calls itself on a retry; the depth the interpreter
      allows is a field of the environment. *)

From Stdlib Require Import ZArith String Ascii List Bool Lia.
From stdpp Require Import base option list gmap strings pretty fin_maps sets.

Local Open Scope string_scope.
Local Open Scope Z_scope.

(** ** contracts.py: enumerations *)

Module RunState.
Inductive t : Set :=
| CREATED | PREFLIGHT_VALIDATED | EXECUTING | BLOCKED
| FAILED | SUCCEEDED | ROLLED_BACK.

Definition value (s : t) : string :=
  match s with
  | CREATED => "created"
  | PREFLIGHT_VALIDATED => "preflight_validated"
  | EXECUTING => "executing"
  | BLOCKED => "blocked"
  | FAILED => "failed"
  | SUCCEEDED => "succeeded"
  | ROLLED_BACK => "rolled_back"
  end.

Definition members : list t :=
  [CREATED; PREFLIGHT_VALIDATED; EXECUTING; BLOCKED; FAILED; SUCCEEDED;
   ROLLED_BACK].

(** [RunState(v)]: lookup of a member by value; [None] is [ValueError]. *)
Definition of_value (v : string) : option t :=
  List.find (fun s => String.eqb (value s) v) members.

#[global] Instance eq_dec : EqDecision t.
Proof. solve_decision. Defined.
End RunState.

Module StepState.
Inductive t : Set :=
| PENDING | RUNNING | SUCCEEDED | FAILED | COMPENSATED | SKIPPED.

Definition value (s : t) : string :=
  match s with
  | PENDING => "pending"
  | RUNNING => "running"
  | SUCCEEDED => "succeeded"
  | FAILED => "failed"
  | COMPENSATED => "compensated"
  | SKIPPED => "skipped"
  end.

#[global] Instance eq_dec : EqDecision t.
Proof. solve_decision. Defined.
End StepState.

Module ErrorClass.
Inductive t : Set :=
| TRANSIENT_IO | CONTRACT_INPUT_MISSING | HARD_GATE_FAILED
| VALIDATION_FAILED | UNKNOWN.

Definition value (c : t) : string :=
  match c with
  | TRANSIENT_IO => "transient_io"
  | CONTRACT_INPUT_MISSING => "contract_input_missing"
  | HARD_GATE_FAILED => "hard_gate_failed"
  | VALIDATION_FAILED => "validation_failed"
  | UNKNOWN => "unknown"
  end.

Definition members : list t :=
  [TRANSIENT_IO; CONTRACT_INPUT_MISSING; HARD_GATE_FAILED;
   VALIDATION_FAILED; UNKNOWN].

Definition of_value (v : string) : option t :=
  List.find (fun c => String.eqb (value c) v) members.

#[global] Instance eq_dec : EqDecision t.
Proof. solve_decision. Defined.
End ErrorClass.

Module EventType.
Inductive t : Set :=
| RUN_CREATED | RUN_STATE_CHANGED | STEP_STARTED | STEP_SUCCEEDED
| STEP_FAILED | STEP_RETRIED | STEP_COMPENSATED | ARTIFACT_EMITTED
| GATE_FAILED | RUN_COMPLETED | RUN_OVERRIDE_APPLIED.

Definition value (e : t) : string :=
  match e with
  | RUN_CREATED => "run.created"
  | RUN_STATE_CHANGED => "run.state_changed"
  | STEP_STARTED => "step.started"
  | STEP_SUCCEEDED => "step.succeeded"
  | STEP_FAILED => "step.failed"
  | STEP_RETRIED => "step.retried"
  | STEP_COMPENSATED => "step.compensated"
  | ARTIFACT_EMITTED => "artifact.emitted"
  | GATE_FAILED => "gate.failed"
  | RUN_COMPLETED => "run.completed"
  | RUN_OVERRIDE_APPLIED => "run.override_applied"
  end.

#[global] Instance eq_dec : EqDecision t.
Proof. solve_decision. Defined.
End EventType.

Module Actor.
Inductive t : Set := RUNNER | MANUAL.

Definition value (a : t) : string :=
  match a with
  | RUNNER => "runner"
  | MANUAL => "manual"
  end.

#[global] Instance eq_dec : EqDecision t.
Proof. solve_decision. Defined.
End Actor.

(** ** contracts.py: the event record and its wire form *)

(** A value of the wire dict: [to_dict] stores strings and one integer. *)
Inductive JValue : Set :=
| JStr (s : string)
| JInt (n : Z).

#[global] Instance JValue_eq_dec : EqDecision JValue.
Proof. solve_decision. Defined.

Module Event.
Record t : Set := mk {
  event_id : string;
  event_type : EventType.t;
  run_id : string;
  timestamp_utc : string;
  actor : Actor.t;
  attempt : Z;
  step_id : option string;
  error_class : option ErrorClass.t;
  reason : option string;
  inputs_hash : option string;
  outputs_hash : option string;
  artifact_path : option string;
  previous_state : option string;
  new_state : option string;
  override_reason : option string
}.

(** [if v is not None: result[k] = f(v)] *)
Definition set_if_present {A} (k : string) (f : A → JValue) (v : option A)
    (result : gmap string JValue) : gmap string JValue :=
  match v with
  | Some x => <[k := f x]> result
  | None => result
  end.

Definition to_dict (self : t) : gmap string JValue :=
  let result : gmap string JValue :=
    <["attempt" := JInt (attempt self)]>
    (<["actor" := JStr (Actor.value (actor self))]>
    (<["timestamp_utc" := JStr (timestamp_utc self)]>
    (<["run_id" := JStr (run_id self)]>
    (<["event_type" := JStr (EventType.value (event_type self))]>
    (<["event_id" := JStr (event_id self)]> ∅))))) in
  let result := set_if_present "step_id" JStr (step_id self) result in
  let result :=
    set_if_present "error_class" (λ c, JStr (ErrorClass.value c))
      (error_class self) result in
  let result := set_if_present "reason" JStr (reason self) result in
  let result :=
    set_if_present "inputs_hash" JStr (inputs_hash self) result in
  let result :=
    set_if_present "outputs_hash" JStr (outputs_hash self) result in
  let result :=
    set_if_present "artifact_path" JStr (artifact_path self) result in
  let result :=
    set_if_present "previous_state" JStr (previous_state self) result in
  let result := set_if_present "new_state" JStr (new_state self) result in
  let result :=
    set_if_present "override_reason" JStr (override_reason self) result in
  result.

(** The keys of the wire form. *)
Definition required_keys : list string :=
  ["event_id"; "event_type"; "run_id"; "timestamp_utc"; "actor"; "attempt"].

Definition optional_keys : list string :=
  ["step_id"; "error_class"; "reason"; "inputs_hash"; "outputs_hash";
   "artifact_path"; "previous_state"; "new_state"; "override_reason"].
End Event.

#[global] Instance Event_eq_dec : EqDecision Event.t.
Proof. solve_decision. Defined.

(** The environment the runner reads: [uuid.uuid4] and [datetime.now] behind
    [Event.new_id] and [Event.now_utc], the text Python prints for a set
    (its order is unspecified), the millisecond difference of two
    ISO-8601 timestamps as [datetime.fromisoformat] computes it ([None] when
    a timestamp does not parse and [ValueError] is raised), and the number
    of nested calls of [execute_step] the interpreter has room for below
    the first one before it raises [RecursionError]. *)
Class Environment := {
  new_id : nat → string;
  now_utc : nat → string;
  repr_set : gset string → string;
  iso_delta_ms : string → string → option Z;
  recursion_limit : nat
}.

(** ** contracts.py: event builders

    Every builder stamps the event with a fresh id and the current time; the
    index [n] says which reading of the environment it is. *)
Section builders.
Context `{Environment}.

(* Argument order of [Event.mk]: event_id, event_type, run_id,
   timestamp_utc, actor, attempt, step_id, error_class, reason,
   inputs_hash, outputs_hash, artifact_path, previous_state, new_state,
   override_reason.  A field a builder does not pass keeps the dataclass
   default: 0 for [attempt], [None] for the rest. *)

Definition run_created (n : nat) (run_id : string) (reason : option string)
    : Event.t :=
  Event.mk (new_id n) EventType.RUN_CREATED run_id (now_utc n) Actor.RUNNER
    0 None None reason None None None
    None (Some (RunState.value RunState.CREATED)) None.

Definition run_state_changed (n : nat) (run_id : string)
    (previous_state new_state : RunState.t) (reason : option string)
    : Event.t :=
  Event.mk (new_id n) EventType.RUN_STATE_CHANGED run_id (now_utc n)
    Actor.RUNNER 0 None None reason None None None
    (Some (RunState.value previous_state))
    (Some (RunState.value new_state)) None.

Definition step_started (n : nat) (run_id step_id : string) (attempt : Z)
    : Event.t :=
  Event.mk (new_id n) EventType.STEP_STARTED run_id (now_utc n) Actor.RUNNER
    attempt (Some step_id) None None None None None
    None (Some (StepState.value StepState.RUNNING)) None.

Definition step_succeeded (n : nat) (run_id step_id : string) (attempt : Z)
    (outputs_hash : option string) : Event.t :=
  Event.mk (new_id n) EventType.STEP_SUCCEEDED run_id (now_utc n)
    Actor.RUNNER attempt (Some step_id) None None None outputs_hash None
    None (Some (StepState.value StepState.SUCCEEDED)) None.

Definition step_failed (n : nat) (run_id step_id : string)
    (error_class : ErrorClass.t) (reason : string) (attempt : Z)
    : Event.t :=
  Event.mk (new_id n) EventType.STEP_FAILED run_id (now_utc n) Actor.RUNNER
    attempt (Some step_id) (Some error_class) (Some reason) None None None
    None (Some (StepState.value StepState.FAILED)) None.

Definition step_retried (n : nat) (run_id step_id : string) (attempt : Z)
    (reason : string) : Event.t :=
  Event.mk (new_id n) EventType.STEP_RETRIED run_id (now_utc n) Actor.RUNNER
    attempt (Some step_id) None (Some reason) None None None
    None None None.

Definition gate_failed (n : nat) (run_id step_id : string)
    (error_class : ErrorClass.t) (reason : string) : Event.t :=
  Event.mk (new_id n) EventType.GATE_FAILED run_id (now_utc n) Actor.RUNNER
    0 (Some step_id) (Some error_class) (Some reason) None None None
    None None None.

Definition artifact_emitted (n : nat) (run_id step_id artifact_path : string)
    (outputs_hash : option string) : Event.t :=
  Event.mk (new_id n) EventType.ARTIFACT_EMITTED run_id (now_utc n)
    Actor.RUNNER 0 (Some step_id) None None None outputs_hash
    (Some artifact_path) None None None.

Definition run_completed (n : nat) (run_id : string)
    (final_state : RunState.t) (reason : option string) : Event.t :=
  Event.mk (new_id n) EventType.RUN_COMPLETED run_id (now_utc n)
    Actor.RUNNER 0 None None reason None None None
    None (Some (RunState.value final_state)) None.
End builders.

(** ** contracts.py: step definitions *)

Module StepDefinition.
Record t : Set := mk {
  step_id : string;
  name : string;
  is_hard_gate : bool;
  is_manual_gated : bool;
  max_retries : Z;
  retry_classes : list ErrorClass.t
}.

(** The constructor with the dataclass defaults, for the fields a
    declaration leaves out. *)
Definition default_retry_classes : list ErrorClass.t :=
  [ErrorClass.TRANSIENT_IO].

Definition allows_retry (self : t) (error_class : ErrorClass.t)
    (current_attempt : Z) : bool :=
  if current_attempt >=? max_retries self then false
  else bool_decide (error_class ∈ retry_classes self).
End StepDefinition.

Definition PIPELINE_STEPS : list StepDefinition.t :=
  [ StepDefinition.mk "preflight_contract_check" "Preflight contract check"
      true false 0 StepDefinition.default_retry_classes;
    StepDefinition.mk "phase_benchmark" "Phase benchmark"
      true false 2 StepDefinition.default_retry_classes;
    StepDefinition.mk "stage_data_layout" "Stage data layout"
      false false 3 StepDefinition.default_retry_classes;
    StepDefinition.mk "build_steward_bundle" "Build steward bundle"
      false false 2 StepDefinition.default_retry_classes;
    StepDefinition.mk "validate_bundle_quality" "Validate bundle quality"
      true false 0 StepDefinition.default_retry_classes;
    StepDefinition.mk "build_minimal_deliverable" "Build minimal deliverable"
      false false 2 StepDefinition.default_retry_classes;
    StepDefinition.mk "verify_artifacts" "Verify artifacts"
      true false 0 StepDefinition.default_retry_classes;
    StepDefinition.mk "publish_internal" "Publish internal"
      false true 0 StepDefinition.default_retry_classes ].

(** ** Exceptions *)

Inductive exn : Set :=
| KeyError (key : string)
| ValueError (msg : string)
| TypeError (msg : string)
| ResumeError (msg : string)
| FileNotFoundError (msg : string)
| OverflowError (msg : string)
| StepRaised (msg : string)   (* an exception escaping a step callable *)
| RecursionError.

Inductive Res (A : Type) : Type :=
| Ok (a : A)
| Raise (e : exn).
Arguments Ok {A} a.
Arguments Raise {A} e.

(** ** state_machine.py *)

Module RunStateMachine.
Import RunState.

Definition TRANSITIONS (s : RunState.t) : list RunState.t :=
  match s with
  | CREATED => [PREFLIGHT_VALIDATED; FAILED]
  | PREFLIGHT_VALIDATED => [EXECUTING; FAILED]
  | EXECUTING => [BLOCKED; FAILED; SUCCEEDED]
  | BLOCKED => [EXECUTING; FAILED; ROLLED_BACK]
  | FAILED => [ROLLED_BACK]
  | SUCCEEDED => []
  | ROLLED_BACK => []
  end.

Definition can_transition (current target : RunState.t) : bool :=
  bool_decide (target ∈ TRANSITIONS current).
End RunStateMachine.

Module StepStateMachine.
Import StepState.

Definition TRANSITIONS (s : StepState.t) : list StepState.t :=
  match s with
  | PENDING => [RUNNING; SKIPPED]
  | RUNNING => [SUCCEEDED; FAILED]
  | FAILED => [RUNNING; COMPENSATED]
  | SUCCEEDED => []
  | COMPENSATED => []
  | SKIPPED => []
  end.

Definition can_transition (current target : StepState.t) : bool :=
  bool_decide (target ∈ TRANSITIONS current).
End StepStateMachine.

Module RetryPolicy.
Definition allows_retry (step : StepDefinition.t)
    (error_class : ErrorClass.t) (current_attempt : Z) : bool :=
  if StepDefinition.is_hard_gate step
     && bool_decide (error_class = ErrorClass.HARD_GATE_FAILED)
  then false
  else StepDefinition.allows_retry step error_class current_attempt.

(** [backoff_seconds(attempt)] computes [base * (2 ** attempt)] with a float
    [base]: the power is an integer that must convert to a float, and from
    [attempt = 1024] on it does not; [OverflowError] is raised.  Below that
    the call returns a delay between 0 and 66 seconds, which only the wall
    clock sees. *)
Definition backoff_seconds (attempt : Z) : Res unit :=
  if 1024 <=? attempt
  then Raise (OverflowError "int too large to convert to float")
  else Ok tt.
End RetryPolicy.

(** [list.index]: position of the first occurrence; [None] is
    [ValueError]. *)
Fixpoint list_index (x : string) (l : list string) : option nat :=
  match l with
  | [] => None
  | y :: l' => if String.eqb y x then Some O else S <$> list_index x l'
  end.

Module PipelineDAG.
Record t : Type := mk {
  steps : gmap string StepDefinition.t;
  order : list string
}.

(** [__init__]: in the dict comprehension a later definition with the same
    id replaces an earlier one; [order] keeps every occurrence. *)
Definition init (l : list StepDefinition.t) : t :=
  {| steps :=
       foldl (λ m step, <[StepDefinition.step_id step := step]> m) ∅ l;
     order := StepDefinition.step_id <$> l |}.

Definition get_step (self : t) (step_id : string)
    : option StepDefinition.t :=
  steps self !! step_id.

Definition get_upstream_steps (self : t) (step_id : string) : list string :=
  match list_index step_id (order self) with
  | Some idx => take idx (order self)
  | None => []
  end.

Definition get_downstream_steps (self : t) (step_id : string)
    : list string :=
  match list_index step_id (order self) with
  | Some idx => drop (S idx) (order self)
  | None => []
  end.

Definition can_execute_step `{Environment} (self : t) (step_id : string)
    (completed_steps failed_hard_gates : gset string)
    : bool * option string :=
  match get_step self step_id with
  | None => (false, Some ("Unknown step: " ++ step_id))
  | Some step =>
    let upstream : gset string :=
      list_to_set (get_upstream_steps self step_id) in
    let blocked_by := upstream ∩ failed_hard_gates in
    if negb (bool_decide (blocked_by = ∅)) then
      (false,
       Some ("Blocked by failed hard gate(s): " ++ repr_set blocked_by))
    else
      let missing := upstream ∖ completed_steps in
      if negb (bool_decide (missing = ∅)) then
        (false,
         Some ("Missing upstream dependencies: " ++ repr_set missing))
      else (true, None)
  end.
End PipelineDAG.

(** ** executor.py: the run context *)

Module RunContext.
Record t : Type := mk {
  run_id : string;
  run_state : RunState.t;
  step_states : gmap string StepState.t;
  step_attempts : gmap string Z;
  completed_steps : gset string;
  failed_hard_gates : gset string;
  artifacts : gmap string string
}.

(** [RunContext(run_id=..., run_state=...)]: the other fields start
    empty. *)
Definition new (run_id : string) (run_state : RunState.t) : t :=
  mk run_id run_state ∅ ∅ ∅ ∅ ∅.

Definition with_run_state (s : RunState.t) (c : t) : t :=
  mk (run_id c) s (step_states c) (step_attempts c) (completed_steps c)
     (failed_hard_gates c) (artifacts c).

Definition with_step_state (id : string) (s : StepState.t) (c : t) : t :=
  mk (run_id c) (run_state c) (<[id := s]> (step_states c))
     (step_attempts c) (completed_steps c) (failed_hard_gates c)
     (artifacts c).

Definition with_step_attempt (id : string) (n : Z) (c : t) : t :=
  mk (run_id c) (run_state c) (step_states c)
     (<[id := n]> (step_attempts c)) (completed_steps c)
     (failed_hard_gates c) (artifacts c).

Definition with_completed (id : string) (c : t) : t :=
  mk (run_id c) (run_state c) (step_states c) (step_attempts c)
     ({[id]} ∪ completed_steps c) (failed_hard_gates c) (artifacts c).

Definition with_failed_hard_gate (id : string) (c : t) : t :=
  mk (run_id c) (run_state c) (step_states c) (step_attempts c)
     (completed_steps c) ({[id]} ∪ failed_hard_gates c) (artifacts c).

Definition initialize_steps (step_ids : list string) (self : t) : t :=
  foldl (λ c step_id,
           with_step_attempt step_id 0
             (with_step_state step_id StepState.PENDING c))
        self step_ids.

Definition can_run_step `{Environment} (self : t) (step_id : string)
    (dag : PipelineDAG.t) : bool * option string :=
  PipelineDAG.can_execute_step dag step_id (completed_steps self)
    (failed_hard_gates self).
End RunContext.

(** ** The monad of the executor *)

(** One mutation of the context by the runner, in program order.  The
    journal is ghost state: no function reads it; it records which
    statement of the runner ran before which (what a step callable does to
    the context is not the runner's and is not recorded).  A change of a
    step's state is recorded together with the attempt it belongs to: the
    attempt [execute_step] is running, and where a step is marked without
    being run, the counter the step has. *)
Inductive Effect : Type :=
| Appended (event : Event.t)
| SetRunState (s : RunState.t)
| SetStepState (step_id : string) (s : StepState.t) (attempt : option Z)
| SetStepAttempt (step_id : string) (n : Z)
| AddCompleted (step_id : string)
| AddFailedHardGate (step_id : string).

#[global] Instance Effect_eq_dec : EqDecision Effect.
Proof. solve_decision. Defined.

(** The mutable world of one executor: the context object, the lines of
    [events.jsonl] (each the parsed dict of one line), the number of events
    built so far, and the journal. *)
Record World : Type := mkWorld {
  ctx : RunContext.t;
  log : list (gmap string JValue);
  clock : nat;
  journal : list Effect
}.

Definition M (A : Type) : Type := World → Res A * World.

#[global] Instance M_ret : MRet M := λ A a w, (Ok a, w).

#[global] Instance M_bind : MBind M := λ A B f m w,
  match m w with
  | (Ok a, w') => f a w'
  | (Raise e, w') => (Raise e, w')
  end.

Definition raise {A} (e : exn) : M A := λ w, (Raise e, w).

Definition gets {A} (f : World → A) : M A := λ w, (Ok (f w), w).

(** The next reading of the environment. *)
Definition stamp : M nat :=
  λ w, (Ok (clock w), mkWorld (ctx w) (log w) (S (clock w)) (journal w)).

(** A mutation of the context, journalled. *)
Definition mutate (eff : Effect) (f : RunContext.t → RunContext.t) : M unit :=
  λ w, (Ok tt, mkWorld (f (ctx w)) (log w) (clock w) (journal w ++ [eff])).

Definition set_run_state (s : RunState.t) : M unit :=
  mutate (SetRunState s) (RunContext.with_run_state s).

Definition set_step_state (id : string) (s : StepState.t) : M unit :=
  λ w, mutate (SetStepState id s (RunContext.step_attempts (ctx w) !! id))
         (RunContext.with_step_state id s) w.

(** The same assignment inside [execute_step], which works on the attempt
    it read when it was entered. *)
Definition set_step_state_at (id : string) (s : StepState.t) (attempt : Z)
    : M unit :=
  mutate (SetStepState id s (Some attempt)) (RunContext.with_step_state id s).

Definition set_step_attempt (id : string) (n : Z) : M unit :=
  mutate (SetStepAttempt id n) (RunContext.with_step_attempt id n).

Definition add_completed (id : string) : M unit :=
  mutate (AddCompleted id) (RunContext.with_completed id).

Definition add_failed_hard_gate (id : string) : M unit :=
  mutate (AddFailedHardGate id) (RunContext.with_failed_hard_gate id).

(** [ctx.step_attempts[id]] and [ctx.step_states[id]]: [KeyError] on a
    missing key. *)
Definition step_attempt_of (id : string) : M Z :=
  λ w, match RunContext.step_attempts (ctx w) !! id with
       | Some n => (Ok n, w)
       | None => (Raise (KeyError id), w)
       end.

Definition step_state_of (id : string) : M StepState.t :=
  λ w, match RunContext.step_states (ctx w) !! id with
       | Some s => (Ok s, w)
       | None => (Raise (KeyError id), w)
       end.

(** ** event_log.py *)

(** [l[start:]]: a negative [start] counts from the end; both ends are
    clamped to the list. *)
Definition slice_from {A} (start : Z) (l : list A) : list A :=
  let len := Z.of_nat (length l) in
  let start := if start <? 0 then Z.max (len + start) 0 else Z.min start len in
  drop (Z.to_nat start) l.

Module EventLog.
(** [append]: one line, the JSON text of [event.to_dict()].  Reading the
    line back parses it to the same dict, so the file is kept as the list
    of these dicts. *)
Definition append (event : Event.t) : M unit :=
  λ w, (Ok tt, mkWorld (ctx w) (log w ++ [Event.to_dict event]) (clock w)
                 (journal w ++ [Appended event])).

Definition read_all : M (list (gmap string JValue)) := gets log.

(** [tail]: [events[-n:] if events else []]. *)
Definition tail (n : Z) : M (list (gmap string JValue)) :=
  events ← read_all;
  mret (match events with
        | [] => []
        | _ => slice_from (- n) events
        end).
End EventLog.

(** ** executor.py: the step executor *)

(** A step callable is called with the context and the step id and returns
    [(success, error_class, message)], or raises (a return value that is no
    triple makes the unpacking raise, which is the same to the executor).
    The context it is given is the object the executor works on: whatever
    the callable assigns in it is there afterwards, whether the callable
    returns or raises, so a callable is a function from the context to an
    outcome and a context.  A callable may also keep state of its own or
    read the world outside; its first argument, the number of events built
    before the call, tells one call from another. *)
Inductive StepOutcome : Set :=
| Returned (success : bool) (error_class : option ErrorClass.t)
    (message : option string)
| Raised (msg : string).

Definition StepFunction : Type :=
  nat → RunContext.t → string → StepOutcome * RunContext.t.

Definition call (step_func : StepFunction) (step_id : string)
    : M (bool * option ErrorClass.t * option string) :=
  λ w, let '(outcome, c) := step_func (clock w) (ctx w) step_id in
       let w' := mkWorld c (log w) (clock w) (journal w) in
       match outcome with
       | Returned success error_class message =>
         (Ok (success, error_class, message), w')
       | Raised msg => (Raise (StepRaised msg), w')
       end.

(** A callable that leaves the context as it found it. *)
Definition passive (step_func : StepFunction) : Prop :=
  ∀ n c step_id, snd (step_func n c step_id) = c.

(** A computation without effect on the world. *)
Definition lift {A} (r : Res A) : M A := λ w, (r, w).

(** [message or "Step failed"]: [None] and the empty string are both
    falsy. *)
Definition message_or (message : option string) (default : string) : string :=
  match message with
  | Some (String c s) => String c s
  | Some EmptyString => default
  | None => default
  end.

Module StepExecutor.
Section with_env.
Context `{Environment}.
Variable step_functions : gmap string StepFunction.

Definition _emit_and_fail (step : StepDefinition.t)
    (error_class : ErrorClass.t) (reason : string) : M unit :=
  let step_id := StepDefinition.step_id step in
  run_id ← gets (λ w, RunContext.run_id (ctx w));
  attempt ← step_attempt_of step_id;
  n ← stamp;
  EventLog.append (step_failed n run_id step_id error_class reason attempt);;
  set_step_state step_id StepState.FAILED.

(** [execute_step] calls itself after a retry; [fuel] is the number of
    nested calls the interpreter still has room for. *)
Fixpoint execute_step_rec (fuel : nat) (step : StepDefinition.t) : M bool :=
  let step_id := StepDefinition.step_id step in
  match fuel with
  | O => raise RecursionError
  | S fuel' =>
    match step_functions !! step_id with
    | None =>
      _emit_and_fail step ErrorClass.UNKNOWN
        ("No implementation for step: " ++ step_id);;
      mret false
    | Some step_func =>
      attempt ← step_attempt_of step_id;
      (* Emit step.started *)
      run_id ← gets (λ w, RunContext.run_id (ctx w));
      n ← stamp;
      EventLog.append (step_started n run_id step_id attempt);;
      set_step_state_at step_id StepState.RUNNING attempt;;
      (* Execute step function *)
      r ← call step_func step_id;
      let '(success, error_class, message) := r in
      if success : bool then
        run_id ← gets (λ w, RunContext.run_id (ctx w));
        n ← stamp;
        EventLog.append (step_succeeded n run_id step_id attempt None);;
        set_step_state_at step_id StepState.SUCCEEDED attempt;;
        add_completed step_id;;
        mret true
      else
        let error_class := default ErrorClass.UNKNOWN error_class in
        let reason := message_or message "Step failed" in
        (* Emit step.failed *)
        run_id ← gets (λ w, RunContext.run_id (ctx w));
        n ← stamp;
        EventLog.append
          (step_failed n run_id step_id error_class reason attempt);;
        (* Hard gate failure *)
        if StepDefinition.is_hard_gate step then
          run_id ← gets (λ w, RunContext.run_id (ctx w));
          n ← stamp;
          EventLog.append
            (gate_failed n run_id step_id error_class reason);;
          add_failed_hard_gate step_id;;
          set_step_state_at step_id StepState.FAILED attempt;;
          mret false
        else
          (* Check retry *)
          if RetryPolicy.allows_retry step error_class attempt then
            old ← step_attempt_of step_id;
            set_step_attempt step_id (old + 1);;
            new_attempt ← step_attempt_of step_id;
            run_id ← gets (λ w, RunContext.run_id (ctx w));
            n ← stamp;
            EventLog.append
              (step_retried n run_id step_id new_attempt
                 ("Retrying after " ++ ErrorClass.value error_class));;
            (* Backoff *)
            lift (RetryPolicy.backoff_seconds attempt);;
            (* Recursive retry *)
            execute_step_rec fuel' step
          else
            set_step_state_at step_id StepState.FAILED attempt;;
            mret false
    end
  end.

Definition execute_step (step : StepDefinition.t) : M bool :=
  execute_step_rec (S recursion_limit) step.
End with_env.
End StepExecutor.

(** ** executor.py: the pipeline executor *)

Module PipelineExecutor.
Record t : Type := mk {
  step_functions : gmap string StepFunction;
  dag : PipelineDAG.t
}.

(** [__init__]: the run directory and an empty [events.jsonl] are created
    if missing; the log of the world stands for that file. *)
Definition init (step_functions : gmap string StepFunction)
    (pipeline_steps : list StepDefinition.t) : t :=
  mk step_functions (PipelineDAG.init pipeline_steps).

Section with_env.
Context `{Environment}.
Variable self : t.

Definition _transition_run_state (new_state : RunState.t)
    (reason : option string) : M unit :=
  current ← gets (λ w, RunContext.run_state (ctx w));
  (* run_sm.validate_transition *)
  (if RunStateMachine.can_transition current new_state then mret tt
   else raise (ValueError ("Invalid run state transition: "
                             ++ RunState.value current ++ " -> "
                             ++ RunState.value new_state)));;
  run_id ← gets (λ w, RunContext.run_id (ctx w));
  n ← stamp;
  EventLog.append (run_state_changed n run_id current new_state reason);;
  set_run_state new_state.

Definition _fail_run (reason : string) : M unit :=
  current ← gets (λ w, RunContext.run_state (ctx w));
  (if bool_decide (current ≠ RunState.FAILED)
   then _transition_run_state RunState.FAILED (Some reason)
   else mret tt);;
  run_id ← gets (λ w, RunContext.run_id (ctx w));
  n ← stamp;
  EventLog.append (run_completed n run_id RunState.FAILED (Some reason)).

Definition _complete_run (final_state : RunState.t) (reason : string)
    : M unit :=
  current ← gets (λ w, RunContext.run_state (ctx w));
  (if bool_decide (current ≠ final_state)
   then _transition_run_state final_state (Some reason)
   else mret tt);;
  run_id ← gets (λ w, RunContext.run_id (ctx w));
  n ← stamp;
  EventLog.append (run_completed n run_id final_state (Some reason)).

(** [start]: emits [run.created] on the given log and returns the world
    with a fresh context. *)
Definition start (run_id : string) (reason : option string)
    (log0 : list (gmap string JValue)) (clock0 : nat) : World :=
  let event := run_created clock0 run_id reason in
  let ctx := RunContext.new run_id RunState.CREATED in
  mkWorld (RunContext.initialize_steps (PipelineDAG.order (dag self)) ctx)
          (log0 ++ [Event.to_dict event]) (S clock0) [Appended event].

(** [for ds in downstream: if ctx.step_states[ds] == PENDING: ...] *)
Fixpoint skip_pending (downstream : list string) : M unit :=
  match downstream with
  | [] => mret tt
  | ds :: rest =>
    s ← step_state_of ds;
    (if bool_decide (s = StepState.PENDING)
     then set_step_state ds StepState.SKIPPED
     else mret tt);;
    skip_pending rest
  end.

(** The loop of [execute] over [dag.order].  [Some s] is the early
    [return ctx.run_state] of the hard-gate branch, [None] is falling out
    of the loop. *)
Fixpoint execute_steps (ids : list string) : M (option RunState.t) :=
  match ids with
  | [] => mret None
  | step_id :: rest =>
    match PipelineDAG.get_step (dag self) step_id with
    | None => execute_steps rest
    | Some step =>
      c ← gets ctx;
      let '(can_run, reason) :=
        RunContext.can_run_step c step_id (dag self) in
      if negb can_run then
        (* Skip step (blocked by hard gate or missing dependencies) *)
        set_step_state step_id StepState.SKIPPED;;
        execute_steps rest
      else
        success ← StepExecutor.execute_step (step_functions self) step;
        if negb success then
          if StepDefinition.is_hard_gate step then
            (* Hard gate failure: skip all downstream steps *)
            skip_pending
              (PipelineDAG.get_downstream_steps (dag self) step_id);;
            (* Fail run immediately *)
            _fail_run ("Hard gate failed: " ++ step_id);;
            s ← gets (λ w, RunContext.run_state (ctx w));
            mret (Some s)
          else execute_steps rest
        else execute_steps rest
    end
  end.

Definition execute : M RunState.t :=
  _transition_run_state RunState.PREFLIGHT_VALIDATED
    (Some "Pre-execution validation passed");;
  _transition_run_state RunState.EXECUTING None;;
  returned ← execute_steps (PipelineDAG.order (dag self));
  match returned with
  | Some s => mret s
  | None =>
    failed ← gets (λ w, RunContext.failed_hard_gates (ctx w));
    (if negb (bool_decide (failed = ∅))
     then _fail_run ("Hard gate failures: " ++ repr_set failed)
     else _complete_run RunState.SUCCEEDED "All steps succeeded");;
    gets (λ w, RunContext.run_state (ctx w))
  end.
End with_env.
End PipelineExecutor.

(** ** Reading event dicts

    [resume.py] and [summary.py] work on the dicts [read_all] returns.  The
    contexts and summaries they fill are typed ([step_attempts : dict[str,
    int]], [run_id : str], ...).  A dict value of the other JSON kind, which
    [to_dict] never writes, cannot be stored in them; the model stops with
    [TypeError] where it meets one. *)

#[global] Instance Res_ret : MRet Res := λ A a, Ok a.

#[global] Instance Res_bind : MBind Res := λ A B f m,
  match m with
  | Ok a => f a
  | Raise e => Raise e
  end.

(** [event[key]] *)
Definition item (event : gmap string JValue) (key : string) : Res JValue :=
  match event !! key with
  | Some v => Ok v
  | None => Raise (KeyError key)
  end.

Definition as_str (v : JValue) : Res string :=
  match v with
  | JStr s => Ok s
  | JInt _ => Raise (TypeError "expected str")
  end.

Definition as_int (v : JValue) : Res Z :=
  match v with
  | JInt n => Ok n
  | JStr _ => Raise (TypeError "expected int")
  end.

(** [event.get(key)] for a string-valued key. *)
Definition get_str (event : gmap string JValue) (key : string)
    : Res (option string) :=
  match event !! key with
  | Some v => s ← as_str v; Ok (Some s)
  | None => Ok None
  end.

(** The text an f-string prints for a dict value. *)
Definition format_value (v : JValue) : string :=
  match v with
  | JStr s => s
  | JInt n => pretty n
  end.

(** [RunState(v)] on a dict value. *)
Definition RunState_call (v : JValue) : Res RunState.t :=
  match v with
  | JStr s =>
    match RunState.of_value s with
    | Some r => Ok r
    | None => Raise (ValueError ("'" ++ s ++ "' is not a valid RunState"))
    end
  | JInt n => Raise (ValueError (pretty n ++ " is not a valid RunState"))
  end.

(** [for x in xs: acc = body(acc, x)], stopping at the first exception. *)
Fixpoint for_each {A B} (body : A → B → Res A) (acc : A) (xs : list B)
    : Res A :=
  match xs with
  | [] => Ok acc
  | x :: xs' => acc' ← body acc x; for_each body acc' xs'
  end.

(** ** resume.py *)

Module RunReconstructor.
Definition _apply_event (ctx : RunContext.t) (event : gmap string JValue)
    : Res RunContext.t :=
  event_type ← item event "event_type";
  if bool_decide (event_type = JStr "run.state_changed") then
    s ← item event "new_state" ≫= RunState_call;
    Ok (RunContext.with_run_state s ctx)
  else if bool_decide (event_type = JStr "run.completed") then
    s ← item event "new_state" ≫= RunState_call;
    Ok (RunContext.with_run_state s ctx)
  else if bool_decide (event_type = JStr "step.started") then
    step_id ← item event "step_id" ≫= as_str;
    let ctx := RunContext.with_step_state step_id StepState.RUNNING ctx in
    attempt ← item event "attempt" ≫= as_int;
    Ok (RunContext.with_step_attempt step_id attempt ctx)
  else if bool_decide (event_type = JStr "step.succeeded") then
    step_id ← item event "step_id" ≫= as_str;
    Ok (RunContext.with_completed step_id
          (RunContext.with_step_state step_id StepState.SUCCEEDED ctx))
  else if bool_decide (event_type = JStr "step.failed") then
    step_id ← item event "step_id" ≫= as_str;
    Ok (RunContext.with_step_state step_id StepState.FAILED ctx)
  else if bool_decide (event_type = JStr "gate.failed") then
    step_id ← item event "step_id" ≫= as_str;
    Ok (RunContext.with_failed_hard_gate step_id ctx)
  else if bool_decide (event_type = JStr "step.retried") then
    step_id ← item event "step_id" ≫= as_str;
    attempt ← item event "attempt" ≫= as_int;
    Ok (RunContext.with_step_state step_id StepState.PENDING
          (RunContext.with_step_attempt step_id attempt ctx))
  else Ok ctx.

Definition reconstruct (events : list (gmap string JValue))
    : Res RunContext.t :=
  match events with
  | [] => Raise (ResumeError "Event log is empty")
  | first :: _ =>
    (* First event must be run.created *)
    event_type ← item first "event_type";
    if bool_decide (event_type ≠ JStr "run.created") then
      Raise (ResumeError ("First event must be run.created, got "
                            ++ format_value event_type))
    else
      run_id ← item first "run_id" ≫= as_str;
      let ctx := RunContext.new run_id RunState.CREATED in
      let step_ids := StepDefinition.step_id <$> PIPELINE_STEPS in
      let ctx := RunContext.initialize_steps step_ids ctx in
      (* Replay events *)
      for_each _apply_event ctx events
  end.
End RunReconstructor.

Module ResumeGuard.
Definition TERMINAL_STATES : list RunState.t :=
  [RunState.SUCCEEDED; RunState.ROLLED_BACK].

Definition RESUMABLE_STEP_STATES : list StepState.t :=
  [StepState.PENDING; StepState.FAILED].

Section with_env.
Context `{Environment}.

Definition can_resume (ctx : RunContext.t) : bool * option string :=
  let run_state := RunContext.run_state ctx in
  (* Cannot resume terminal states *)
  if bool_decide (run_state ∈ TERMINAL_STATES) then
    (false, Some ("Run in terminal state: " ++ RunState.value run_state))
  (* Can resume FAILED if no hard gates failed *)
  else if bool_decide (run_state = RunState.FAILED) then
    if negb (bool_decide (RunContext.failed_hard_gates ctx = ∅)) then
      (false, Some ("Hard gate failures block resume: "
                      ++ repr_set (RunContext.failed_hard_gates ctx)))
    else (true, None)
  (* Can resume BLOCKED (manual action required) *)
  else if bool_decide (run_state = RunState.BLOCKED) then (true, None)
  (* Can resume in-progress runs *)
  else if bool_decide
            (run_state ∈ [RunState.CREATED; RunState.PREFLIGHT_VALIDATED;
                          RunState.EXECUTING])
  then (true, None)
  else (false, Some ("Unknown run state: " ++ RunState.value run_state)).

Definition validate_resume (ctx : RunContext.t) : Res unit :=
  let '(can_resume, reason) := can_resume ctx in
  if negb can_resume then
    Raise (ResumeError ("Cannot resume run: " ++ default "None" reason))
  else Ok tt.

Definition get_resume_point (ctx : RunContext.t) (dag : PipelineDAG.t)
    : Res (option string) :=
  (fix loop (ids : list string) : Res (option string) :=
     match ids with
     | [] => Ok None
     | step_id :: rest =>
       match RunContext.step_states ctx !! step_id with
       | None => Raise (KeyError step_id)
       | Some state =>
         if bool_decide (state = StepState.SUCCEEDED) then loop rest
         else if bool_decide (state = StepState.SKIPPED) then loop rest
         else if bool_decide (state ∈ RESUMABLE_STEP_STATES)
              then Ok (Some step_id)
              else loop rest
       end
     end) (PipelineDAG.order dag).
End with_env.
End ResumeGuard.

(** [resume_run]: [file] is the content of [<run_dir>/events.jsonl], [None]
    when the file does not exist. *)
Definition resume_run `{Environment} (run_dir : string)
    (file : option (list (gmap string JValue))) : Res RunContext.t :=
  let log_path := run_dir ++ "/events.jsonl" in
  match file with
  | None => Raise (ResumeError ("Event log not found: " ++ log_path))
  | Some events =>
    (* Reconstruct state *)
    ctx ← RunReconstructor.reconstruct events;
    (* Validate resumability *)
    ResumeGuard.validate_resume ctx;;
    Ok ctx
  end.

(** ** summary.py *)

Module StepSummary.
Record t : Type := mk {
  step_id : string;
  state : StepState.t;
  attempts : Z;
  error_class : option ErrorClass.t;
  error_reason : option string;
  duration_ms : option Z;
  started_at : option string;
  completed_at : option string
}.
End StepSummary.

Module RunSummary.
Record t : Type := mk {
  run_id : string;
  final_state : RunState.t;
  created_at : string;
  completed_at : option string;
  duration_ms : option Z;
  steps : list StepSummary.t;
  completed_steps : Z;
  failed_steps : Z;
  skipped_steps : Z;
  failed_hard_gates : list string;
  total_attempts : Z;
  total_retries : Z
}.
End RunSummary.

(** [sorted] on strings: ascending in the order of [String.leb], which
    compares character codes like Python compares [str]. *)
Fixpoint insert_sorted (x : string) (l : list string) : list string :=
  match l with
  | [] => [x]
  | y :: l' => if String.leb x y then x :: y :: l' else y :: insert_sorted x l'
  end.

Definition sorted (l : list string) : list string :=
  foldr insert_sorted [] l.

(** Truthiness of an [Optional[str]]. *)
Definition truthy (s : option string) : bool :=
  match s with
  | Some (String _ _) => true
  | _ => false
  end.

Module SummaryGenerator.
(** The local variables of [generate] that the event loop updates
    ([final_state] and [completed_at] are fields of the summary under
    construction). *)
Record tracking : Type := mkTracking {
  final_state : RunState.t;
  completed_at : option string;
  step_states : gmap string StepState.t;
  step_attempts : gmap string Z;
  step_start_times : gmap string string;
  step_errors : gmap string (option string * option string);
  gate_failures : gset string;
  retry_count : Z
}.

(** The body of [for event in events]. *)
Definition process_event (tr : tracking) (event : gmap string JValue)
    : Res tracking :=
  event_type ← item event "event_type";
  timestamp ← item event "timestamp_utc" ≫= as_str;
  if bool_decide (event_type = JStr "run.state_changed")
     || bool_decide (event_type = JStr "run.completed") then
    s ← item event "new_state" ≫= RunState_call;
    Ok (mkTracking s (Some timestamp) (step_states tr) (step_attempts tr)
          (step_start_times tr) (step_errors tr) (gate_failures tr)
          (retry_count tr))
  else if bool_decide (event_type = JStr "step.started") then
    step_id ← item event "step_id" ≫= as_str;
    attempt ← match event !! "attempt" with
              | Some v => as_int v
              | None => Ok 0
              end;
    Ok (mkTracking (final_state tr) (completed_at tr)
          (<[step_id := StepState.RUNNING]> (step_states tr))
          (<[step_id := attempt]> (step_attempts tr))
          (<[step_id := timestamp]> (step_start_times tr))
          (step_errors tr) (gate_failures tr) (retry_count tr))
  else if bool_decide (event_type = JStr "step.succeeded") then
    step_id ← item event "step_id" ≫= as_str;
    Ok (mkTracking (final_state tr) (completed_at tr)
          (<[step_id := StepState.SUCCEEDED]> (step_states tr))
          (step_attempts tr) (step_start_times tr) (step_errors tr)
          (gate_failures tr) (retry_count tr))
  else if bool_decide (event_type = JStr "step.failed") then
    step_id ← item event "step_id" ≫= as_str;
    cls ← get_str event "error_class";
    rsn ← get_str event "reason";
    Ok (mkTracking (final_state tr) (completed_at tr)
          (<[step_id := StepState.FAILED]> (step_states tr))
          (step_attempts tr) (step_start_times tr)
          (<[step_id := (cls, rsn)]> (step_errors tr))
          (gate_failures tr) (retry_count tr))
  else if bool_decide (event_type = JStr "step.retried") then
    Ok (mkTracking (final_state tr) (completed_at tr) (step_states tr)
          (step_attempts tr) (step_start_times tr) (step_errors tr)
          (gate_failures tr) (retry_count tr + 1))
  else if bool_decide (event_type = JStr "gate.failed") then
    step_id ← item event "step_id" ≫= as_str;
    Ok (mkTracking (final_state tr) (completed_at tr) (step_states tr)
          (step_attempts tr) (step_start_times tr) (step_errors tr)
          ({[step_id]} ∪ gate_failures tr) (retry_count tr))
  else Ok tr.

(** The [StepSummary] built for one tracked step.  An [error_class] that
    is falsy (absent or empty) is not converted; the typed field then
    holds [None]. *)
Definition step_summary (tr : tracking) (step_id : string)
    : Res StepSummary.t :=
  state ← match step_states tr !! step_id with
          | Some s => Ok s
          | None => Raise (KeyError step_id)
          end;
  let attempts := default 0 (step_attempts tr !! step_id) + 1 in
  let error_info := default (None, None) (step_errors tr !! step_id) in
  error_class ← (if truthy (fst error_info) then
                   match ErrorClass.of_value (default EmptyString
                                                (fst error_info)) with
                   | Some c => Ok (Some c)
                   | None => Raise (ValueError "not a valid ErrorClass")
                   end
                 else Ok None);
  Ok (StepSummary.mk step_id state attempts error_class (snd error_info)
        None (step_start_times tr !! step_id) None).

(** The part of the summary that the loop over the steps fills. *)
Record outcome : Type := mkOutcome {
  steps : list StepSummary.t;
  completed_steps : Z;
  failed_steps : Z;
  skipped_steps : Z
}.

(** The body of [for step_id in sorted(step_states.keys())]. *)
Definition add_step (tr : tracking) (acc : outcome) (step_id : string)
    : Res outcome :=
  s ← step_summary tr step_id;
  let steps := (steps acc ++ [s])%list in
  (* Update counts *)
  let state := StepSummary.state s in
  if bool_decide (state = StepState.SUCCEEDED) then
    Ok (mkOutcome steps (completed_steps acc + 1) (failed_steps acc)
          (skipped_steps acc))
  else if bool_decide (state = StepState.FAILED) then
    Ok (mkOutcome steps (completed_steps acc) (failed_steps acc + 1)
          (skipped_steps acc))
  else if bool_decide (state = StepState.SKIPPED) then
    Ok (mkOutcome steps (completed_steps acc) (failed_steps acc)
          (skipped_steps acc + 1))
  else Ok (mkOutcome steps (completed_steps acc) (failed_steps acc)
             (skipped_steps acc)).

Definition generate `{Environment} (events : list (gmap string JValue))
    : Res RunSummary.t :=
  match events with
  | [] => Raise (ValueError "Event log is empty")
  | first :: _ =>
    run_id ← item first "run_id" ≫= as_str;
    created_at ← item first "timestamp_utc" ≫= as_str;
    tr ← for_each process_event
           (mkTracking RunState.CREATED None ∅ ∅ ∅ ∅ ∅ 0) events;
    (* Build step summaries *)
    out ← for_each (add_step tr) (mkOutcome [] 0 0 0)
            (sorted (elements (dom (step_states tr))));
    (* Calculate duration *)
    duration_ms ←
      (if truthy (completed_at tr) && truthy (Some created_at) then
         match iso_delta_ms created_at
                 (default EmptyString (completed_at tr)) with
         | Some ms => Ok (Some ms)
         | None => Raise (ValueError "Invalid isoformat string")
         end
       else Ok None);
    Ok (RunSummary.mk run_id (final_state tr) created_at (completed_at tr)
          duration_ms (steps out) (completed_steps out) (failed_steps out)
          (skipped_steps out)
          (sorted (elements (gate_failures tr)))
          (foldr (λ s acc, StepSummary.attempts s + acc) 0 (steps out))
          (retry_count tr))
  end.
End SummaryGenerator.

(** [generate_summary]: [file] is the content of [<run_dir>/events.jsonl],
    [None] when the file does not exist. *)
Definition generate_summary `{Environment} (run_dir : string)
    (file : option (list (gmap string JValue))) : Res RunSummary.t :=
  let log_path := run_dir ++ "/events.jsonl" in
  match file with
  | None => Raise (FileNotFoundError ("Event log not found: " ++ log_path))
  | Some events => SummaryGenerator.generate events
  end.

(** ** Write-ahead order of a journal

    [describes e eff]: the event [e] is the one the runner writes for the
    mutation [eff].  Marking a step [SKIPPED] or resetting it to [PENDING]
    has no event. *)
Definition describes (e : Event.t) (eff : Effect) : bool :=
  match eff with
  | Appended _ => false
  | SetRunState s =>
    bool_decide (Event.event_type e = EventType.RUN_STATE_CHANGED)
    && bool_decide (Event.new_state e = Some (RunState.value s))
  | SetStepState id s attempt =>
    bool_decide (Event.step_id e = Some id)
    && bool_decide (Some (Event.attempt e) = attempt)
    && match s with
       | StepState.RUNNING =>
         bool_decide (Event.event_type e = EventType.STEP_STARTED)
       | StepState.SUCCEEDED =>
         bool_decide (Event.event_type e = EventType.STEP_SUCCEEDED)
       | StepState.FAILED =>
         bool_decide (Event.event_type e = EventType.STEP_FAILED)
       | _ => false
       end
  | SetStepAttempt id n =>
    bool_decide (Event.event_type e = EventType.STEP_RETRIED)
    && bool_decide (Event.step_id e = Some id)
    && bool_decide (Event.attempt e = n)
  | AddCompleted id =>
    bool_decide (Event.event_type e = EventType.STEP_SUCCEEDED)
    && bool_decide (Event.step_id e = Some id)
  | AddFailedHardGate id =>
    bool_decide (Event.event_type e = EventType.GATE_FAILED)
    && bool_decide (Event.step_id e = Some id)
  end.

(** Every mutation of the context in [j] comes after the append of an event
    that describes it; [seen] are the events appended before [j]. *)
Fixpoint write_ahead (seen : list Event.t) (j : list Effect) : bool :=
  match j with
  | [] => true
  | Appended e :: j' => write_ahead (e :: seen) j'
  | eff :: j' => existsb (λ e, describes e eff) seen && write_ahead seen j'
  end.

(** The same, except for the attempt counter: it is raised first, and the
    very next effect is the append of the [step.retried] event that carries
    the new value. *)
Fixpoint write_ahead_but_attempt (seen : list Event.t) (j : list Effect)
    : bool :=
  match j with
  | [] => true
  | Appended e :: j' => write_ahead_but_attempt (e :: seen) j'
  | SetStepAttempt id n :: j' =>
    match j' with
    | Appended e :: _ => describes e (SetStepAttempt id n)
    | _ => false
    end && write_ahead_but_attempt seen j'
  | eff :: j' =>
    existsb (λ e, describes e eff) seen && write_ahead_but_attempt seen j'
  end.

(** The wire dicts of a list of events, and the events of one type in a
    log. *)
Definition of_type (ty : EventType.t) (events : list (gmap string JValue))
    : list (gmap string JValue) :=
  filter (λ d, d !! "event_type" = Some (JStr (EventType.value ty))) events.

(** ** Sample data: an environment, and the pipelines of the test suite *)

(** Timestamps of the examples.  [now_utc] of the sample environment
    writes what [datetime.now(timezone.utc).isoformat()] writes on a whole
    second, [YYYY-MM-DDTHH:MM:SS+00:00]; the sample parser reads that
    format, and [Z] for the offset, and nothing else (Python's parser
    reads more formats; the examples hold none of them). *)
Definition two_digits (n : nat) : string :=
  if (n <? 10)%nat then "0" ++ pretty n else pretty n.

Definition digit (c : ascii) : option Z :=
  let n := Z.of_nat (nat_of_ascii c) in
  if (48 <=? n) && (n <=? 57) then Some (n - 48) else None.

Fixpoint digits (s : string) (acc : Z) : option Z :=
  match s with
  | EmptyString => Some acc
  | String c s' => d ← digit c; digits s' (10 * acc + d)
  end.

(** The number written in the [len] characters from [start] on. *)
Definition number_at (start len : nat) (s : string) : option Z :=
  let t := substring start len s in
  if (String.length t =? len)%nat then digits t 0 else None.

Definition is_leap (y : Z) : bool :=
  ((y mod 4 =? 0) && negb (y mod 100 =? 0)) || (y mod 400 =? 0).

Definition days_in_month (y m : Z) : Z :=
  if m =? 2 then (if is_leap y then 29 else 28)
  else if (m =? 4) || (m =? 6) || (m =? 9) || (m =? 11) then 30
  else 31.

(** Days from 1970-01-01 to the given date of the Gregorian calendar. *)
Definition days_from_civil (y m d : Z) : Z :=
  let y := if m <=? 2 then y - 1 else y in
  let era := y / 400 in
  let yoe := y - era * 400 in
  let mp := (m + 9) mod 12 in
  let doy := (153 * mp + 2) / 5 + d - 1 in
  let doe := yoe * 365 + yoe / 4 - yoe / 100 + doy in
  era * 146097 + doe - 719468.

(** [s.replace('Z', '+00:00')] *)
Fixpoint replace_Z (s : string) : string :=
  match s with
  | EmptyString => EmptyString
  | String c s' =>
    if Ascii.eqb c "Z"%char then "+00:00" ++ replace_Z s'
    else String c (replace_Z s')
  end.

(** Seconds from 1970-01-01T00:00:00+00:00 to the timestamp. *)
Definition parse_iso (s : string) : option Z :=
  if (String.length s =? 25)%nat
     && String.eqb (substring 4 1 s) "-"
     && String.eqb (substring 7 1 s) "-"
     && String.eqb (substring 10 1 s) "T"
     && String.eqb (substring 13 1 s) ":"
     && String.eqb (substring 16 1 s) ":"
     && String.eqb (substring 19 6 s) "+00:00"
  then
    y ← number_at 0 4 s;
    m ← number_at 5 2 s;
    d ← number_at 8 2 s;
    hh ← number_at 11 2 s;
    mm ← number_at 14 2 s;
    ss ← number_at 17 2 s;
    if (1 <=? y) && (1 <=? m) && (m <=? 12) && (1 <=? d)
       && (d <=? days_in_month y m) && (hh <? 24) && (mm <? 60) && (ss <? 60)
    then Some (days_from_civil y m d * 86400 + hh * 3600 + mm * 60 + ss)
    else None
  else None.

(** The text of a set of strings, members in ascending order. *)
Definition quoted (s : string) : string := "'" ++ s ++ "'".

Definition sample_env : Environment :=
  {| new_id := λ n,
       let digits := pretty n in
       "00000000-0000-4000-8000-"
       ++ String.concat EmptyString
            (replicate (12 - String.length digits) "0")
       ++ digits;
     now_utc := λ n,
       "2026-02-16T23:" ++ two_digits (n / 60 mod 60) ++ ":"
       ++ two_digits (n mod 60) ++ "+00:00";
     repr_set := λ s,
       if bool_decide (s = ∅) then "set()"
       else "{" ++ String.concat ", " (quoted <$> sorted (elements s)) ++ "}";
     iso_delta_ms := λ created completed,
       start ← parse_iso (replace_Z created);
       stop ← parse_iso (replace_Z completed);
       Some ((stop - start) * 1000);
     recursion_limit := 1000 |}.

(** Callables of the test suite; none touches the context. *)
Definition succeed : StepFunction := λ _ c _, (Returned true None None, c).

Definition hard_fail : StepFunction :=
  λ _ c _, (Returned false (Some ErrorClass.HARD_GATE_FAILED)
              (Some "Hard gate failed"), c).

Definition always_fail : StepFunction :=
  λ _ c _, (Returned false (Some ErrorClass.TRANSIENT_IO)
              (Some "Persistent failure"), c).

(** [StepDefinition(step_id, name, ...)] with the defaults of the
    dataclass. *)
Definition plain_step (step_id name : string) : StepDefinition.t :=
  StepDefinition.mk step_id name false false 0
    StepDefinition.default_retry_classes.

Definition hard_gate_step (step_id name : string) : StepDefinition.t :=
  StepDefinition.mk step_id name true false 0
    StepDefinition.default_retry_classes.

(** test_summary_with_failures: a failing hard gate and one downstream
    step. *)
Definition gate_then_step : PipelineExecutor.t :=
  PipelineExecutor.init
    {[ "step_1" := hard_fail; "step_2" := succeed ]}
    [hard_gate_step "step_1" "Step 1"; plain_step "step_2" "Step 2"].



(** test_executor_retry_exhausted: one step, two retries, always failing. *)
Definition retry_step : StepDefinition.t :=
  StepDefinition.mk "step_1" "Step 1" false false 2 [ErrorClass.TRANSIENT_IO].

Definition retry_exhausted : PipelineExecutor.t :=
  PipelineExecutor.init {[ "step_1" := always_fail ]} [retry_step].

(** A hard gate with no registered callable, and one downstream step. *)
Definition unregistered_gate : PipelineExecutor.t :=
  PipelineExecutor.init
    {[ "step_2" := succeed ]}
    [hard_gate_step "step_1" "Step 1"; plain_step "step_2" "Step 2"].

(** The second step of [PIPELINE_STEPS]: a hard gate with two retries. *)
Definition phase_benchmark : StepDefinition.t :=
  StepDefinition.mk "phase_benchmark" "Phase benchmark" true false 2
    StepDefinition.default_retry_classes.

(** A world in which [phase_benchmark] is about to run for the first
    time. *)
Definition before_phase_benchmark : World :=
  mkWorld
    (RunContext.initialize_steps (StepDefinition.step_id <$> PIPELINE_STEPS)
       (RunContext.new "run_123" RunState.EXECUTING))
    [] 0 [].

(** The log of a run of [PIPELINE_STEPS] whose process stopped right after
    [gate.failed] for [phase_benchmark] was written. *)
Definition interrupted_after_gate_failed : list (gmap string JValue) :=
  let _ := sample_env in
  Event.to_dict <$>
  [ run_created 0 "run_123" None;
    run_state_changed 1 "run_123" RunState.CREATED
      RunState.PREFLIGHT_VALIDATED (Some "Pre-execution validation passed");
    run_state_changed 2 "run_123" RunState.PREFLIGHT_VALIDATED
      RunState.EXECUTING None;
    step_started 3 "run_123" "preflight_contract_check" 0;
    step_succeeded 4 "run_123" "preflight_contract_check" 0 None;
    step_started 5 "run_123" "phase_benchmark" 0;
    step_failed 6 "run_123" "phase_benchmark" ErrorClass.HARD_GATE_FAILED
      "threshold" 0;
    gate_failed 7 "run_123" "phase_benchmark" ErrorClass.HARD_GATE_FAILED
      "threshold" ].

(** ** Reading off a concrete run

    Facts about the result of a closed computation are checked by
    evaluation of a boolean test on it. *)

Definition ok_and {A} (r : Res A) (p : A → bool) : bool :=
  match r with
  | Ok a => p a
  | Raise _ => false
  end.

Definition ran_and {A} (r : Res A * World) (p : A → World → bool) : bool :=
  match r with
  | (Ok a, w) => p a w
  | (Raise _, _) => false
  end.

(** The hard-gate branch of the loop of [execute], from the world the failed
    step leaves; named so that lemmas can speak of it. *)
Definition gate_branch `{Environment} (self : PipelineExecutor.t)
    (step_id : string) : M (option RunState.t) :=
  PipelineExecutor.skip_pending
    (PipelineDAG.get_downstream_steps (PipelineExecutor.dag self) step_id);;
  PipelineExecutor._fail_run ("Hard gate failed: " ++ step_id);;
  s ← gets (λ w, RunContext.run_state (ctx w));
  mret (Some s).

(** A step without a callable that is not a hard gate, and one downstream
    step. *)
Definition unregistered_plain : PipelineExecutor.t :=
  PipelineExecutor.init
    {[ "step_2" := succeed ]}
    [plain_step "step_1" "Step 1"; plain_step "step_2" "Step 2"].

(** The events that make [generate] track a step: [ev] is a
    [step.started], [step.succeeded] or [step.failed] event of step [id]. *)
Definition tracks (id : string) (ev : gmap string JValue) : Prop :=
  ev !! "step_id" = Some (JStr id)
  ∧ (ev !! "event_type" = Some (JStr "step.started")
     ∨ ev !! "event_type" = Some (JStr "step.succeeded")
     ∨ ev !! "event_type" = Some (JStr "step.failed")).

(** The states [generate] assigns. *)
Definition tracked_states : list StepState.t :=
  [StepState.RUNNING; StepState.SUCCEEDED; StepState.FAILED].

(** The two transitions that open [execute]. *)
Definition opening `{Environment} : M unit :=
  PipelineExecutor._transition_run_state RunState.PREFLIGHT_VALIDATED
    (Some "Pre-execution validation passed");;
  PipelineExecutor._transition_run_state RunState.EXECUTING None.

(** The wire dict [d] is an event of step [step_id]. *)
Definition about (step_id : string) (d : gmap string JValue) : Prop :=
  d !! "step_id" = Some (JStr step_id).

(** The part of the world that neither a step nor a skip touches: the run
    state and the run id stay, no key leaves [step_states] or
    [step_attempts], and the log only grows. *)
Definition steady (w w' : World) : Prop :=
  RunContext.run_state (ctx w') = RunContext.run_state (ctx w)
  ∧ RunContext.run_id (ctx w') = RunContext.run_id (ctx w)
  ∧ dom (RunContext.step_states (ctx w))
    ⊆ dom (RunContext.step_states (ctx w'))
  ∧ dom (RunContext.step_attempts (ctx w))
    ⊆ dom (RunContext.step_attempts (ctx w'))
  ∧ log w `prefix_of` log w'.

(** * Properties *)

Lemma pair_of_fst {A B} (p : A * B) (a : A) : fst p = a → p = (a, snd p).
Proof. destruct p; simpl. by intros ->. Qed.

Lemma ok_and_elim {A} (r : Res A) (p : A → bool) :
  ok_and r p = true → ∃ a, r = Ok a ∧ p a = true.
Proof. destruct r as [a|e]; simpl; [eauto|discriminate]. Qed.

Lemma ran_and_elim {A} (r : Res A * World) (p : A → World → bool) :
  ran_and r p = true → ∃ a w, r = (Ok a, w) ∧ p a w = true.
Proof. destruct r as [[a|e] w]; simpl; [eauto|discriminate]. Qed.

(** ** The wire form of an event *)

Lemma dom_set_if_present {A} k (f : A → JValue) v (m : gmap string JValue) :
  dom (Event.set_if_present k f v m) ⊆ {[k]} ∪ dom m.
Proof.
  destruct v as [x|]; simpl; [rewrite dom_insert_L|];
    apply elem_of_subseteq; intros y Hy; set_unfold; tauto.
Qed.

Lemma to_dict_dom (e : Event.t) :
  dom (Event.to_dict e)
  ⊆ list_to_set (Event.required_keys ++ Event.optional_keys)%list.
Proof.
  unfold Event.to_dict; cbv zeta.
  repeat (etrans; [apply dom_set_if_present|]; apply union_least;
          [apply elem_of_subseteq; intros y Hy; apply elem_of_list_to_set;
           apply elem_of_singleton in Hy; subst y; simpl;
           repeat (first [apply list_elem_of_here | apply list_elem_of_further])
          |]).
  rewrite !dom_insert_L, dom_empty_L.
  apply elem_of_subseteq; intros y Hy; apply elem_of_list_to_set.
  set_unfold. simpl. tauto.
Qed.

Lemma lookup_set_if_present_ne {A} k k' (f : A → JValue) v
    (m : gmap string JValue) :
  k ≠ k' → Event.set_if_present k f v m !! k' = m !! k'.
Proof. intros Hne. destruct v; simpl; [by rewrite lookup_insert_ne|done]. Qed.

Lemma lookup_set_if_present_eq {A} k (f : A → JValue) v
    (m : gmap string JValue) :
  m !! k = None → Event.set_if_present k f v m !! k = f <$> v.
Proof. intros Hm. destruct v; simpl; [by rewrite lookup_insert_eq|done]. Qed.

(** Reads one key of a chain of [insert] and [set_if_present] whose keys
    are literals. *)
Ltac to_dict_lookup :=
  repeat first
    [ rewrite lookup_set_if_present_ne by discriminate
    | rewrite lookup_insert_ne by discriminate
    | rewrite lookup_insert_eq
    | rewrite lookup_set_if_present_eq
    | rewrite lookup_empty
    | reflexivity ].

Lemma to_dict_event_type (e : Event.t) :
  Event.to_dict e !! "event_type"
  = Some (JStr (EventType.value (Event.event_type e))).
Proof. unfold Event.to_dict; cbv zeta. to_dict_lookup. Qed.

Lemma to_dict_run_id (e : Event.t) :
  Event.to_dict e !! "run_id" = Some (JStr (Event.run_id e)).
Proof. unfold Event.to_dict; cbv zeta. to_dict_lookup. Qed.

Lemma to_dict_attempt (e : Event.t) :
  Event.to_dict e !! "attempt" = Some (JInt (Event.attempt e)).
Proof. unfold Event.to_dict; cbv zeta. to_dict_lookup. Qed.

Lemma to_dict_step_id (e : Event.t) :
  Event.to_dict e !! "step_id" = JStr <$> Event.step_id e.
Proof. unfold Event.to_dict; cbv zeta. to_dict_lookup. Qed.

Lemma to_dict_error_class (e : Event.t) :
  Event.to_dict e !! "error_class"
  = (λ c, JStr (ErrorClass.value c)) <$> Event.error_class e.
Proof. unfold Event.to_dict; cbv zeta. to_dict_lookup. Qed.

Lemma to_dict_reason (e : Event.t) :
  Event.to_dict e !! "reason" = JStr <$> Event.reason e.
Proof. unfold Event.to_dict; cbv zeta. to_dict_lookup. Qed.

Lemma to_dict_previous_state (e : Event.t) :
  Event.to_dict e !! "previous_state" = JStr <$> Event.previous_state e.
Proof. unfold Event.to_dict; cbv zeta. to_dict_lookup. Qed.

Lemma to_dict_new_state (e : Event.t) :
  Event.to_dict e !! "new_state" = JStr <$> Event.new_state e.
Proof. unfold Event.to_dict; cbv zeta. to_dict_lookup. Qed.

(** Reads a key of the wire dict of an event given by its builder. *)
Ltac wire :=
  rewrite ?to_dict_event_type, ?to_dict_run_id, ?to_dict_attempt,
    ?to_dict_step_id, ?to_dict_error_class, ?to_dict_reason,
    ?to_dict_previous_state, ?to_dict_new_state;
  reflexivity.

(** C8.  [Event.to_dict]: the six required keys are always present and
    carry the fields of the record, the enumerated ones ([event_type],
    [actor]) by their string value; each of the nine optional keys is
    present exactly when the field of the record is not [None], and then
    carries its value, [error_class] by its string value; the dict has no
    other key. *)
Theorem to_dict_wire_form (e : Event.t) :
  (Event.to_dict e !! "event_id" = Some (JStr (Event.event_id e))
   ∧ Event.to_dict e !! "event_type"
     = Some (JStr (EventType.value (Event.event_type e)))
   ∧ Event.to_dict e !! "run_id" = Some (JStr (Event.run_id e))
   ∧ Event.to_dict e !! "timestamp_utc" = Some (JStr (Event.timestamp_utc e))
   ∧ Event.to_dict e !! "actor" = Some (JStr (Actor.value (Event.actor e)))
   ∧ Event.to_dict e !! "attempt" = Some (JInt (Event.attempt e)))
  ∧ (Event.to_dict e !! "step_id" = JStr <$> Event.step_id e
     ∧ Event.to_dict e !! "error_class"
       = (λ c, JStr (ErrorClass.value c)) <$> Event.error_class e
     ∧ Event.to_dict e !! "reason" = JStr <$> Event.reason e
     ∧ Event.to_dict e !! "inputs_hash" = JStr <$> Event.inputs_hash e
     ∧ Event.to_dict e !! "outputs_hash" = JStr <$> Event.outputs_hash e
     ∧ Event.to_dict e !! "artifact_path" = JStr <$> Event.artifact_path e
     ∧ Event.to_dict e !! "previous_state" = JStr <$> Event.previous_state e
     ∧ Event.to_dict e !! "new_state" = JStr <$> Event.new_state e
     ∧ Event.to_dict e !! "override_reason"
       = JStr <$> Event.override_reason e)
  ∧ (∀ k, is_Some (Event.to_dict e !! k)
          → k ∈ (Event.required_keys ++ Event.optional_keys)%list).
Proof.
  split; [|split].
  - unfold Event.to_dict; cbv zeta.
    repeat split; to_dict_lookup.
  - unfold Event.to_dict; cbv zeta.
    repeat split; to_dict_lookup.
  - intros k Hk. apply elem_of_dom in Hk. apply to_dict_dom in Hk.
    by apply elem_of_list_to_set in Hk.
Qed.

(** ** DAG gating *)

Lemma init_steps_lookup (l : list StepDefinition.t)
    (m : gmap string StepDefinition.t) (k : string) :
  is_Some (foldl (λ m step, <[StepDefinition.step_id step := step]> m) m l
           !! k)
  ↔ is_Some (m !! k) ∨ k ∈ StepDefinition.step_id <$> l.
Proof.
  revert m. induction l as [|s l IH]; intros m; simpl.
  - rewrite elem_of_nil. tauto.
  - rewrite IH, elem_of_cons, lookup_insert_is_Some.
    destruct (decide (StepDefinition.step_id s = k)); intuition congruence.
Qed.

Lemma get_step_declared (steps : list StepDefinition.t) (step_id : string) :
  is_Some (PipelineDAG.get_step (PipelineDAG.init steps) step_id)
  ↔ step_id ∈ StepDefinition.step_id <$> steps.
Proof.
  unfold PipelineDAG.get_step, PipelineDAG.init; simpl.
  rewrite init_steps_lookup, lookup_empty, is_Some_alt. tauto.
Qed.

(** C5.  [can_execute_step] on the DAG of any ordered list of step
    definitions: an undeclared id is rejected as unknown; otherwise an
    upstream step among the failed hard gates rejects with the blocked
    reason; otherwise an upstream step missing from the completed set
    rejects with the missing-dependencies reason; otherwise the step is
    permitted with no reason. *)
Theorem can_execute_step_cases `{Environment}
    (steps : list StepDefinition.t) (step_id : string)
    (completed failed : gset string) :
  let dag := PipelineDAG.init steps in
  let upstream := PipelineDAG.get_upstream_steps dag step_id in
  let declared := step_id ∈ StepDefinition.step_id <$> steps in
  let blocked := ∃ u, u ∈ upstream ∧ u ∈ failed in
  let missing := ∃ u, u ∈ upstream ∧ u ∉ completed in
  (¬ declared →
   PipelineDAG.can_execute_step dag step_id completed failed
   = (false, Some ("Unknown step: " ++ step_id)))
  ∧ (declared → blocked →
     PipelineDAG.can_execute_step dag step_id completed failed
     = (false, Some ("Blocked by failed hard gate(s): "
                       ++ repr_set (list_to_set upstream ∩ failed))))
  ∧ (declared → ¬ blocked → missing →
     PipelineDAG.can_execute_step dag step_id completed failed
     = (false, Some ("Missing upstream dependencies: "
                       ++ repr_set (list_to_set upstream ∖ completed))))
  ∧ (declared → ¬ blocked → ¬ missing →
     PipelineDAG.can_execute_step dag step_id completed failed
     = (true, None)).
Proof.
  intros dag upstream declared blocked missing.
  assert (Hb : blocked ↔ list_to_set upstream ∩ failed ≠ (∅ : gset string)).
  { unfold blocked. split.
    - intros (u & Hu & Hf) He.
      assert (u ∈ (∅ : gset string)) as Hin
        by (rewrite <- He; apply elem_of_intersection; split;
            [by apply elem_of_list_to_set|done]).
      by apply not_elem_of_empty in Hin.
    - intros Hne. apply set_choose_L in Hne as [u Hu].
      apply elem_of_intersection in Hu as [Hu Hf].
      apply elem_of_list_to_set in Hu. eauto. }
  assert (Hm : missing ↔ list_to_set upstream ∖ completed ≠ (∅ : gset string)).
  { unfold missing. split.
    - intros (u & Hu & Hc) He.
      assert (u ∈ (∅ : gset string)) as Hin
        by (rewrite <- He; apply elem_of_difference; split;
            [by apply elem_of_list_to_set|done]).
      by apply not_elem_of_empty in Hin.
    - intros Hne. apply set_choose_L in Hne as [u Hu].
      apply elem_of_difference in Hu as [Hu Hc].
      apply elem_of_list_to_set in Hu. eauto. }
  unfold PipelineDAG.can_execute_step. fold dag. fold upstream.
  pose proof (get_step_declared steps step_id) as Hd. fold dag in Hd.
  fold declared in Hd.
  destruct (PipelineDAG.get_step dag step_id) as [step|].
  - assert declared as Hdecl by (apply Hd; eauto).
    split; [tauto|].
    destruct (decide (list_to_set upstream ∩ failed = (∅ : gset string)))
      as [He|He].
    + rewrite (bool_decide_eq_true_2 _ He); simpl.
      destruct (decide (list_to_set upstream ∖ completed = (∅ : gset string)))
        as [He'|He'].
      * rewrite (bool_decide_eq_true_2 _ He'); simpl. tauto.
      * rewrite (bool_decide_eq_false_2 _ He'); simpl. tauto.
    + rewrite (bool_decide_eq_false_2 _ He); simpl. tauto.
  - assert (¬ declared) as Hdecl
      by (intros Hx; apply Hd in Hx; by destruct Hx).
    tauto.
Qed.

Lemma can_execute_step_cases_witness :
  let dag := PipelineDAG.init PIPELINE_STEPS in
  @PipelineDAG.can_execute_step sample_env dag "no_such_step" ∅ ∅
  = (false, Some "Unknown step: no_such_step")
  ∧ @PipelineDAG.can_execute_step sample_env dag "stage_data_layout"
      {["preflight_contract_check"]} {["phase_benchmark"]}
    = (false, Some "Blocked by failed hard gate(s): {'phase_benchmark'}")
  ∧ @PipelineDAG.can_execute_step sample_env dag "phase_benchmark" ∅ ∅
    = (false,
       Some "Missing upstream dependencies: {'preflight_contract_check'}")
  ∧ @PipelineDAG.can_execute_step sample_env dag "preflight_contract_check"
      ∅ ∅
    = (true, None).
Proof.
  intros dag.
  pose proof (@can_execute_step_cases sample_env PIPELINE_STEPS) as T.
  split; [|split; [|split]].
  - apply (proj1 (T "no_such_step" ∅ ∅)).
    intros Hd. apply (bool_decide_pack _) in Hd. by vm_compute in Hd.
  - etrans; [apply (proj1 (proj2 (T "stage_data_layout"
                                     {["preflight_contract_check"]}
                                     {["phase_benchmark"]})))
            |by vm_compute].
    + apply (bool_decide_unpack _). by vm_compute.
    + exists "phase_benchmark". split.
      * apply (bool_decide_unpack _). by vm_compute.
      * by apply elem_of_singleton.
  - etrans; [apply (proj1 (proj2 (proj2 (T "phase_benchmark" ∅ ∅))))
            |by vm_compute].
    + apply (bool_decide_unpack _). by vm_compute.
    + intros (u & _ & Hu). by apply not_elem_of_empty in Hu.
    + exists "preflight_contract_check". split.
      * apply (bool_decide_unpack _). by vm_compute.
      * apply not_elem_of_empty.
  - apply (proj2 (proj2 (proj2 (T "preflight_contract_check" ∅ ∅)))).
    + apply (bool_decide_unpack _). by vm_compute.
    + intros (u & _ & Hu). by apply not_elem_of_empty in Hu.
    + intros (u & Hu & _). vm_compute in Hu. by apply elem_of_nil in Hu.
Defined.

(** ** The resume guard *)

(** C10.  [ResumeGuard.can_resume] returns through one of its explicit
    cases for every run state (terminal, FAILED with or without failed hard
    gates, BLOCKED, in progress); the closing "Unknown run state" result is
    never returned. *)
Theorem can_resume_exhaustive `{Environment} (ctx : RunContext.t) :
  let s := RunContext.run_state ctx in
  let failed := RunContext.failed_hard_gates ctx in
  ResumeGuard.can_resume ctx
  ≠ (false, Some ("Unknown run state: " ++ RunState.value s))
  ∧ ((s ∈ ResumeGuard.TERMINAL_STATES
      ∧ ResumeGuard.can_resume ctx
        = (false, Some ("Run in terminal state: " ++ RunState.value s)))
     ∨ (s = RunState.FAILED ∧ failed ≠ ∅
        ∧ ResumeGuard.can_resume ctx
          = (false, Some ("Hard gate failures block resume: "
                            ++ repr_set failed)))
     ∨ (s = RunState.FAILED ∧ failed = ∅
        ∧ ResumeGuard.can_resume ctx = (true, None))
     ∨ (s = RunState.BLOCKED ∧ ResumeGuard.can_resume ctx = (true, None))
     ∨ (s ∈ [RunState.CREATED; RunState.PREFLIGHT_VALIDATED;
             RunState.EXECUTING]
        ∧ ResumeGuard.can_resume ctx = (true, None))).
Proof.
  intros s failed. unfold ResumeGuard.can_resume. fold s. fold failed.
  destruct s eqn:Es;
    repeat match goal with
           | |- context [bool_decide ?P] =>
             lazymatch P with
             | failed = ∅ => fail
             | _ => let b := eval vm_compute in (bool_decide P) in
                    change (bool_decide P) with b
             end
           end; cbn [negb].
  all: try (destruct (decide (failed = ∅)) as [He|He];
            [rewrite (bool_decide_eq_true_2 _ He)
            |rewrite (bool_decide_eq_false_2 _ He)]; cbn [negb]).
  all: split; [discriminate|].
  - do 4 right. split; [|done]. apply (bool_decide_unpack _). by vm_compute.
  - do 4 right. split; [|done]. apply (bool_decide_unpack _). by vm_compute.
  - do 4 right. split; [|done]. apply (bool_decide_unpack _). by vm_compute.
  - do 3 right. left. done.
  - do 2 right. left. done.
  - right. left. done.
  - left. split; [|done]. apply (bool_decide_unpack _). by vm_compute.
  - left. split; [|done]. apply (bool_decide_unpack _). by vm_compute.
Qed.

(** Whether the guard accepts, as a function of the run state and of the
    failed hard gates. *)
Lemma can_resume_accepts `{Environment} (ctx : RunContext.t) :
  fst (ResumeGuard.can_resume ctx)
  = match RunContext.run_state ctx with
    | RunState.SUCCEEDED | RunState.ROLLED_BACK => false
    | RunState.FAILED => bool_decide (RunContext.failed_hard_gates ctx = ∅)
    | _ => true
    end.
Proof.
  unfold ResumeGuard.can_resume.
  destruct (RunContext.run_state ctx);
    repeat match goal with
           | |- context [bool_decide ?P] =>
             lazymatch P with
             | _ = ∅ => fail
             | _ => let b := eval vm_compute in (bool_decide P) in
                    change (bool_decide P) with b
             end
           end; try reflexivity.
  by destruct (bool_decide (RunContext.failed_hard_gates ctx = ∅)).
Qed.

Lemma validate_resume_accepts `{Environment} (ctx : RunContext.t) :
  fst (ResumeGuard.can_resume ctx) = true →
  ResumeGuard.validate_resume ctx = Ok tt.
Proof.
  unfold ResumeGuard.validate_resume.
  destruct (ResumeGuard.can_resume ctx) as [b r]; simpl. by intros ->.
Qed.

Lemma validate_resume_rejects `{Environment} (ctx : RunContext.t) :
  fst (ResumeGuard.can_resume ctx) = false →
  ∃ msg, ResumeGuard.validate_resume ctx = Raise (ResumeError msg).
Proof.
  unfold ResumeGuard.validate_resume.
  destruct (ResumeGuard.can_resume ctx) as [b r]; simpl. intros ->. eauto.
Qed.

(** C3, as the code has it.  On a log that reconstructs to [ctx],
    [resume_run] raises [ResumeError] when the run state is SUCCEEDED or
    ROLLED_BACK, and when it is FAILED with a non-empty set of failed hard
    gates; it returns [ctx] when the state is FAILED with no failed hard
    gate, and when the state is CREATED, PREFLIGHT_VALIDATED, EXECUTING or
    BLOCKED, whatever the set of failed hard gates holds. *)
Theorem resume_run_guard `{Environment} (run_dir : string)
    (events : list (gmap string JValue)) (ctx : RunContext.t) :
  RunReconstructor.reconstruct events = Ok ctx →
  let s := RunContext.run_state ctx in
  let failed := RunContext.failed_hard_gates ctx in
  (s ∈ [RunState.SUCCEEDED; RunState.ROLLED_BACK] →
   ∃ msg, resume_run run_dir (Some events) = Raise (ResumeError msg))
  ∧ (s = RunState.FAILED → failed ≠ ∅ →
     ∃ msg, resume_run run_dir (Some events) = Raise (ResumeError msg))
  ∧ (s = RunState.FAILED → failed = ∅ →
     resume_run run_dir (Some events) = Ok ctx)
  ∧ (s ∈ [RunState.CREATED; RunState.PREFLIGHT_VALIDATED;
          RunState.EXECUTING; RunState.BLOCKED] →
     resume_run run_dir (Some events) = Ok ctx).
Proof.
  intros Hrec s failed. unfold resume_run. rewrite Hrec.
  change (Ok ctx ≫= ?f) with (f ctx). cbv beta.
  pose proof (can_resume_accepts ctx) as Hfst. fold s failed in Hfst.
  assert (Hacc : fst (ResumeGuard.can_resume ctx) = true →
                 ResumeGuard.validate_resume ctx ≫= (λ _, Ok ctx) = Ok ctx)
    by (intros Ht; by rewrite (validate_resume_accepts ctx Ht)).
  assert (Hrej : fst (ResumeGuard.can_resume ctx) = false →
                 ∃ msg, ResumeGuard.validate_resume ctx ≫= (λ _, Ok ctx)
                        = Raise (ResumeError msg))
    by (intros Hf; destruct (validate_resume_rejects ctx Hf) as [msg ->];
        by exists msg).
  repeat split.
  - intros Hs. apply Hrej. rewrite Hfst.
    repeat (apply elem_of_cons in Hs as [->|Hs]; [done|]).
    by apply elem_of_nil in Hs.
  - intros Hs Hne. apply Hrej. rewrite Hfst, Hs.
    by apply bool_decide_eq_false_2.
  - intros Hs He. apply Hacc. rewrite Hfst, Hs.
    by apply bool_decide_eq_true_2.
  - intros Hs. apply Hacc. rewrite Hfst.
    repeat (apply elem_of_cons in Hs as [->|Hs]; [done|]).
    by apply elem_of_nil in Hs.
Qed.

Lemma resume_run_guard_witness :
  ∃ ctx,
    RunReconstructor.reconstruct interrupted_after_gate_failed = Ok ctx
    ∧ @resume_run sample_env "run_123" (Some interrupted_after_gate_failed)
      = Ok ctx.
Proof.
  destruct (ok_and_elim
              (RunReconstructor.reconstruct interrupted_after_gate_failed)
              (λ ctx, bool_decide
                        (RunContext.run_state ctx = RunState.EXECUTING)))
    as (ctx & Hrec & Hs); [vm_compute; reflexivity|].
  apply bool_decide_eq_true_1 in Hs.
  exists ctx. split; [exact Hrec|].
  apply (@resume_run_guard sample_env "run_123"
           interrupted_after_gate_failed ctx Hrec).
  rewrite Hs. apply (bool_decide_unpack _). vm_compute. exact I.
Defined.

(** C3 fails as stated: a run stopped between [gate.failed] and the run's
    transition to FAILED reconstructs to EXECUTING with a failed hard gate,
    and [resume_run] returns its context. *)
Lemma resume_run_accepts_failed_gate :
  ∃ ctx,
    @resume_run sample_env "run_123" (Some interrupted_after_gate_failed)
    = Ok ctx
    ∧ RunContext.run_state ctx = RunState.EXECUTING
    ∧ RunContext.failed_hard_gates ctx = {["phase_benchmark"]}
    ∧ RunContext.failed_hard_gates ctx ≠ ∅.
Proof.
  destruct (ok_and_elim
              (@resume_run sample_env "run_123"
                 (Some interrupted_after_gate_failed))
              (λ ctx, bool_decide
                        (RunContext.run_state ctx = RunState.EXECUTING
                         ∧ RunContext.failed_hard_gates ctx
                           = {["phase_benchmark"]}
                         ∧ RunContext.failed_hard_gates ctx ≠ ∅)))
    as (ctx & Hrun & Hp); [vm_compute; reflexivity|].
  apply bool_decide_eq_true_1 in Hp. eauto.
Qed.

(** ** One attempt of the step executor *)

Lemma M_bind_eq {A B} (f : A → M B) (m : M A) (w : World) :
  (m ≫= f) w = match m w with
               | (Ok a, w') => f a w'
               | (Raise e, w') => (Raise e, w')
               end.
Proof. reflexivity. Qed.

Section one_attempt.
Context `{Environment}.
Variable step_functions : gmap string StepFunction.
Variable step : StepDefinition.t.
Let step_id := StepDefinition.step_id step.

Variables (w : World) (fuel : nat) (a : Z).
Hypothesis Hattempt : RunContext.step_attempts (ctx w) !! step_id = Some a.
Let run_id := RunContext.run_id (ctx w).

(** No callable is registered: one [step.failed], the step is FAILED. *)
Lemma execute_step_rec_unregistered :
  step_functions !! step_id = None →
  StepExecutor.execute_step_rec step_functions (S fuel) step w
  = (Ok false,
     let e := step_failed (clock w) run_id step_id ErrorClass.UNKNOWN
                ("No implementation for step: " ++ step_id) a in
     mkWorld (RunContext.with_step_state step_id StepState.FAILED (ctx w))
       (log w ++ [Event.to_dict e]) (S (clock w))
       (journal w
        ++ [Appended e; SetStepState step_id StepState.FAILED (Some a)])).
Proof.
  intros Hfn. cbn [StepExecutor.execute_step_rec]. fold step_id.
  rewrite Hfn. unfold StepExecutor._emit_and_fail. fold step_id.
  destruct w as [c l k j]; simpl in *.
  unfold mbind, M_bind, gets, step_attempt_of; simpl. rewrite Hattempt.
  simpl. unfold set_step_state, mutate, mret, M_ret; simpl.
  rewrite Hattempt. by rewrite <- !app_assoc.
Qed.

Variable step_func : StepFunction.
Hypothesis Hfn : step_functions !! step_id = Some step_func.

(** The context the callable is given, the step already RUNNING, and the
    context [called] it leaves. *)
Let running := RunContext.with_step_state step_id StepState.RUNNING (ctx w).
Let started := step_started (clock w) run_id step_id a.
Variable called : RunContext.t.

Ltac one_attempt :=
  cbn [StepExecutor.execute_step_rec]; fold step_id; rewrite Hfn;
  destruct w as [c l k j]; simpl in *;
  unfold mbind, M_bind, gets, step_attempt_of, call, set_step_state_at, lift;
  simpl; rewrite !Hattempt; simpl.

(** The callable raises: the exception passes through, after
    [step.started]. *)
Lemma execute_step_rec_raised (msg : string) :
  step_func (S (clock w)) running step_id = (Raised msg, called) →
  StepExecutor.execute_step_rec step_functions (S fuel) step w
  = (Raise (StepRaised msg),
     mkWorld called (log w ++ [Event.to_dict started]) (S (clock w))
       (journal w ++ [Appended started;
                      SetStepState step_id StepState.RUNNING (Some a)])).
Proof.
  subst running started run_id. intros Hcall. one_attempt.
  rewrite Hcall. by rewrite <- !app_assoc.
Qed.

(** The callable succeeds. *)
Lemma execute_step_rec_succeeded ec msg :
  step_func (S (clock w)) running step_id = (Returned true ec msg, called) →
  StepExecutor.execute_step_rec step_functions (S fuel) step w
  = (Ok true,
     let e := step_succeeded (S (clock w)) (RunContext.run_id called)
                step_id a None in
     mkWorld
       (RunContext.with_completed step_id
          (RunContext.with_step_state step_id StepState.SUCCEEDED called))
       (log w ++ [Event.to_dict started; Event.to_dict e])
       (S (S (clock w)))
       (journal w ++ [Appended started;
                      SetStepState step_id StepState.RUNNING (Some a);
                      Appended e;
                      SetStepState step_id StepState.SUCCEEDED (Some a);
                      AddCompleted step_id])).
Proof.
  subst running started run_id. intros Hcall. one_attempt.
  rewrite Hcall. simpl. unfold mret, M_ret.
  by rewrite <- !app_assoc.
Qed.

Section failed.
Variables (ec : option ErrorClass.t) (msg : option string).
Hypothesis Hcall :
  step_func (S (clock w)) running step_id = (Returned false ec msg, called).
Let error_class := default ErrorClass.UNKNOWN ec.
Let reason := message_or msg "Step failed".
Let failed :=
  step_failed (S (clock w)) (RunContext.run_id called) step_id error_class
    reason a.

(** A hard gate fails: [step.failed], [gate.failed], and no retry
    whatever the error class is. *)
Lemma execute_step_rec_gate_failed :
  StepDefinition.is_hard_gate step = true →
  StepExecutor.execute_step_rec step_functions (S fuel) step w
  = (Ok false,
     let g := gate_failed (S (S (clock w))) (RunContext.run_id called)
                step_id error_class reason in
     mkWorld
       (RunContext.with_step_state step_id StepState.FAILED
          (RunContext.with_failed_hard_gate step_id called))
       (log w ++ [Event.to_dict started; Event.to_dict failed;
                  Event.to_dict g])
       (S (S (S (clock w))))
       (journal w ++ [Appended started;
                      SetStepState step_id StepState.RUNNING (Some a);
                      Appended failed; Appended g;
                      AddFailedHardGate step_id;
                      SetStepState step_id StepState.FAILED (Some a)])).
Proof.
  subst running started run_id failed error_class reason.
  intros Hgate. one_attempt. rewrite Hcall. simpl. rewrite Hgate.
  simpl. unfold mret, M_ret.
  by rewrite <- !app_assoc.
Qed.

(** Another step fails and the policy does not allow a retry. *)
Lemma execute_step_rec_failed :
  StepDefinition.is_hard_gate step = false →
  RetryPolicy.allows_retry step error_class a = false →
  StepExecutor.execute_step_rec step_functions (S fuel) step w
  = (Ok false,
     mkWorld (RunContext.with_step_state step_id StepState.FAILED called)
       (log w ++ [Event.to_dict started; Event.to_dict failed])
       (S (S (clock w)))
       (journal w ++ [Appended started;
                      SetStepState step_id StepState.RUNNING (Some a);
                      Appended failed;
                      SetStepState step_id StepState.FAILED (Some a)])).
Proof.
  subst running started run_id failed error_class reason.
  intros Hgate Hretry. one_attempt. rewrite Hcall. simpl. rewrite Hgate.
  rewrite Hretry. simpl. unfold mret, M_ret.
  by rewrite <- !app_assoc.
Qed.

(** Another step fails, the policy allows a retry, but the callable has
    taken the counter of the step away: [KeyError] at the increment. *)
Lemma execute_step_rec_lost_counter :
  StepDefinition.is_hard_gate step = false →
  RetryPolicy.allows_retry step error_class a = true →
  RunContext.step_attempts called !! step_id = None →
  StepExecutor.execute_step_rec step_functions (S fuel) step w
  = (Raise (KeyError step_id),
     mkWorld called
       (log w ++ [Event.to_dict started; Event.to_dict failed])
       (S (S (clock w)))
       (journal w ++ [Appended started;
                      SetStepState step_id StepState.RUNNING (Some a);
                      Appended failed])).
Proof.
  subst running started run_id failed error_class reason.
  intros Hgate Hretry Hlost. one_attempt. rewrite Hcall. simpl.
  rewrite Hgate. rewrite Hretry. simpl. rewrite Hlost.
  by rewrite <- !app_assoc.
Qed.

Section retry.
(** The counter the callable leaves; the executor raises that one. *)
Variable a' : Z.
Hypothesis Hcounter : RunContext.step_attempts called !! step_id = Some a'.
Let retried :=
  step_retried (S (S (clock w))) (RunContext.run_id called) step_id (a' + 1)
    ("Retrying after " ++ ErrorClass.value error_class).
Let again :=
  mkWorld (RunContext.with_step_attempt step_id (a' + 1) called)
    (log w ++ [Event.to_dict started; Event.to_dict failed;
               Event.to_dict retried])
    (S (S (S (clock w))))
    (journal w ++ [Appended started;
                   SetStepState step_id StepState.RUNNING (Some a);
                   Appended failed;
                   SetStepAttempt step_id (a' + 1);
                   Appended retried]).

(** Another step fails and the policy allows a retry: the counter is
    raised, [step.retried] is written, and the step runs again. *)
Lemma execute_step_rec_retried :
  StepDefinition.is_hard_gate step = false →
  RetryPolicy.allows_retry step error_class a = true →
  a < 1024 →
  StepExecutor.execute_step_rec step_functions (S fuel) step w
  = StepExecutor.execute_step_rec step_functions fuel step again.
Proof.
  subst again retried running started run_id failed error_class reason.
  intros Hgate Hretry Hsmall. one_attempt. rewrite Hcall. simpl.
  rewrite Hgate. rewrite Hretry. simpl. rewrite Hcounter. simpl.
  rewrite lookup_insert_eq. simpl.
  unfold RetryPolicy.backoff_seconds.
  destruct (Z.leb_spec 1024 a); [lia|].
  by rewrite <- !app_assoc.
Qed.

(** The same, at an attempt for which the backoff cannot be computed: the
    exception comes after [step.retried]. *)
Lemma execute_step_rec_overflow :
  StepDefinition.is_hard_gate step = false →
  RetryPolicy.allows_retry step error_class a = true →
  1024 ≤ a →
  StepExecutor.execute_step_rec step_functions (S fuel) step w
  = (Raise (OverflowError "int too large to convert to float"), again).
Proof.
  subst again retried running started run_id failed error_class reason.
  intros Hgate Hretry Hlarge. one_attempt. rewrite Hcall. simpl.
  rewrite Hgate. rewrite Hretry. simpl. rewrite Hcounter. simpl.
  rewrite lookup_insert_eq. simpl.
  unfold RetryPolicy.backoff_seconds.
  destruct (Z.leb_spec 1024 a); [|lia].
  by rewrite <- !app_assoc.
Qed.
End retry.
End failed.
End one_attempt.

(** The step has no attempt counter in the context: [KeyError], before
    anything is written. *)
Lemma execute_step_rec_no_counter `{Environment}
    (step_functions : gmap string StepFunction) (step : StepDefinition.t)
    (w : World) (fuel : nat) :
  RunContext.step_attempts (ctx w) !! StepDefinition.step_id step = None →
  StepExecutor.execute_step_rec step_functions (S fuel) step w
  = (Raise (KeyError (StepDefinition.step_id step)), w).
Proof.
  intros Hattempt. cbn [StepExecutor.execute_step_rec].
  destruct (step_functions !! StepDefinition.step_id step);
    unfold StepExecutor._emit_and_fail;
    unfold mbind, M_bind, gets, step_attempt_of; simpl;
    by rewrite Hattempt.
Qed.

(** Case analysis of one attempt: rewrites [execute_step_rec (S fuel)] by
    the lemma of the case at hand. *)
Ltac attempt_cases fns step w fuel :=
  let a := fresh "a" in
  let f := fresh "f" in
  let ec := fresh "ec" in
  let msg := fresh "msg" in
  let called := fresh "called" in
  let a' := fresh "a'" in
  let Hattempt := fresh "Hattempt" in
  let Hfn := fresh "Hfn" in
  let Hcall := fresh "Hcall" in
  let Hgate := fresh "Hgate" in
  let Hretry := fresh "Hretry" in
  let Hcounter := fresh "Hcounter" in
  let Hsize := fresh "Hsize" in
  destruct (RunContext.step_attempts (ctx w) !! StepDefinition.step_id step)
    as [a|] eqn:Hattempt;
  [ destruct (fns !! StepDefinition.step_id step) as [f|] eqn:Hfn;
    [ destruct (f (S (clock w))
                  (RunContext.with_step_state (StepDefinition.step_id step)
                     StepState.RUNNING (ctx w))
                  (StepDefinition.step_id step))
        as [[[] ec msg|msg] called] eqn:Hcall;
      [ rewrite (execute_step_rec_succeeded fns step w fuel a Hattempt f Hfn
                   called ec msg Hcall)
      | destruct (StepDefinition.is_hard_gate step) eqn:Hgate;
        [ rewrite (execute_step_rec_gate_failed fns step w fuel a Hattempt f
                     Hfn called ec msg Hcall Hgate)
        | destruct (RetryPolicy.allows_retry step
                      (default ErrorClass.UNKNOWN ec) a) eqn:Hretry;
          [ destruct (RunContext.step_attempts called
                      !! StepDefinition.step_id step) as [a'|] eqn:Hcounter;
            [ destruct (Z.lt_ge_cases a 1024) as [Hsize|Hsize];
              [ rewrite (execute_step_rec_retried fns step w fuel a Hattempt
                           f Hfn called ec msg Hcall a' Hcounter Hgate Hretry
                           Hsize)
              | rewrite (execute_step_rec_overflow fns step w fuel a Hattempt
                           f Hfn called ec msg Hcall a' Hcounter Hgate Hretry
                           Hsize) ]
            | rewrite (execute_step_rec_lost_counter fns step w fuel a
                         Hattempt f Hfn called ec msg Hcall Hgate Hretry
                         Hcounter) ]
          | rewrite (execute_step_rec_failed fns step w fuel a Hattempt f
                       Hfn called ec msg Hcall Hgate Hretry) ] ]
      | rewrite (execute_step_rec_raised fns step w fuel a Hattempt f Hfn
                   called msg Hcall) ]
    | rewrite (execute_step_rec_unregistered fns step w fuel a Hattempt Hfn) ]
  | rewrite (execute_step_rec_no_counter fns step w fuel Hattempt) ].

(** ** What the step executor leaves alone *)

Lemma steady_refl (w : World) : steady w w.
Proof. by repeat split. Qed.

Lemma steady_trans (w1 w2 w3 : World) :
  steady w1 w2 → steady w2 w3 → steady w1 w3.
Proof.
  intros (Hs & Hr & Hd & Ha & Hl) (Hs' & Hr' & Hd' & Ha' & Hl').
  repeat split.
  - congruence.
  - congruence.
  - by etrans.
  - by etrans.
  - by etrans.
Qed.

Ltac dom_grows :=
  rewrite ?dom_insert_L; apply elem_of_subseteq; intros ? ?;
  rewrite ?elem_of_union; tauto.

Ltac steady_step :=
  unfold steady; split_and!; simpl;
  first [ done | dom_grows | by apply prefix_app_r ].

(** A callable that is passive hands back the context it was given. *)
Ltac passive_call Hpassive Hfn Hcall :=
  match type of Hcall with
  | ?f ?n ?c ?id = (_, ?called) =>
    let Hp := fresh "Hp" in
    first [ pose proof (Hpassive f Hfn n c id) as Hp
          | pose proof (Hpassive f eq_refl n c id) as Hp ];
    rewrite Hcall in Hp; cbn [snd] in Hp; subst called
  end.

Lemma execute_step_rec_steady `{Environment}
    (step_functions : gmap string StepFunction) (step : StepDefinition.t)
    (fuel : nat) (w : World) :
  (∀ f, step_functions !! StepDefinition.step_id step = Some f → passive f) →
  steady w (snd (StepExecutor.execute_step_rec step_functions fuel step w)).
Proof.
  intros Hpassive.
  revert w. induction fuel as [|fuel IH]; intros w; [apply steady_refl|].
  attempt_cases step_functions step w fuel;
    try passive_call Hpassive Hfn Hcall;
    try (eapply steady_trans; [|apply IH]);
    try apply steady_refl;
    steady_step.
Qed.

Lemma execute_step_steady `{Environment}
    (step_functions : gmap string StepFunction) (step : StepDefinition.t)
    (w : World) :
  (∀ f, step_functions !! StepDefinition.step_id step = Some f → passive f) →
  steady w (snd (StepExecutor.execute_step step_functions step w)).
Proof. apply execute_step_rec_steady. Qed.

(** ** The depth of the recursion of [execute_step] *)

Lemma allows_retry_below_max (step : StepDefinition.t)
    (error_class : ErrorClass.t) (a : Z) :
  RetryPolicy.allows_retry step error_class a = true →
  a < StepDefinition.max_retries step.
Proof.
  unfold RetryPolicy.allows_retry, StepDefinition.allows_retry.
  destruct (_ && _); [discriminate|].
  destruct (a >=? StepDefinition.max_retries step) eqn:Hge; [discriminate|].
  intros _. lia.
Qed.

(** With a callable that leaves the context alone, every retry raises the
    counter, which stays below [max_retries]: a depth of
    [max_retries - attempt] nested calls is enough. *)
Lemma execute_step_rec_enough_fuel `{Environment}
    (step_functions : gmap string StepFunction) (step : StepDefinition.t)
    (fuel : nat) (w : World) (a : Z) :
  (∀ f, step_functions !! StepDefinition.step_id step = Some f → passive f) →
  RunContext.step_attempts (ctx w) !! StepDefinition.step_id step = Some a →
  (Z.to_nat (StepDefinition.max_retries step - a) < fuel)%nat →
  fst (StepExecutor.execute_step_rec step_functions fuel step w)
  ≠ Raise RecursionError.
Proof.
  intros Hpassive.
  revert w a. induction fuel as [|fuel IH]; intros w a0 Ha0 Hfuel; [lia|].
  attempt_cases step_functions step w fuel; simpl; try discriminate.
  passive_call Hpassive Hfn Hcall.
  injection Ha0 as <-. simpl in Hcounter. rewrite Hattempt in Hcounter.
  injection Hcounter as <-.
  apply allows_retry_below_max in Hretry.
  apply (IH _ (a + 1)); [simpl; by rewrite lookup_insert_eq|lia].
Qed.

(** X10.  [execute_step] does not run out of stack on retries: with a
    callable that leaves the context alone, a step entered at attempt [a]
    makes at most [max_retries - a] nested calls, so when the interpreter
    has room for that many, the call does not end in [RecursionError]. *)
Theorem execute_step_total `{Environment}
    (step_functions : gmap string StepFunction) (step : StepDefinition.t)
    (w : World) (a : Z) :
  (∀ f, step_functions !! StepDefinition.step_id step = Some f → passive f) →
  RunContext.step_attempts (ctx w) !! StepDefinition.step_id step = Some a →
  (Z.to_nat (StepDefinition.max_retries step - a) ≤ recursion_limit)%nat →
  fst (StepExecutor.execute_step step_functions step w)
  ≠ Raise RecursionError.
Proof.
  intros Hpassive Ha Hdepth.
  apply (execute_step_rec_enough_fuel _ _ _ _ a); [done..|lia].
Qed.

Lemma execute_step_total_witness :
  fst (@StepExecutor.execute_step sample_env
         (PipelineExecutor.step_functions retry_exhausted) retry_step
         (@PipelineExecutor.start sample_env retry_exhausted "run_123" None
            [] 0))
  ≠ Raise RecursionError.
Proof.
  apply (@execute_step_total sample_env
           (PipelineExecutor.step_functions retry_exhausted) retry_step
           (@PipelineExecutor.start sample_env retry_exhausted "run_123" None
              [] 0) 0).
  - intros f. cbn [PipelineExecutor.step_functions retry_exhausted
                     PipelineExecutor.init StepDefinition.step_id retry_step].
    rewrite lookup_singleton_Some. intros [_ <-]. by intros n c k.
  - apply (bool_decide_unpack _). vm_compute. exact I.
  - cbn [recursion_limit sample_env StepDefinition.max_retries retry_step].
    lia.
Defined.

(** ** Write-ahead order *)

(** Proves [existsb (λ e, describes e eff) seen = true] from one of the
    first events of [seen]. *)
Ltac described_by_event :=
  unfold describes; cbn; rewrite ?bool_decide_eq_true_2 by done; reflexivity.

Ltac described :=
  apply existsb_exists;
  solve [ eexists; split; [apply in_eq|described_by_event]
        | eexists; split; [apply in_cons, in_eq|described_by_event]
        | eexists; split; [do 2 apply in_cons; apply in_eq
                          |described_by_event]
        | eexists; split; [do 3 apply in_cons; apply in_eq
                          |described_by_event] ].

(** Checks a journal given as an explicit list of effects. *)
Ltac journal_ok :=
  cbn [write_ahead write_ahead_but_attempt];
  repeat (apply andb_true_intro; split);
  first [ reflexivity | described | described_by_event ].

Lemma execute_step_rec_journal `{Environment}
    (step_functions : gmap string StepFunction) (step : StepDefinition.t)
    (fuel : nat) (w : World) (seen : list Event.t) :
  ∃ j,
    journal (snd (StepExecutor.execute_step_rec step_functions fuel step w))
    = (journal w ++ j)%list
    ∧ write_ahead_but_attempt seen j = true.
Proof.
  revert w seen. induction fuel as [|fuel IH]; intros w seen.
  { exists []. simpl. by rewrite app_nil_r. }
  attempt_cases step_functions step w fuel; cbn [snd journal].
  - eexists. split; [reflexivity|]. journal_ok.
  - eexists. split; [reflexivity|]. journal_ok.
  - match goal with
    | |- context [StepExecutor.execute_step_rec _ _ _ ?w'] =>
      destruct (IH w'
                  (step_retried (S (S (clock w))) (RunContext.run_id called)
                     (StepDefinition.step_id step) (a' + 1)
                     ("Retrying after "
                        ++ ErrorClass.value (default ErrorClass.UNKNOWN ec))
                   :: step_failed (S (clock w)) (RunContext.run_id called)
                        (StepDefinition.step_id step)
                        (default ErrorClass.UNKNOWN ec)
                        (message_or msg "Step failed") a
                   :: step_started (clock w) (RunContext.run_id (ctx w))
                        (StepDefinition.step_id step) a
                   :: seen)) as (j & Hj & Hok)
    end.
    eexists. split; [rewrite Hj; cbn [journal]; rewrite <- app_assoc;
                     reflexivity|].
    cbn [write_ahead_but_attempt app].
    repeat (apply andb_true_intro; split);
      first [exact Hok | described | described_by_event].
  - eexists. split; [reflexivity|]. journal_ok.
  - eexists. split; [reflexivity|]. journal_ok.
  - eexists. split; [reflexivity|]. journal_ok.
  - eexists. split; [reflexivity|]. journal_ok.
  - eexists. split; [reflexivity|]. journal_ok.
  - exists []. by rewrite app_nil_r.
Qed.

(** C4, as the code has it.  A run-state transition appends its
    [run.state_changed] event before it sets [run_state]; one call of
    [execute_step], retries included, appends [step.started],
    [step.succeeded], [step.failed] and [gate.failed] before it sets
    [step_states], [completed_steps] and [failed_hard_gates]; the attempt
    counter alone is raised first, and the next thing the executor does is
    append the [step.retried] event that carries the raised value. *)
Theorem writes_event_before_update `{Environment} :
  (∀ (new_state : RunState.t) (reason : option string) (w : World),
     ∃ j,
       journal (snd (PipelineExecutor._transition_run_state new_state reason
                       w))
       = (journal w ++ j)%list
       ∧ write_ahead [] j = true)
  ∧ (∀ (step_functions : gmap string StepFunction)
       (step : StepDefinition.t) (w : World),
       ∃ j,
         journal (snd (StepExecutor.execute_step step_functions step w))
         = (journal w ++ j)%list
         ∧ write_ahead_but_attempt [] j = true).
Proof.
  split.
  - intros new_state reason w.
    unfold PipelineExecutor._transition_run_state.
    unfold mbind, M_bind, gets, raise; simpl.
    destruct (RunStateMachine.can_transition _ _); simpl.
    + eexists. split; [rewrite <- app_assoc; reflexivity|]. journal_ok.
    + exists []. by rewrite app_nil_r.
  - intros step_functions step w. apply execute_step_rec_journal.
Qed.

(** C4 fails as stated on the retry path: in the run of the always-failing
    step with two retries, the counter of [step_1] is set to 1 while the log
    holds no [step.retried] yet; the event follows. *)
Lemma retry_raises_counter_before_event :
  let w0 := @PipelineExecutor.start sample_env retry_exhausted "run_123" None
              [] 0 in
  let w1 := snd (@StepExecutor.execute_step sample_env
                   (PipelineExecutor.step_functions retry_exhausted)
                   retry_step w0) in
  let j := drop (length (journal w0)) (journal w1) in
  write_ahead [] j = false
  ∧ j !! 3%nat = Some (SetStepAttempt "step_1" 1)
  ∧ j !! 4%nat
    = Some (Appended (@step_retried sample_env 3 "run_123" "step_1" 1
                        "Retrying after transient_io"))
  ∧ write_ahead [] (take 3 j) = true.
Proof.
  intros w0 w1 j.
  split; [vm_compute; reflexivity|].
  split; [vm_compute; reflexivity|].
  split; [vm_compute; reflexivity|].
  vm_compute; reflexivity.
Qed.

(** ** The pipeline executor: transitions and completion *)

Section run_state.
Context `{Environment}.
Variable w : World.
Local Abbreviation run_id := (RunContext.run_id (ctx w)).
Local Abbreviation current := (RunContext.run_state (ctx w)).

Lemma transition_run_state_ok (new_state : RunState.t)
    (reason : option string) :
  RunStateMachine.can_transition current new_state = true →
  PipelineExecutor._transition_run_state new_state reason w
  = (Ok tt,
     let e := run_state_changed (clock w) run_id current new_state reason in
     mkWorld (RunContext.with_run_state new_state (ctx w))
       (log w ++ [Event.to_dict e]) (S (clock w))
       (journal w ++ [Appended e; SetRunState new_state])).
Proof.
  intros Hcan.
  unfold PipelineExecutor._transition_run_state.
  unfold mbind, M_bind, gets; simpl. rewrite Hcan. simpl.
  unfold set_run_state, mutate; simpl. by rewrite <- app_assoc.
Qed.

(** [_fail_run] and [_complete_run] while the run is EXECUTING. *)
Lemma fail_run_executing (reason : string) :
  current = RunState.EXECUTING →
  PipelineExecutor._fail_run reason w
  = (Ok tt,
     let e := run_state_changed (clock w) run_id RunState.EXECUTING
                RunState.FAILED (Some reason) in
     let c := run_completed (S (clock w)) run_id RunState.FAILED
                (Some reason) in
     mkWorld (RunContext.with_run_state RunState.FAILED (ctx w))
       (log w ++ [Event.to_dict e; Event.to_dict c]) (S (S (clock w)))
       (journal w ++ [Appended e; SetRunState RunState.FAILED;
                      Appended c])).
Proof.
  intros Hcur. unfold PipelineExecutor._fail_run.
  rewrite M_bind_eq. unfold gets at 1. rewrite Hcur.
  rewrite M_bind_eq.
  rewrite (bool_decide_eq_true_2 (RunState.EXECUTING ≠ RunState.FAILED))
    by discriminate.
  rewrite transition_run_state_ok by (by rewrite Hcur).
  rewrite Hcur. unfold mbind, M_bind, gets, stamp, EventLog.append; simpl.
  by rewrite <- !app_assoc.
Qed.

Lemma complete_run_executing (reason : string) :
  current = RunState.EXECUTING →
  PipelineExecutor._complete_run RunState.SUCCEEDED reason w
  = (Ok tt,
     let e := run_state_changed (clock w) run_id RunState.EXECUTING
                RunState.SUCCEEDED (Some reason) in
     let c := run_completed (S (clock w)) run_id RunState.SUCCEEDED
                (Some reason) in
     mkWorld (RunContext.with_run_state RunState.SUCCEEDED (ctx w))
       (log w ++ [Event.to_dict e; Event.to_dict c]) (S (S (clock w)))
       (journal w ++ [Appended e; SetRunState RunState.SUCCEEDED;
                      Appended c])).
Proof.
  intros Hcur.
  unfold PipelineExecutor._complete_run.
  rewrite M_bind_eq. unfold gets at 1. rewrite Hcur.
  rewrite M_bind_eq.
  rewrite (bool_decide_eq_true_2 (RunState.EXECUTING ≠ RunState.SUCCEEDED))
    by discriminate.
  rewrite transition_run_state_ok by (by rewrite Hcur).
  rewrite Hcur. unfold mbind, M_bind, gets, stamp, EventLog.append; simpl.
  by rewrite <- !app_assoc.
Qed.
End run_state.

(** The two transitions that open [execute], from CREATED. *)
Lemma execute_opening `{Environment} (w : World) :
  RunContext.run_state (ctx w) = RunState.CREATED →
  (PipelineExecutor._transition_run_state RunState.PREFLIGHT_VALIDATED
     (Some "Pre-execution validation passed");;
   PipelineExecutor._transition_run_state RunState.EXECUTING None) w
  = (Ok tt,
     let run_id := RunContext.run_id (ctx w) in
     let e1 := run_state_changed (clock w) run_id RunState.CREATED
                 RunState.PREFLIGHT_VALIDATED
                 (Some "Pre-execution validation passed") in
     let e2 := run_state_changed (S (clock w)) run_id
                 RunState.PREFLIGHT_VALIDATED RunState.EXECUTING None in
     mkWorld (RunContext.with_run_state RunState.EXECUTING (ctx w))
       (log w ++ [Event.to_dict e1; Event.to_dict e2]) (S (S (clock w)))
       (journal w ++ [Appended e1; SetRunState RunState.PREFLIGHT_VALIDATED;
                      Appended e2; SetRunState RunState.EXECUTING])).
Proof.
  intros Hcur. rewrite M_bind_eq.
  rewrite transition_run_state_ok by (by rewrite Hcur).
  rewrite transition_run_state_ok by done.
  rewrite Hcur. simpl. by rewrite <- !app_assoc.
Qed.

(** ** The loop over the steps *)

(** Marking the downstream steps: only [step_states] changes, and there
    exactly the PENDING entries of the listed steps. *)
Lemma skip_pending_ok (downstream : list string) (w : World) :
  (∀ ds, ds ∈ downstream →
         is_Some (RunContext.step_states (ctx w) !! ds)) →
  ∃ w',
    PipelineExecutor.skip_pending downstream w = (Ok tt, w')
    ∧ log w' = log w ∧ clock w' = clock w
    ∧ RunContext.run_state (ctx w') = RunContext.run_state (ctx w)
    ∧ RunContext.run_id (ctx w') = RunContext.run_id (ctx w)
    ∧ RunContext.failed_hard_gates (ctx w')
      = RunContext.failed_hard_gates (ctx w)
    ∧ RunContext.completed_steps (ctx w')
      = RunContext.completed_steps (ctx w)
    ∧ RunContext.step_attempts (ctx w') = RunContext.step_attempts (ctx w)
    ∧ ∀ k, RunContext.step_states (ctx w') !! k
           = if decide (k ∈ downstream
                        ∧ RunContext.step_states (ctx w) !! k
                          = Some StepState.PENDING)
             then Some StepState.SKIPPED
             else RunContext.step_states (ctx w) !! k.
Proof.
  revert w. induction downstream as [|ds rest IH]; intros w Hkeys.
  { exists w. do 8 (split; [done|]). intros k. case_decide as Hk; [|done].
    destruct Hk as [Hk _]. by apply elem_of_nil in Hk. }
  cbn [PipelineExecutor.skip_pending]. rewrite M_bind_eq.
  unfold step_state_of at 1.
  destruct (Hkeys ds) as [s Hs]; [apply list_elem_of_here|]. rewrite Hs.
  rewrite M_bind_eq.
  destruct (decide (s = StepState.PENDING)) as [->|Hne].
  - rewrite bool_decide_eq_true_2 by done.
    unfold set_step_state, mutate at 1; cbv beta iota.
    match goal with
    | |- context [PipelineExecutor.skip_pending rest ?w1] =>
      destruct (IH w1) as (w' & -> & Hl & Hc & Hrs & Hri & Hf & Hcs & Ha & Hst)
    end.
    { intros ds' Hds'. simpl. apply lookup_insert_is_Some'. right.
      apply Hkeys. by apply list_elem_of_further. }
    exists w'. simpl in *. do 8 (split; [done|]).
    intros k. rewrite Hst. destruct (decide (k = ds)) as [->|Hk].
    + rewrite lookup_insert_eq, Hs.
      rewrite decide_False by (intros [_ ?]; discriminate).
      rewrite decide_True; [done|]. split; [apply list_elem_of_here|done].
    + rewrite lookup_insert_ne by done.
      destruct (decide (k ∈ rest ∧ _)) as [[Hin Hp]|Hn1];
        destruct (decide (k ∈ ds :: rest ∧ _)) as [[Hin' Hp']|Hn2];
        try done.
      * exfalso. apply Hn2. split; [|done]. by apply list_elem_of_further.
      * exfalso. apply Hn1. split; [|done].
        apply elem_of_cons in Hin' as [?|?]; done.
  - rewrite bool_decide_eq_false_2 by done.
    unfold mret, M_ret; cbv beta iota.
    destruct (IH w) as (w' & -> & Hl & Hc & Hrs & Hri & Hf & Hcs & Ha & Hst).
    { intros ds' Hds'. apply Hkeys. by apply list_elem_of_further. }
    exists w'. do 8 (split; [done|]).
    intros k. rewrite Hst.
    destruct (decide (k ∈ rest ∧ _)) as [[Hin Hp]|Hn1];
      destruct (decide (k ∈ ds :: rest ∧ _)) as [[Hin' Hp']|Hn2];
      try done.
    + exfalso. apply Hn2. split; [|done]. by apply list_elem_of_further.
    + exfalso. apply Hn1. split; [|done].
      apply elem_of_cons in Hin' as [->|?]; [|done]. congruence.
Qed.

Section loop.
Context `{Environment}.
Variable self : PipelineExecutor.t.
Local Abbreviation dag := (PipelineExecutor.dag self).
Local Abbreviation fns := (PipelineExecutor.step_functions self).

(** One iteration of the loop, by cases. *)
Lemma execute_steps_cons (step_id : string) (rest : list string)
    (w : World) :
  PipelineExecutor.execute_steps self (step_id :: rest) w
  = match PipelineDAG.get_step dag step_id with
    | None => PipelineExecutor.execute_steps self rest w
    | Some step =>
      if negb (fst (RunContext.can_run_step (ctx w) step_id dag)) then
        PipelineExecutor.execute_steps self rest
          (mkWorld
             (RunContext.with_step_state step_id StepState.SKIPPED (ctx w))
             (log w) (clock w)
             (journal w
                ++ [SetStepState step_id StepState.SKIPPED
                      (RunContext.step_attempts (ctx w) !! step_id)]))
      else
        match StepExecutor.execute_step fns step w with
        | (Ok true, w') => PipelineExecutor.execute_steps self rest w'
        | (Ok false, w') =>
          if StepDefinition.is_hard_gate step then gate_branch self step_id w'
          else PipelineExecutor.execute_steps self rest w'
        | (Raise e, w') => (Raise e, w')
        end
    end.
Proof.
  cbn [PipelineExecutor.execute_steps].
  destruct (PipelineDAG.get_step dag step_id) as [step|]; [|done].
  rewrite M_bind_eq. unfold gets at 1.
  destruct (RunContext.can_run_step (ctx w) step_id dag) as [can_run r].
  cbn [fst]. destruct can_run; cbn [negb]; [|done].
  rewrite M_bind_eq.
  destruct (StepExecutor.execute_step fns step w) as [[[]|e] w']; try done.
  cbn [negb]. by destruct (StepDefinition.is_hard_gate step).
Qed.

Lemma gate_branch_returns (step_id : string) (w : World) :
  fst (gate_branch self step_id w) ≠ Ok None.
Proof.
  unfold gate_branch. rewrite !M_bind_eq.
  destruct (PipelineExecutor.skip_pending _ w) as [[[]|e] w1];
    [|discriminate].
  rewrite !M_bind_eq.
  destruct (PipelineExecutor._fail_run _ w1) as [[[]|e] w2];
    [|discriminate].
  discriminate.
Qed.

(** With callables that leave the context alone, a stretch of the loop
    that falls through leaves the world steady. *)
Lemma execute_steps_steady (ids : list string) (w w1 : World) :
  (∀ id f, fns !! id = Some f → passive f) →
  PipelineExecutor.execute_steps self ids w = (Ok None, w1) → steady w w1.
Proof.
  intros Hpassive.
  revert w. induction ids as [|step_id rest IH]; intros w.
  { intros [= <-]. apply steady_refl. }
  rewrite execute_steps_cons.
  destruct (PipelineDAG.get_step dag step_id) as [step|]; [|apply IH].
  destruct (negb _).
  { intros Hrest. eapply steady_trans; [|apply IH, Hrest].
    steady_step. }
  pose proof (execute_step_steady fns step w (Hpassive _)) as Hstep.
  destruct (StepExecutor.execute_step fns step w) as [[[]|e] w'];
    simpl in Hstep; [| |discriminate].
  - intros Hrest. eapply steady_trans; [exact Hstep|apply IH, Hrest].
  - destruct (StepDefinition.is_hard_gate step).
    + intros Hret. pose proof (gate_branch_returns step_id w') as Hne.
      rewrite Hret in Hne. by destruct Hne.
    + intros Hrest. eapply steady_trans; [exact Hstep|apply IH, Hrest].
Qed.

(** The loop over a list is the loop over its first part and then, if that
    falls through, over the rest. *)
Lemma execute_steps_app (pre rest : list string) (w : World) :
  PipelineExecutor.execute_steps self (pre ++ rest) w
  = match PipelineExecutor.execute_steps self pre w with
    | (Ok None, w1) => PipelineExecutor.execute_steps self rest w1
    | r => r
    end.
Proof.
  revert w. induction pre as [|step_id pre IH]; intros w; [done|].
  rewrite <- app_comm_cons, !execute_steps_cons.
  destruct (PipelineDAG.get_step dag step_id) as [step|]; [|apply IH].
  destruct (negb _); [apply IH|].
  destruct (StepExecutor.execute_step fns step w) as [[[]|e] w'];
    [apply IH| |done].
  destruct (StepDefinition.is_hard_gate step); [|apply IH].
  pose proof (gate_branch_returns step_id w') as Hne.
  by destruct (gate_branch self step_id w') as [[[s|]|e] w2].
Qed.
End loop.

(** ** A failing hard gate *)

Lemma M_bind_assoc {A B C} (m : M A) (f : A → M B) (g : B → M C) (w : World) :
  ((m ≫= f) ≫= g) w = (m ≫= (λ a, f a ≫= g)) w.
Proof.
  rewrite !M_bind_eq. destruct (m w) as [[a|e] w']; [|done].
  by rewrite M_bind_eq.
Qed.

Lemma initialize_steps_spec (step_ids : list string) (c : RunContext.t) :
  let c' := RunContext.initialize_steps step_ids c in
  RunContext.run_state c' = RunContext.run_state c
  ∧ RunContext.run_id c' = RunContext.run_id c
  ∧ RunContext.failed_hard_gates c' = RunContext.failed_hard_gates c
  ∧ RunContext.completed_steps c' = RunContext.completed_steps c
  ∧ (∀ id, id ∈ step_ids →
           is_Some (RunContext.step_states c' !! id)
           ∧ is_Some (RunContext.step_attempts c' !! id))
  ∧ dom (RunContext.step_states c) ⊆ dom (RunContext.step_states c')
  ∧ dom (RunContext.step_attempts c) ⊆ dom (RunContext.step_attempts c').
Proof.
  revert c. induction step_ids as [|id ids IH]; intros c; simpl.
  { split_and!; try done. intros id Hid. by apply elem_of_nil in Hid. }
  destruct (IH (RunContext.with_step_attempt id 0
                  (RunContext.with_step_state id StepState.PENDING c)))
    as (Hs & Hr & Hf & Hc & Hk & Hd & Ha).
  unfold RunContext.initialize_steps in *. simpl in *.
  split_and!; try done.
  - intros id' Hid'. apply elem_of_cons in Hid' as [->|Hid']; [|by apply Hk].
    split; apply elem_of_dom.
    + apply Hd. rewrite dom_insert_L. apply elem_of_union_l.
      by apply elem_of_singleton.
    + apply Ha. rewrite dom_insert_L. apply elem_of_union_l.
      by apply elem_of_singleton.
  - etrans; [|exact Hd]. dom_grows.
  - etrans; [|exact Ha]. dom_grows.
Qed.

Lemma downstream_in_order (dag : PipelineDAG.t) (step_id ds : string) :
  ds ∈ PipelineDAG.get_downstream_steps dag step_id →
  ds ∈ PipelineDAG.order dag.
Proof.
  unfold PipelineDAG.get_downstream_steps.
  destruct (list_index _ _) as [idx|]; [|by intros ?%elem_of_nil].
  apply subseteq_drop.
Qed.

Section gate_failure.
Context `{Environment}.
Variable self : PipelineExecutor.t.
Local Abbreviation dag := (PipelineExecutor.dag self).
Local Abbreviation fns := (PipelineExecutor.step_functions self).

(** The hard-gate branch while the run is EXECUTING and every downstream
    step has a state: the PENDING ones become SKIPPED, the run goes to
    FAILED with its two events, and FAILED is returned. *)
Lemma gate_branch_ok (step_id : string) (w : World) :
  RunContext.run_state (ctx w) = RunState.EXECUTING →
  (∀ ds, ds ∈ PipelineDAG.get_downstream_steps dag step_id →
         is_Some (RunContext.step_states (ctx w) !! ds)) →
  let reason := Some ("Hard gate failed: " ++ step_id) in
  ∃ w',
    gate_branch self step_id w = (Ok (Some RunState.FAILED), w')
    ∧ RunContext.run_state (ctx w') = RunState.FAILED
    ∧ RunContext.failed_hard_gates (ctx w')
      = RunContext.failed_hard_gates (ctx w)
    ∧ RunContext.step_attempts (ctx w') = RunContext.step_attempts (ctx w)
    ∧ log w'
      = (log w
         ++ [Event.to_dict
               (run_state_changed (clock w) (RunContext.run_id (ctx w))
                  RunState.EXECUTING RunState.FAILED reason);
             Event.to_dict
               (run_completed (S (clock w)) (RunContext.run_id (ctx w))
                  RunState.FAILED reason)])%list
    ∧ ∀ k, RunContext.step_states (ctx w') !! k
           = if decide (k ∈ PipelineDAG.get_downstream_steps dag step_id
                        ∧ RunContext.step_states (ctx w) !! k
                          = Some StepState.PENDING)
             then Some StepState.SKIPPED
             else RunContext.step_states (ctx w) !! k.
Proof.
  intros Hrun Hkeys reason.
  destruct (skip_pending_ok _ w Hkeys)
    as (w1 & Hskip & Hl & Hc & Hrs & Hri & Hf & Hcs & Ha & Hst).
  unfold gate_branch. rewrite M_bind_eq, Hskip. rewrite M_bind_eq.
  rewrite fail_run_executing by congruence.
  eexists. split; [reflexivity|]. simpl.
  rewrite Hl, Hc, Hri. split_and!; try done.
Qed.
End gate_failure.

(** [execute] on a started run, when its loop reaches a hard gate that runs
    and comes back failed, leaving the run EXECUTING and a state for every
    downstream step. *)
Lemma execute_reaches_failed_gate `{Environment} (self : PipelineExecutor.t)
    (run_id : string) (reason : option string)
    (log0 : list (gmap string JValue)) (clock0 : nat)
    (pre rest : list string) (step_id : string) (step : StepDefinition.t)
    (w1 w2 : World) :
  let dag := PipelineExecutor.dag self in
  let w0 := PipelineExecutor.start self run_id reason log0 clock0 in
  PipelineDAG.order dag = (pre ++ step_id :: rest)%list →
  (PipelineExecutor._transition_run_state RunState.PREFLIGHT_VALIDATED
     (Some "Pre-execution validation passed");;
   PipelineExecutor._transition_run_state RunState.EXECUTING None;;
   PipelineExecutor.execute_steps self pre) w0 = (Ok None, w1) →
  PipelineDAG.get_step dag step_id = Some step →
  StepDefinition.is_hard_gate step = true →
  fst (RunContext.can_run_step (ctx w1) step_id dag) = true →
  StepExecutor.execute_step (PipelineExecutor.step_functions self) step w1
  = (Ok false, w2) →
  RunContext.run_state (ctx w2) = RunState.EXECUTING →
  (∀ ds, ds ∈ PipelineDAG.get_downstream_steps dag step_id →
         is_Some (RunContext.step_states (ctx w2) !! ds)) →
  let why := Some ("Hard gate failed: " ++ step_id) in
  ∃ w3,
    PipelineExecutor.execute self w0 = (Ok RunState.FAILED, w3)
    ∧ RunContext.run_state (ctx w3) = RunState.FAILED
    ∧ RunContext.failed_hard_gates (ctx w3)
      = RunContext.failed_hard_gates (ctx w2)
    ∧ log w3
      = (log w2
         ++ [Event.to_dict
               (run_state_changed (clock w2) (RunContext.run_id (ctx w2))
                  RunState.EXECUTING RunState.FAILED why);
             Event.to_dict
               (run_completed (S (clock w2)) (RunContext.run_id (ctx w2))
                  RunState.FAILED why)])%list
    ∧ ∀ k, RunContext.step_states (ctx w3) !! k
           = if decide (k ∈ PipelineDAG.get_downstream_steps dag step_id
                        ∧ RunContext.step_states (ctx w2) !! k
                          = Some StepState.PENDING)
             then Some StepState.SKIPPED
             else RunContext.step_states (ctx w2) !! k.
Proof.
  intros dag w0 Horder Hpre Hget Hgate Hcan Hstep Hexec Hkeys why.
  pose proof (initialize_steps_spec (PipelineDAG.order dag)
                (RunContext.new run_id RunState.CREATED))
    as (Hs0 & _).
  assert (Hcreated : RunContext.run_state (ctx w0) = RunState.CREATED)
    by exact Hs0.
  (* the world after the two transitions *)
  change (?a;; ?b;; ?c) with (a;; (b;; c)) in Hpre.
  rewrite <- M_bind_assoc, M_bind_eq, (execute_opening w0 Hcreated) in Hpre.
  cbv zeta in Hpre.
  set (wo := mkWorld _ _ _ _) in Hpre.
  destruct (gate_branch_ok self step_id w2 Hexec Hkeys)
    as (w3 & Hbranch & Hs3 & Hf3 & _ & Hl3 & Hst3).
  exists w3. split; [|done].
  unfold PipelineExecutor.execute.
  change (?a;; ?b;; ?c) with (a;; (b;; c)).
  rewrite <- M_bind_assoc, M_bind_eq, (execute_opening w0 Hcreated).
  cbv zeta. fold wo. rewrite M_bind_eq. fold dag. rewrite Horder.
  rewrite execute_steps_app, Hpre, execute_steps_cons. fold dag.
  rewrite Hget, Hcan. cbn [negb]. by rewrite Hstep, Hgate, Hbranch.
Qed.

(** With callables that leave the context alone, a run that has come to a
    step is still EXECUTING under the id it was started with, and the
    context holds a state and a counter for every step of the pipeline,
    before the step and after it. *)
Lemma passive_run_keeps_context `{Environment} (self : PipelineExecutor.t)
    (run_id : string) (reason : option string)
    (log0 : list (gmap string JValue)) (clock0 : nat)
    (pre : list string) (step : StepDefinition.t) (w1 : World) :
  let dag := PipelineExecutor.dag self in
  let fns := PipelineExecutor.step_functions self in
  let w0 := PipelineExecutor.start self run_id reason log0 clock0 in
  let w2 := snd (StepExecutor.execute_step fns step w1) in
  (∀ id f, fns !! id = Some f → passive f) →
  (PipelineExecutor._transition_run_state RunState.PREFLIGHT_VALIDATED
     (Some "Pre-execution validation passed");;
   PipelineExecutor._transition_run_state RunState.EXECUTING None;;
   PipelineExecutor.execute_steps self pre) w0 = (Ok None, w1) →
  (RunContext.run_state (ctx w1) = RunState.EXECUTING
   ∧ RunContext.run_id (ctx w1) = run_id
   ∧ ∀ id, id ∈ PipelineDAG.order dag →
           is_Some (RunContext.step_states (ctx w1) !! id)
           ∧ is_Some (RunContext.step_attempts (ctx w1) !! id))
  ∧ (RunContext.run_state (ctx w2) = RunState.EXECUTING
     ∧ RunContext.run_id (ctx w2) = run_id
     ∧ ∀ id, id ∈ PipelineDAG.order dag →
             is_Some (RunContext.step_states (ctx w2) !! id)
             ∧ is_Some (RunContext.step_attempts (ctx w2) !! id)).
Proof.
  intros dag fns w0 w2 Hpassive Hpre.
  pose proof (initialize_steps_spec (PipelineDAG.order dag)
                (RunContext.new run_id RunState.CREATED))
    as (Hs0 & Hr0 & _ & _ & Hk0 & _ & _).
  assert (Hcreated : RunContext.run_state (ctx w0) = RunState.CREATED)
    by exact Hs0.
  change (?a;; ?b;; ?c) with (a;; (b;; c)) in Hpre.
  rewrite <- M_bind_assoc, M_bind_eq, (execute_opening w0 Hcreated) in Hpre.
  cbv zeta in Hpre.
  apply (execute_steps_steady self pre _ w1 Hpassive) in Hpre
    as (Hs1 & Hr1 & Hd1 & Ha1 & _).
  simpl in Hs1, Hr1, Hd1, Ha1.
  pose proof (execute_step_steady fns step w1 (Hpassive _))
    as (Hs2 & Hr2 & Hd2 & Ha2 & _).
  fold w2 in Hs2, Hr2, Hd2, Ha2.
  assert (Hkeys1 : ∀ id, id ∈ PipelineDAG.order dag →
                     is_Some (RunContext.step_states (ctx w1) !! id)
                     ∧ is_Some (RunContext.step_attempts (ctx w1) !! id)).
  { intros id Hid. destruct (Hk0 id Hid) as [Hst Hat].
    split; apply elem_of_dom; [apply Hd1|apply Ha1]; by apply elem_of_dom. }
  split; split_and!.
  - exact Hs1.
  - by rewrite Hr1.
  - exact Hkeys1.
  - by rewrite Hs2.
  - by rewrite Hr2, Hr1.
  - intros id Hid. destruct (Hkeys1 id Hid) as [Hst Hat].
    split; apply elem_of_dom; [apply Hd2|apply Ha2]; by apply elem_of_dom.
Qed.

(** ** Which steps the log speaks of *)

(** Marking steps SKIPPED writes nothing, whether it ends or raises. *)
Lemma skip_pending_log (downstream : list string) (w : World) :
  log (snd (PipelineExecutor.skip_pending downstream w)) = log w.
Proof.
  revert w. induction downstream as [|ds rest IH]; intros w; [done|].
  cbn [PipelineExecutor.skip_pending]. rewrite M_bind_eq.
  unfold step_state_of at 1.
  destruct (RunContext.step_states (ctx w) !! ds) as [s|]; [|done].
  rewrite M_bind_eq. destruct (bool_decide (s = StepState.PENDING)).
  - unfold set_step_state, mutate at 1; cbv beta iota. by rewrite IH.
  - unfold mret, M_ret; cbv beta iota. by rewrite IH.
Qed.

(** Whatever state the context is in, the hard-gate branch writes events
    of the run only. *)
Lemma gate_branch_log `{Environment} (self : PipelineExecutor.t)
    (step_id : string) (w : World) :
  ∃ l, log (snd (gate_branch self step_id w)) = (log w ++ l)%list
       ∧ Forall (λ d, d !! "step_id" = None) l.
Proof.
  unfold gate_branch. rewrite M_bind_eq.
  pose proof (skip_pending_log
                (PipelineDAG.get_downstream_steps (PipelineExecutor.dag self)
                   step_id) w) as Hskip.
  destruct (PipelineExecutor.skip_pending _ w) as [[[]|e] w1];
    cbn [snd] in Hskip; rewrite <- Hskip.
  2: { exists []. by rewrite app_nil_r. }
  rewrite M_bind_eq.
  unfold PipelineExecutor._fail_run, PipelineExecutor._transition_run_state.
  unfold mbind, M_bind, gets, raise, stamp, EventLog.append, set_run_state,
    mutate, mret, M_ret; cbn [ctx log clock journal].
  destruct (bool_decide (RunContext.run_state (ctx w1) ≠ RunState.FAILED));
    [destruct (RunStateMachine.can_transition _ _)|]; cbn [snd log].
  - eexists [_; _]. split; [by rewrite <- app_assoc|].
    repeat constructor; by rewrite to_dict_step_id.
  - exists []. by rewrite app_nil_r.
  - eexists [_]. split; [reflexivity|].
    repeat constructor; by rewrite to_dict_step_id.
Qed.

(** When the loop of [execute] comes to a hard gate that runs and comes
    back failed, the rest of the run is the hard-gate branch. *)
Lemma execute_takes_gate_branch `{Environment} (self : PipelineExecutor.t)
    (run_id : string) (reason : option string)
    (log0 : list (gmap string JValue)) (clock0 : nat)
    (pre rest : list string) (step_id : string) (step : StepDefinition.t)
    (w1 w2 : World) :
  let dag := PipelineExecutor.dag self in
  let w0 := PipelineExecutor.start self run_id reason log0 clock0 in
  PipelineDAG.order dag = (pre ++ step_id :: rest)%list →
  (PipelineExecutor._transition_run_state RunState.PREFLIGHT_VALIDATED
     (Some "Pre-execution validation passed");;
   PipelineExecutor._transition_run_state RunState.EXECUTING None;;
   PipelineExecutor.execute_steps self pre) w0 = (Ok None, w1) →
  PipelineDAG.get_step dag step_id = Some step →
  StepDefinition.is_hard_gate step = true →
  fst (RunContext.can_run_step (ctx w1) step_id dag) = true →
  StepExecutor.execute_step (PipelineExecutor.step_functions self) step w1
  = (Ok false, w2) →
  snd (PipelineExecutor.execute self w0) = snd (gate_branch self step_id w2).
Proof.
  intros dag w0 Horder Hpre Hget Hgate Hcan Hstep.
  pose proof (initialize_steps_spec (PipelineDAG.order dag)
                (RunContext.new run_id RunState.CREATED))
    as (Hs0 & _).
  assert (Hcreated : RunContext.run_state (ctx w0) = RunState.CREATED)
    by exact Hs0.
  change (?a;; ?b;; ?c) with (a;; (b;; c)) in Hpre.
  rewrite <- M_bind_assoc, M_bind_eq, (execute_opening w0 Hcreated) in Hpre.
  cbv zeta in Hpre.
  set (wo := mkWorld _ _ _ _) in Hpre.
  unfold PipelineExecutor.execute.
  change (?a;; ?b;; ?c) with (a;; (b;; c)).
  rewrite <- M_bind_assoc, M_bind_eq, (execute_opening w0 Hcreated).
  cbv zeta. fold wo. rewrite M_bind_eq. fold dag. rewrite Horder.
  rewrite execute_steps_app, Hpre, execute_steps_cons. fold dag.
  rewrite Hget, Hcan. cbn [negb]. rewrite Hstep, Hgate.
  pose proof (gate_branch_returns self step_id w2) as Hne.
  by destruct (gate_branch self step_id w2) as [[[s|]|e] w3].
Qed.


(** The events of a step carry its id. *)
Lemma execute_step_rec_log `{Environment}
    (step_functions : gmap string StepFunction) (step : StepDefinition.t)
    (fuel : nat) (w : World) :
  ∃ l,
    log (snd (StepExecutor.execute_step_rec step_functions fuel step w))
    = (log w ++ l)%list
    ∧ Forall (about (StepDefinition.step_id step)) l.
Proof.
  revert w. induction fuel as [|fuel IH]; intros w.
  { exists []. simpl. by rewrite app_nil_r. }
  attempt_cases step_functions step w fuel; cbn [snd log].
  3: { match goal with
       | |- context [StepExecutor.execute_step_rec _ _ _ ?w'] =>
         destruct (IH w') as (l & -> & Hl)
       end.
       eexists. split; [cbn [log]; rewrite <- app_assoc; reflexivity|].
       apply Forall_app. split; [|exact Hl].
       repeat constructor; unfold about; by rewrite to_dict_step_id. }
  all: eexists; (split; [reflexivity || (by rewrite app_nil_r)|]).
  all: repeat constructor; unfold about; by rewrite to_dict_step_id.
Qed.



Section loop_log.
Context `{Environment}.
Variable self : PipelineExecutor.t.
Hypothesis Hkeyed :
  ∀ id step, PipelineDAG.get_step (PipelineExecutor.dag self) id = Some step →
             StepDefinition.step_id step = id.

(** A stretch of the loop that falls through writes events of its own steps
    only. *)
Lemma execute_steps_log (ids : list string) (w w1 : World) :
  PipelineExecutor.execute_steps self ids w = (Ok None, w1) →
  ∃ l, log w1 = (log w ++ l)%list
       ∧ Forall (λ d, ∃ id, id ∈ ids ∧ about id d) l.
Proof.
  revert w. induction ids as [|step_id rest IH]; intros w.
  { intros [= <-]. exists []. by rewrite app_nil_r. }
  assert (Hweaken : ∀ l, Forall (λ d, ∃ id, id ∈ rest ∧ about id d) l →
                         Forall (λ d, ∃ id, id ∈ step_id :: rest ∧ about id d)
                           l).
  { intros l Hl. eapply Forall_impl; [exact Hl|]. intros d (id & Hid & Hd).
    exists id. split; [by apply list_elem_of_further|done]. }
  rewrite execute_steps_cons.
  destruct (PipelineDAG.get_step _ step_id) as [step|] eqn:Hget.
  2: { intros (l & -> & Hl)%IH. exists l. split; [done|by apply Hweaken]. }
  destruct (negb _).
  { intros (l & -> & Hl)%IH. exists l. split; [done|by apply Hweaken]. }
  destruct (execute_step_rec_log (PipelineExecutor.step_functions self) step
              (S recursion_limit) w) as (l1 & Hl1 & Hall1).
  fold (StepExecutor.execute_step (PipelineExecutor.step_functions self)
          step w) in Hl1.
  rewrite (Hkeyed _ _ Hget) in Hall1.
  assert (Hrest : ∀ w', log w' = (log w ++ l1)%list →
            PipelineExecutor.execute_steps self rest w' = (Ok None, w1) →
            ∃ l, log w1 = (log w ++ l)%list
                 ∧ Forall (λ d, ∃ id, id ∈ step_id :: rest ∧ about id d) l).
  { intros w' Hw' (l & -> & Hl)%IH. exists (l1 ++ l)%list.
    rewrite Hw', <- app_assoc. split; [done|].
    apply Forall_app. split; [|by apply Hweaken].
    eapply Forall_impl; [exact Hall1|]. intros d Hd.
    exists step_id. split; [apply list_elem_of_here|done]. }
  destruct (StepExecutor.execute_step _ step w) as [[[]|e] w'];
    simpl in Hl1; [by apply Hrest| |discriminate].
  destruct (StepDefinition.is_hard_gate step); [|by apply Hrest].
  intros Hret. pose proof (gate_branch_returns self step_id w') as Hne.
  rewrite Hret in Hne. by destruct Hne.
Qed.
End loop_log.

(** What a run has written when a step returns: the opening events, which
    belong to no step, then events of the steps before it, then its own. *)
Lemma log_up_to_step `{Environment} (self : PipelineExecutor.t)
    (run_id : string) (reason : option string)
    (log0 : list (gmap string JValue)) (clock0 : nat)
    (pre : list string) (step : StepDefinition.t) (w1 : World)
    (r : Res bool) (w2 : World) :
  let dag := PipelineExecutor.dag self in
  let w0 := PipelineExecutor.start self run_id reason log0 clock0 in
  (∀ id s, PipelineDAG.get_step dag id = Some s →
           StepDefinition.step_id s = id) →
  (PipelineExecutor._transition_run_state RunState.PREFLIGHT_VALIDATED
     (Some "Pre-execution validation passed");;
   PipelineExecutor._transition_run_state RunState.EXECUTING None;;
   PipelineExecutor.execute_steps self pre) w0 = (Ok None, w1) →
  StepExecutor.execute_step (PipelineExecutor.step_functions self) step w1
  = (r, w2) →
  ∃ l0 l1 l2,
    log w2 = (log0 ++ l0 ++ l1 ++ l2)%list
    ∧ Forall (λ d, d !! "step_id" = None) l0
    ∧ Forall (λ d, ∃ id, id ∈ pre ∧ about id d) l1
    ∧ Forall (about (StepDefinition.step_id step)) l2.
Proof.
  intros dag w0 Hkeyed Hpre Hstep.
  pose proof (initialize_steps_spec (PipelineDAG.order dag)
                (RunContext.new run_id RunState.CREATED))
    as (Hs0 & _).
  assert (Hcreated : RunContext.run_state (ctx w0) = RunState.CREATED)
    by exact Hs0.
  change (?a;; ?b;; ?c) with (a;; (b;; c)) in Hpre.
  rewrite <- M_bind_assoc, M_bind_eq, (execute_opening w0 Hcreated) in Hpre.
  cbv zeta in Hpre.
  apply (execute_steps_log self Hkeyed) in Hpre as (l1 & Hl1 & Hall1).
  destruct (execute_step_rec_log (PipelineExecutor.step_functions self)
              step (S recursion_limit) w1)
    as (l2 & Hl2 & Hall2).
  fold (StepExecutor.execute_step (PipelineExecutor.step_functions self)
          step w1) in Hl2.
  rewrite Hstep in Hl2. cbn [snd] in Hl2.
  cbn [log] in Hl1. unfold w0, PipelineExecutor.start in Hl1.
  cbn [log] in Hl1.
  eexists (_ :: _ :: _ :: []), l1, l2.
  split; [rewrite Hl2, Hl1, <- !app_assoc; reflexivity|].
  split; [|by split].
  repeat (apply Forall_cons; split; [by rewrite to_dict_step_id|]).
  apply Forall_nil_2.
Qed.

Lemma of_type_other (ty : EventType.t) (e : Event.t)
    (l : list (gmap string JValue)) :
  Event.event_type e ≠ ty →
  of_type ty (Event.to_dict e :: l) = of_type ty l.
Proof.
  intros Hne. unfold of_type. rewrite filter_cons.
  rewrite decide_False; [done|]. rewrite to_dict_event_type.
  intros [= Hv]. apply Hne.
  by destruct (Event.event_type e), ty.
Qed.

(** A DAG built by [__init__] files every step under its own id. *)
Lemma init_get_step_id (step_functions : gmap string StepFunction)
    (steps : list StepDefinition.t) (step_id : string)
    (step : StepDefinition.t) :
  PipelineDAG.get_step
    (PipelineExecutor.dag (PipelineExecutor.init step_functions steps))
    step_id = Some step →
  StepDefinition.step_id step = step_id.
Proof.
  unfold PipelineDAG.get_step. simpl.
  assert (Hgen : ∀ (l : list StepDefinition.t)
                    (m : gmap string StepDefinition.t),
             (∀ k s, m !! k = Some s → StepDefinition.step_id s = k) →
             ∀ k s,
               foldl (λ m step, <[StepDefinition.step_id step := step]> m) m l
               !! k = Some s →
               StepDefinition.step_id s = k).
  { induction l as [|x l IH]; intros m Hm k s; simpl; [apply Hm|].
    apply IH. intros k' s'. rewrite lookup_insert_Some.
    intros [[<- <-]|[_ Hk]]; [done|by apply Hm]. }
  apply Hgen. intros k s. by rewrite lookup_empty.
Qed.




(** ** Retry on a hard gate *)

(** C2, at the second step of [PIPELINE_STEPS].  [phase_benchmark] is a hard
    gate with two retries and retry class TRANSIENT_IO.  Its callable fails
    with TRANSIENT_IO at attempt 0.  The retry policy allows a retry, yet the
    step executor does not consult it: it writes [step.started],
    [step.failed] and [gate.failed], no [step.retried], records the gate as
    failed, leaves the attempt counter at 0 and returns failure. *)
Theorem hard_gate_transient_failure_not_retried :
  let step_functions : gmap string StepFunction :=
    {[ "phase_benchmark" := always_fail ]} in
  PIPELINE_STEPS !! 1%nat = Some phase_benchmark
  ∧ RetryPolicy.allows_retry phase_benchmark ErrorClass.TRANSIENT_IO 0 = true
  ∧ ∃ w,
      @StepExecutor.execute_step sample_env step_functions phase_benchmark
        before_phase_benchmark
      = (Ok false, w)
      ∧ log w
        = Event.to_dict
          <$> [ @step_started sample_env 0 "run_123" "phase_benchmark" 0;
                @step_failed sample_env 1 "run_123" "phase_benchmark"
                  ErrorClass.TRANSIENT_IO "Persistent failure" 0;
                @gate_failed sample_env 2 "run_123" "phase_benchmark"
                  ErrorClass.TRANSIENT_IO "Persistent failure" ]
      ∧ of_type EventType.STEP_RETRIED (log w) = []
      ∧ RunContext.step_attempts (ctx w) !! "phase_benchmark" = Some 0
      ∧ RunContext.step_states (ctx w) !! "phase_benchmark"
        = Some StepState.FAILED
      ∧ RunContext.failed_hard_gates (ctx w) = {["phase_benchmark"]}.
Proof.
  intros step_functions.
  split; [reflexivity|]. split; [vm_compute; reflexivity|].
  destruct (ran_and_elim
              (@StepExecutor.execute_step sample_env step_functions
                 phase_benchmark before_phase_benchmark)
              (λ r w,
                 bool_decide
                   (r = false
                    ∧ log w
                      = Event.to_dict
                        <$> [ @step_started sample_env 0 "run_123"
                                "phase_benchmark" 0;
                              @step_failed sample_env 1 "run_123"
                                "phase_benchmark" ErrorClass.TRANSIENT_IO
                                "Persistent failure" 0;
                              @gate_failed sample_env 2 "run_123"
                                "phase_benchmark" ErrorClass.TRANSIENT_IO
                                "Persistent failure" ]
                    ∧ of_type EventType.STEP_RETRIED (log w) = []
                    ∧ RunContext.step_attempts (ctx w) !! "phase_benchmark"
                      = Some 0
                    ∧ RunContext.step_states (ctx w) !! "phase_benchmark"
                      = Some StepState.FAILED
                    ∧ RunContext.failed_hard_gates (ctx w)
                      = {["phase_benchmark"]})))
    as (r & w & Hrun & Hp); [vm_compute; reflexivity|].
  apply bool_decide_eq_true_1 in Hp. destruct Hp as (-> & Hp).
  exists w. by split.
Qed.

(** ** A step without a callable *)

Lemma execute_step_unregistered `{Environment}
    (step_functions : gmap string StepFunction) (step : StepDefinition.t)
    (w : World) (a : Z) :
  let step_id := StepDefinition.step_id step in
  step_functions !! step_id = None →
  RunContext.step_attempts (ctx w) !! step_id = Some a →
  StepExecutor.execute_step step_functions step w
  = (Ok false,
     let e := step_failed (clock w) (RunContext.run_id (ctx w)) step_id
                ErrorClass.UNKNOWN
                ("No implementation for step: " ++ step_id) a in
     mkWorld (RunContext.with_step_state step_id StepState.FAILED (ctx w))
       (log w ++ [Event.to_dict e]) (S (clock w))
       (journal w
        ++ [Appended e; SetStepState step_id StepState.FAILED (Some a)])).
Proof.
  intros step_id Hfn Hattempt. unfold StepExecutor.execute_step.
  by apply execute_step_rec_unregistered.
Qed.

(** C9, as the code has it.
    (a) With no callable registered, [execute_step] appends one event, a
    [step.failed] of class [unknown] for the step and its current attempt,
    sets the step FAILED and returns failure; nothing else of the context
    changes, so no [gate.failed] is written and [failed_hard_gates] is as
    before, hard gate or not.
    (b) When the step is a hard gate, [execute] still takes its hard-gate
    branch on that failure.  Reached with the context untouched (the run
    EXECUTING, a counter for the step, a state for every downstream step,
    as callables that leave the context alone keep it), the run writes the
    [step.failed], marks the PENDING downstream steps SKIPPED, writes
    [run.state_changed] to [failed] and [run.completed] with [failed], and
    returns FAILED.
    (c) When the step is not a hard gate, the loop goes on with the next
    step, and such a run can end SUCCEEDED with the downstream step
    SKIPPED. *)
Theorem unregistered_step `{Environment} :
  (∀ (step_functions : gmap string StepFunction) (step : StepDefinition.t)
     (w : World) (a : Z),
     let step_id := StepDefinition.step_id step in
     step_functions !! step_id = None →
     RunContext.step_attempts (ctx w) !! step_id = Some a →
     ∃ w' failed,
       StepExecutor.execute_step step_functions step w = (Ok false, w')
       ∧ ctx w'
         = RunContext.with_step_state step_id StepState.FAILED (ctx w)
       ∧ log w' = (log w ++ [failed])%list
       ∧ failed !! "event_type" = Some (JStr "step.failed")
       ∧ failed !! "error_class" = Some (JStr "unknown")
       ∧ failed !! "step_id" = Some (JStr step_id)
       ∧ failed !! "attempt" = Some (JInt a)
       ∧ failed !! "reason"
         = Some (JStr ("No implementation for step: " ++ step_id)))
  ∧ (∀ (step_functions : gmap string StepFunction)
       (steps : list StepDefinition.t) (run_id : string)
       (reason : option string) (log0 : list (gmap string JValue))
       (clock0 : nat) (pre rest : list string) (step_id : string)
       (step : StepDefinition.t) (w1 : World),
       let self := PipelineExecutor.init step_functions steps in
       let dag := PipelineExecutor.dag self in
       let w0 := PipelineExecutor.start self run_id reason log0 clock0 in
       let downstream := PipelineDAG.get_downstream_steps dag step_id in
       let untouched :=
         RunContext.run_state (ctx w1) = RunState.EXECUTING
         ∧ is_Some (RunContext.step_attempts (ctx w1) !! step_id)
         ∧ ∀ ds, ds ∈ downstream →
                 is_Some (RunContext.step_states (ctx w1) !! ds) in
       PipelineDAG.order dag = (pre ++ step_id :: rest)%list →
       (PipelineExecutor._transition_run_state RunState.PREFLIGHT_VALIDATED
          (Some "Pre-execution validation passed");;
        PipelineExecutor._transition_run_state RunState.EXECUTING None;;
        PipelineExecutor.execute_steps self pre) w0 = (Ok None, w1) →
       PipelineDAG.get_step dag step_id = Some step →
       StepDefinition.is_hard_gate step = true →
       fst (RunContext.can_run_step (ctx w1) step_id dag) = true →
       step_functions !! step_id = None →
       ((∀ id f, step_functions !! id = Some f → passive f) → untouched)
       ∧ (untouched →
          ∃ w3 failed changed completed,
            PipelineExecutor.execute self w0 = (Ok RunState.FAILED, w3)
            ∧ RunContext.failed_hard_gates (ctx w3)
              = RunContext.failed_hard_gates (ctx w1)
            ∧ log w3 = (log w1 ++ [failed; changed; completed])%list
            ∧ (failed !! "event_type" = Some (JStr "step.failed")
               ∧ failed !! "error_class" = Some (JStr "unknown")
               ∧ failed !! "step_id" = Some (JStr step_id))
            ∧ (changed !! "event_type" = Some (JStr "run.state_changed")
               ∧ changed !! "previous_state" = Some (JStr "executing")
               ∧ changed !! "new_state" = Some (JStr "failed"))
            ∧ (completed !! "event_type" = Some (JStr "run.completed")
               ∧ completed !! "new_state" = Some (JStr "failed")
               ∧ completed !! "reason"
                 = Some (JStr ("Hard gate failed: " ++ step_id)))
            ∧ ∀ ds, ds ∈ downstream →
                    RunContext.step_states (ctx w1) !! ds
                    = Some StepState.PENDING →
                    ds ≠ step_id →
                    RunContext.step_states (ctx w3) !! ds
                    = Some StepState.SKIPPED))
  ∧ (∀ (self : PipelineExecutor.t) (step_id : string) (rest : list string)
       (step : StepDefinition.t) (w : World) (a : Z),
       let dag := PipelineExecutor.dag self in
       PipelineDAG.get_step dag step_id = Some step →
       StepDefinition.step_id step = step_id →
       StepDefinition.is_hard_gate step = false →
       fst (RunContext.can_run_step (ctx w) step_id dag) = true →
       PipelineExecutor.step_functions self !! step_id = None →
       RunContext.step_attempts (ctx w) !! step_id = Some a →
       ∃ w',
         StepExecutor.execute_step (PipelineExecutor.step_functions self)
           step w = (Ok false, w')
         ∧ PipelineExecutor.execute_steps self (step_id :: rest) w
           = PipelineExecutor.execute_steps self rest w')
  ∧ (∃ w,
       @PipelineExecutor.execute sample_env unregistered_plain
         (@PipelineExecutor.start sample_env unregistered_plain "run_123"
            None [] 0)
       = (Ok RunState.SUCCEEDED, w)
       ∧ RunContext.step_states (ctx w) !! "step_1" = Some StepState.FAILED
       ∧ RunContext.step_states (ctx w) !! "step_2" = Some StepState.SKIPPED
       ∧ (λ d, (d !! "event_type", d !! "new_state")) <$> log w
         = [ (Some (JStr "run.created"), Some (JStr "created"));
             (Some (JStr "run.state_changed"),
              Some (JStr "preflight_validated"));
             (Some (JStr "run.state_changed"), Some (JStr "executing"));
             (Some (JStr "step.failed"), Some (JStr "failed"));
             (Some (JStr "run.state_changed"), Some (JStr "succeeded"));
             (Some (JStr "run.completed"), Some (JStr "succeeded")) ]).
Proof.
  split_and!.
  - intros step_functions step w a step_id Hfn Hattempt.
    do 2 eexists. split; [by apply execute_step_unregistered|].
    cbv zeta. cbn [ctx log]. split; [reflexivity|]. split; [reflexivity|].
    split_and!; wire.
  - intros step_functions steps run_id reason log0 clock0 pre rest step_id
      step w1 self dag w0 downstream untouched Horder Hpre Hget Hgate Hcan
      Hfn.
    pose proof (init_get_step_id step_functions steps _ _ Hget) as Hid.
    split.
    + intros Hpassive.
      pose proof (passive_run_keeps_context self run_id reason log0 clock0
                    pre step w1 Hpassive Hpre) as Hkept.
      cbv zeta in Hkept. destruct Hkept as [(Hs1 & _ & Hk1) _].
      split; [exact Hs1|]. split.
      * apply Hk1. fold dag. rewrite Horder. apply elem_of_app. right.
        apply list_elem_of_here.
      * intros ds Hds. apply downstream_in_order in Hds. by apply Hk1.
    + intros (Hexec & [a Ha] & Hkeys).
      rewrite <- Hid in Hfn, Ha.
      pose proof (execute_step_unregistered step_functions step w1 a Hfn Ha)
        as Hstep.
      cbv zeta in Hstep. rewrite Hid in Hstep, Ha.
      destruct (execute_reaches_failed_gate self run_id reason log0 clock0
                  pre rest step_id step w1 _ Horder Hpre Hget Hgate Hcan
                  Hstep)
        as (w3 & Hrun & _ & Hf3 & Hl3 & Hst3).
      { exact Hexec. }
      { intros ds Hds. cbn [ctx RunContext.with_step_state
                              RunContext.step_states].
        apply lookup_insert_is_Some'. right. by apply Hkeys. }
      exists w3. do 3 eexists. simpl in Hf3, Hl3, Hst3.
      split; [exact Hrun|]. split; [exact Hf3|].
      split; [rewrite Hl3, <- app_assoc; reflexivity|].
      split; [split_and!; wire|]. split; [split_and!; wire|].
      split; [split_and!; wire|].
      intros ds Hds Hpending Hne. rewrite Hst3.
      rewrite lookup_insert_ne by done. by rewrite decide_True.
  - intros self step_id rest step w a dag Hget Hid Hgate Hcan Hfn Hattempt.
    rewrite <- Hid in Hfn, Hattempt.
    pose proof (execute_step_unregistered _ step w a Hfn Hattempt) as Hstep.
    eexists. split; [exact Hstep|].
    rewrite execute_steps_cons. fold dag. rewrite Hget, Hcan. cbn [negb].
    by rewrite Hstep, Hgate.
  - destruct (ran_and_elim
                (@PipelineExecutor.execute sample_env unregistered_plain
                   (@PipelineExecutor.start sample_env unregistered_plain
                      "run_123" None [] 0))
                (λ r w,
                   bool_decide
                     (r = RunState.SUCCEEDED
                      ∧ RunContext.step_states (ctx w) !! "step_1"
                        = Some StepState.FAILED
                      ∧ RunContext.step_states (ctx w) !! "step_2"
                        = Some StepState.SKIPPED
                      ∧ (λ d, (d !! "event_type", d !! "new_state"))
                        <$> log w
                        = [ (Some (JStr "run.created"),
                             Some (JStr "created"));
                            (Some (JStr "run.state_changed"),
                             Some (JStr "preflight_validated"));
                            (Some (JStr "run.state_changed"),
                             Some (JStr "executing"));
                            (Some (JStr "step.failed"), Some (JStr "failed"));
                            (Some (JStr "run.state_changed"),
                             Some (JStr "succeeded"));
                            (Some (JStr "run.completed"),
                             Some (JStr "succeeded")) ])))
      as (r & w & Hrun & Hp); [vm_compute; reflexivity|].
    apply bool_decide_eq_true_1 in Hp as (-> & Hp).
    exists w. split; [exact Hrun|exact Hp].
Qed.

Lemma unregistered_step_witness :
  ∃ w3,
    @PipelineExecutor.execute sample_env unregistered_gate
      (@PipelineExecutor.start sample_env unregistered_gate "run_123" None
         [] 0)
    = (Ok RunState.FAILED, w3)
    ∧ RunContext.failed_hard_gates (ctx w3) = ∅
    ∧ RunContext.step_states (ctx w3) !! "step_2" = Some StepState.SKIPPED
    ∧ (λ d, d !! "event_type") <$> drop 3 (log w3)
      = [ Some (JStr "step.failed"); Some (JStr "run.state_changed");
          Some (JStr "run.completed") ].
Proof.
  pose (step_functions := {[ "step_2" := succeed ]} : gmap string StepFunction).
  pose (steps := [hard_gate_step "step_1" "Step 1";
                  plain_step "step_2" "Step 2"]).
  pose (w0 := @PipelineExecutor.start sample_env unregistered_gate "run_123"
                None [] 0).
  pose (opening :=
          (@PipelineExecutor._transition_run_state sample_env
             RunState.PREFLIGHT_VALIDATED
             (Some "Pre-execution validation passed");;
           @PipelineExecutor._transition_run_state sample_env
             RunState.EXECUTING None;;
           @PipelineExecutor.execute_steps sample_env unregistered_gate [])).
  assert (Hpre : opening w0 = (Ok None, snd (opening w0)))
    by (apply (pair_of_fst (opening w0) (Ok None)); vm_compute; reflexivity).
  assert (Hcan : fst (@RunContext.can_run_step sample_env
                        (ctx (snd (opening w0))) "step_1"
                        (PipelineExecutor.dag unregistered_gate)) = true)
    by (vm_compute; reflexivity).
  assert (Hpassive : ∀ id f, step_functions !! id = Some f → passive f).
  { intros id f. unfold step_functions. rewrite lookup_singleton_Some.
    intros [_ <-]. by intros n c k. }
  destruct (proj1 (proj2 (@unregistered_step sample_env))
              step_functions steps "run_123" None [] 0%nat [] ["step_2"]
              "step_1" (hard_gate_step "step_1" "Step 1") (snd (opening w0))
              eq_refl Hpre eq_refl eq_refl Hcan eq_refl)
    as [Huntouched Hgate].
  destruct (Hgate (Huntouched Hpassive))
    as (w3 & failed & changed & completed & Hexec & Hfailed & Hlog & Hf & Hc
        & Hd & Hskip).
  exists w3. split; [exact Hexec|]. split; [|split].
  - rewrite Hfailed. apply (bool_decide_unpack _). vm_compute. exact I.
  - apply Hskip.
    + apply (bool_decide_unpack _). vm_compute. exact I.
    + apply (bool_decide_unpack _). vm_compute. exact I.
    + discriminate.
  - rewrite Hlog.
    replace 3%nat with (length (log (snd (opening w0))))
      by (vm_compute; reflexivity).
    rewrite drop_app_length. cbn [fmap list_fmap].
    destruct Hf as (-> & _). destruct Hc as (-> & _).
    by destruct Hd as (-> & _).
Defined.

(** C9 fails as stated for a hard gate: with no callable for the hard gate
    [step_1], no [gate.failed] is written and [failed_hard_gates] stays
    empty, yet [execute] takes the hard-gate branch: [step_2] is SKIPPED,
    the last event is [run.completed] with [failed] and the hard-gate
    reason, and the run returns FAILED, not SUCCEEDED. *)
Lemma unregistered_hard_gate_fails_run :
  ∃ w,
    @PipelineExecutor.execute sample_env unregistered_gate
      (@PipelineExecutor.start sample_env unregistered_gate "run_123" None
         [] 0)
    = (Ok RunState.FAILED, w)
    ∧ RunContext.run_state (ctx w) = RunState.FAILED
    ∧ RunContext.failed_hard_gates (ctx w) = ∅
    ∧ of_type EventType.GATE_FAILED (log w) = []
    ∧ RunContext.step_states (ctx w) !! "step_2" = Some StepState.SKIPPED
    ∧ last (log w)
      = Some (Event.to_dict
                (@run_completed sample_env 5 "run_123" RunState.FAILED
                   (Some "Hard gate failed: step_1")))
    ∧ (λ d, (d !! "event_type", d !! "new_state", d !! "reason"))
      <$> log w
      = [ (Some (JStr "run.created"), Some (JStr "created"), None);
          (Some (JStr "run.state_changed"),
           Some (JStr "preflight_validated"),
           Some (JStr "Pre-execution validation passed"));
          (Some (JStr "run.state_changed"), Some (JStr "executing"), None);
          (Some (JStr "step.failed"), Some (JStr "failed"),
           Some (JStr "No implementation for step: step_1"));
          (Some (JStr "run.state_changed"), Some (JStr "failed"),
           Some (JStr "Hard gate failed: step_1"));
          (Some (JStr "run.completed"), Some (JStr "failed"),
           Some (JStr "Hard gate failed: step_1")) ].
Proof.
  destruct (ran_and_elim
              (@PipelineExecutor.execute sample_env unregistered_gate
                 (@PipelineExecutor.start sample_env unregistered_gate
                    "run_123" None [] 0))
              (λ r w,
                 bool_decide
                   (r = RunState.FAILED
                    ∧ RunContext.run_state (ctx w) = RunState.FAILED
                    ∧ RunContext.failed_hard_gates (ctx w) = ∅
                    ∧ of_type EventType.GATE_FAILED (log w) = []
                    ∧ RunContext.step_states (ctx w) !! "step_2"
                      = Some StepState.SKIPPED
                    ∧ last (log w)
                      = Some (Event.to_dict
                                (@run_completed sample_env 5 "run_123"
                                   RunState.FAILED
                                   (Some "Hard gate failed: step_1")))
                    ∧ (λ d, (d !! "event_type", d !! "new_state",
                             d !! "reason")) <$> log w
                      = [ (Some (JStr "run.created"), Some (JStr "created"),
                           None);
                          (Some (JStr "run.state_changed"),
                           Some (JStr "preflight_validated"),
                           Some (JStr "Pre-execution validation passed"));
                          (Some (JStr "run.state_changed"),
                           Some (JStr "executing"), None);
                          (Some (JStr "step.failed"), Some (JStr "failed"),
                           Some (JStr "No implementation for step: step_1"));
                          (Some (JStr "run.state_changed"),
                           Some (JStr "failed"),
                           Some (JStr "Hard gate failed: step_1"));
                          (Some (JStr "run.completed"), Some (JStr "failed"),
                           Some (JStr "Hard gate failed: step_1")) ])))
    as (r & w & Hrun & Hp); [vm_compute; reflexivity|].
  apply bool_decide_eq_true_1 in Hp as (-> & Hp).
  exists w. split; [exact Hrun|exact Hp].
Qed.

(** ** The summary *)

Lemma Res_bind_Ok {A B} (f : A → Res B) (m : Res A) (b : B) :
  m ≫= f = Ok b → ∃ a, m = Ok a ∧ f a = Ok b.
Proof. destruct m as [a|e]; simpl; [eauto|discriminate]. Qed.

Lemma insert_sorted_perm (x : string) (l : list string) :
  insert_sorted x l ≡ₚ x :: l.
Proof.
  induction l as [|y l IH]; simpl; [done|].
  destruct (String.leb x y); [done|].
  rewrite IH. apply Permutation_swap.
Qed.

Lemma sorted_perm (l : list string) : sorted l ≡ₚ l.
Proof.
  induction l as [|x l IH]; simpl; [done|].
  unfold sorted in *. simpl. by rewrite insert_sorted_perm, IH.
Qed.

(** Inverts a chain of binds in [H : ... = Ok _]. *)
Ltac res_inv H :=
  repeat (let x := fresh "x" in
          let Hx := fresh "Hx" in
          apply Res_bind_Ok in H as (x & Hx & H));
  try (injection H as <-).

(** What one event does to the tracked states. *)
Lemma process_event_states (tr tr' : SummaryGenerator.tracking)
    (ev : gmap string JValue) :
  SummaryGenerator.process_event tr ev = Ok tr' →
  (∀ id, is_Some (SummaryGenerator.step_states tr' !! id)
         ↔ is_Some (SummaryGenerator.step_states tr !! id) ∨ tracks id ev)
  ∧ ((∀ id st, SummaryGenerator.step_states tr !! id = Some st →
               st ∈ tracked_states) →
     ∀ id st, SummaryGenerator.step_states tr' !! id = Some st →
              st ∈ tracked_states).
Proof.
  unfold SummaryGenerator.process_event, tracks, item.
  destruct (ev !! "event_type") as [ty|] eqn:Ety; [|discriminate].
  destruct (ev !! "timestamp_utc") as [[ts|]|]; try discriminate.
  cbn [mbind Res_bind as_str].
  assert (Hsame : ty ≠ JStr "step.started" → ty ≠ JStr "step.succeeded" →
                  ty ≠ JStr "step.failed" →
                  (∀ id, is_Some (SummaryGenerator.step_states tr !! id)
                         ↔ is_Some (SummaryGenerator.step_states tr !! id)
                           ∨ ev !! "step_id" = Some (JStr id)
                             ∧ (Some ty = Some (JStr "step.started")
                                ∨ Some ty = Some (JStr "step.succeeded")
                                ∨ Some ty = Some (JStr "step.failed")))).
  { intros H1 H2 H3 id. split; [tauto|].
    intros [?|[_ [[= ?]|[[= ?]|[= ?]]]]]; done. }
  assert (Hset : ∀ sid st,
             ev !! "step_id" = Some (JStr sid) →
             (Some ty = Some (JStr "step.started")
              ∨ Some ty = Some (JStr "step.succeeded")
              ∨ Some ty = Some (JStr "step.failed")) →
             ∀ id, is_Some (<[sid := st]> (SummaryGenerator.step_states tr)
                            !! id)
                   ↔ is_Some (SummaryGenerator.step_states tr !! id)
                     ∨ ev !! "step_id" = Some (JStr id)
                       ∧ (Some ty = Some (JStr "step.started")
                          ∨ Some ty = Some (JStr "step.succeeded")
                          ∨ Some ty = Some (JStr "step.failed"))).
  { intros sid st Hsid Hty id. rewrite lookup_insert_is_Some, Hsid.
    split.
    - intros [->|[_ ?]]; [right|left]; done.
    - intros [?|[[= ->] _]]; [|by left].
      destruct (decide (sid = id)); [by left|by right]. }
  assert (Hin : ∀ sid st,
             st ∈ tracked_states →
             (∀ id st', SummaryGenerator.step_states tr !! id = Some st' →
                        st' ∈ tracked_states) →
             ∀ id st',
               <[sid := st]> (SummaryGenerator.step_states tr) !! id
               = Some st' →
               st' ∈ tracked_states).
  { intros sid st Hst Hall id st'. rewrite lookup_insert_Some.
    intros [[_ <-]|[_ ?]]; [done|by eapply Hall]. }
  repeat match goal with
         | |- context [bool_decide (ty = ?v)] =>
           destruct (decide (ty = v)) as [->|?];
           [ rewrite (bool_decide_eq_true_2 (_ = v)) by done
           | rewrite (bool_decide_eq_false_2 (ty = v)) by done ];
           cbn [orb]
         end;
    intros Heq.
  all: try (destruct (ev !! "step_id") as [[sid|]|] eqn:Esid;
            try discriminate; cbn [mbind Res_bind as_str] in Heq).
  all: res_inv Heq; cbn [SummaryGenerator.step_states].
  all: try (split; [by apply Hsame|done]).
  - split; [apply Hset; auto|apply Hin].
    apply list_elem_of_here.
  - split; [apply Hset; auto|apply Hin].
    apply list_elem_of_further, list_elem_of_here.
  - split; [apply Hset; auto|apply Hin].
    do 2 apply list_elem_of_further. apply list_elem_of_here.
Qed.

Lemma replay_states (events : list (gmap string JValue))
    (tr tr' : SummaryGenerator.tracking) :
  for_each SummaryGenerator.process_event tr events = Ok tr' →
  (∀ id, is_Some (SummaryGenerator.step_states tr' !! id)
         ↔ is_Some (SummaryGenerator.step_states tr !! id)
           ∨ ∃ ev, ev ∈ events ∧ tracks id ev)
  ∧ ((∀ id st, SummaryGenerator.step_states tr !! id = Some st →
               st ∈ tracked_states) →
     ∀ id st, SummaryGenerator.step_states tr' !! id = Some st →
              st ∈ tracked_states).
Proof.
  revert tr. induction events as [|ev events IH]; intros tr; simpl.
  - intros [= <-]. split; [|done]. intros id. split; [by left|].
    intros [?|(ev & Hev & _)]; [done|]. by apply elem_of_nil in Hev.
  - intros Heq. apply Res_bind_Ok in Heq as (tr1 & Hev & Hrest).
    apply process_event_states in Hev as [Hdom1 Hin1].
    apply IH in Hrest as [Hdom Hin]. split.
    + intros id. rewrite Hdom, Hdom1. split.
      * intros [[?|?]|(ev' & Hev' & ?)]; [by left|right..].
        -- exists ev. split; [apply list_elem_of_here|done].
        -- exists ev'. split; [by apply list_elem_of_further|done].
      * intros [?|(ev' & Hev' & ?)]; [by left; left|].
        apply elem_of_cons in Hev' as [->|Hev']; [by left; right|].
        right. by exists ev'.
    + intros Hall. by apply Hin, Hin1.
Qed.

Lemma step_summary_spec (tr : SummaryGenerator.tracking) (id : string)
    (s : StepSummary.t) :
  SummaryGenerator.step_summary tr id = Ok s →
  StepSummary.step_id s = id
  ∧ SummaryGenerator.step_states tr !! id = Some (StepSummary.state s).
Proof.
  unfold SummaryGenerator.step_summary.
  destruct (SummaryGenerator.step_states tr !! id) as [st|]; [|discriminate].
  cbn [mbind Res_bind]. intros Heq. res_inv Heq. by split.
Qed.

Lemma add_steps_spec (tr : SummaryGenerator.tracking) (ids : list string)
    (acc out : SummaryGenerator.outcome) :
  (∀ id st, SummaryGenerator.step_states tr !! id = Some st →
            st ∈ tracked_states) →
  for_each (SummaryGenerator.add_step tr) acc ids = Ok out →
  StepSummary.step_id <$> SummaryGenerator.steps out
  = ((StepSummary.step_id <$> SummaryGenerator.steps acc) ++ ids)%list
  ∧ SummaryGenerator.skipped_steps out = SummaryGenerator.skipped_steps acc
  ∧ ∀ x, x ∈ SummaryGenerator.steps out →
         x ∈ SummaryGenerator.steps acc
         ∨ StepSummary.state x ∈ tracked_states.
Proof.
  intros Hall. revert acc. induction ids as [|id ids IH]; intros acc; simpl.
  - intros [= <-]. rewrite app_nil_r. split_and!; [done..|]. by left.
  - intros Heq. apply Res_bind_Ok in Heq as (acc1 & Hadd & Hrest).
    apply IH in Hrest as (Hids & Hskip & Hin).
    unfold SummaryGenerator.add_step in Hadd.
    apply Res_bind_Ok in Hadd as (s & Hs & Hadd).
    apply step_summary_spec in Hs as [Hsid Hst].
    assert (Hsteps : SummaryGenerator.steps acc1
                     = (SummaryGenerator.steps acc ++ [s])%list
                       ∧ SummaryGenerator.skipped_steps acc1
                         = SummaryGenerator.skipped_steps acc).
    { pose proof (Hall _ _ Hst) as Htracked.
      repeat case_bool_decide; injection Hadd as <-; simpl; split; try done.
      exfalso. unfold tracked_states in Htracked.
      repeat (apply elem_of_cons in Htracked as [?|Htracked];
              [congruence|]).
      by apply elem_of_nil in Htracked. }
    destruct Hsteps as [Hsteps Hskip1].
    rewrite Hids, Hskip, Hsteps, Hskip1, fmap_app, <- app_assoc. simpl.
    rewrite Hsid. split_and!; [done..|].
    intros x Hx. apply Hin in Hx as [Hx|Hx]; [|by right].
    rewrite Hsteps in Hx. apply elem_of_app in Hx as [Hx|Hx]; [by left|].
    apply list_elem_of_singleton in Hx as ->. right. by eapply Hall.
Qed.

(** C7, as the code has it.
    (a) The summary generated from an event log has one entry for each step
    id that occurs in a [step.started], [step.succeeded] or [step.failed]
    event, and for no other step; no entry has the state SKIPPED and the
    skipped count is 0.
    (b) Skipping a step writes no event: the loop of [execute] marks a step
    it may not run SKIPPED and goes on with the log as it was, and so does
    the marking of the steps downstream of a failed hard gate.
    (c) So for a run on an empty log whose loop comes to a hard gate that
    runs and comes back failed, with any callables: if the summary of the
    log the run leaves is generated, its skipped count is 0 and it has no
    entry for a downstream step, unless the id of that step is also listed
    at or before the gate; and this although, with the context untouched
    when the gate comes back, every downstream step that was PENDING is
    SKIPPED in the context. *)
Theorem summary_lists_steps_with_events `{Environment} :
  (∀ (events : list (gmap string JValue)) (s : RunSummary.t),
     SummaryGenerator.generate events = Ok s →
     (∀ id, id ∈ StepSummary.step_id <$> RunSummary.steps s
            ↔ ∃ ev, ev ∈ events ∧ tracks id ev)
     ∧ (∀ x, x ∈ RunSummary.steps s →
             StepSummary.state x ≠ StepState.SKIPPED)
     ∧ RunSummary.skipped_steps s = 0)
  ∧ (∀ (self : PipelineExecutor.t) (step_id : string) (rest : list string)
       (step : StepDefinition.t) (w : World),
       let dag := PipelineExecutor.dag self in
       PipelineDAG.get_step dag step_id = Some step →
       fst (RunContext.can_run_step (ctx w) step_id dag) = false →
       ∃ w',
         PipelineExecutor.execute_steps self (step_id :: rest) w
         = PipelineExecutor.execute_steps self rest w'
         ∧ RunContext.step_states (ctx w') !! step_id
           = Some StepState.SKIPPED
         ∧ log w' = log w)
  ∧ (∀ (downstream : list string) (w : World),
       log (snd (PipelineExecutor.skip_pending downstream w)) = log w)
  ∧ (∀ (step_functions : gmap string StepFunction)
       (steps : list StepDefinition.t) (run_id : string)
       (reason : option string) (clock0 : nat) (pre rest : list string)
       (step_id : string) (step : StepDefinition.t) (w1 w2 : World)
       (s : RunSummary.t),
       let self := PipelineExecutor.init step_functions steps in
       let dag := PipelineExecutor.dag self in
       let w0 := PipelineExecutor.start self run_id reason [] clock0 in
       let w3 := snd (PipelineExecutor.execute self w0) in
       let downstream := PipelineDAG.get_downstream_steps dag step_id in
       PipelineDAG.order dag = (pre ++ step_id :: rest)%list →
       (PipelineExecutor._transition_run_state RunState.PREFLIGHT_VALIDATED
          (Some "Pre-execution validation passed");;
        PipelineExecutor._transition_run_state RunState.EXECUTING None;;
        PipelineExecutor.execute_steps self pre) w0 = (Ok None, w1) →
       PipelineDAG.get_step dag step_id = Some step →
       StepDefinition.is_hard_gate step = true →
       fst (RunContext.can_run_step (ctx w1) step_id dag) = true →
       StepExecutor.execute_step step_functions step w1 = (Ok false, w2) →
       SummaryGenerator.generate (log w3) = Ok s →
       RunSummary.skipped_steps s = 0
       ∧ (∀ ds, ds ∈ downstream → ds ∉ pre → ds ≠ step_id →
                ds ∉ StepSummary.step_id <$> RunSummary.steps s)
       ∧ (RunContext.run_state (ctx w2) = RunState.EXECUTING →
          (∀ ds, ds ∈ downstream →
                 is_Some (RunContext.step_states (ctx w2) !! ds)) →
          ∀ ds, ds ∈ downstream →
                RunContext.step_states (ctx w2) !! ds
                = Some StepState.PENDING →
                RunContext.step_states (ctx w3) !! ds
                = Some StepState.SKIPPED)).
Proof.
  assert (Hsummary :
            ∀ (events : list (gmap string JValue)) (s : RunSummary.t),
              SummaryGenerator.generate events = Ok s →
              (∀ id, id ∈ StepSummary.step_id <$> RunSummary.steps s
                     ↔ ∃ ev, ev ∈ events ∧ tracks id ev)
              ∧ (∀ x, x ∈ RunSummary.steps s →
                      StepSummary.state x ≠ StepState.SKIPPED)
              ∧ RunSummary.skipped_steps s = 0).
  { intros events s. unfold SummaryGenerator.generate.
    destruct events as [|first rest]; [discriminate|].
    intros Heq. res_inv Heq.
    cbn [RunSummary.steps RunSummary.skipped_steps].
    match goal with
    | Hx : for_each SummaryGenerator.process_event _ _ = Ok ?tr |- _ =>
      apply replay_states in Hx as [Hdom Htracked]; rename tr into tr0
    end.
    assert (Hall : ∀ id st,
               SummaryGenerator.step_states tr0 !! id = Some st →
               st ∈ tracked_states).
    { apply Htracked. intros id st. cbn [SummaryGenerator.step_states].
      by rewrite lookup_empty. }
    match goal with
    | Hx : for_each (SummaryGenerator.add_step _) _ _ = Ok ?out |- _ =>
      apply (add_steps_spec _ _ _ _ Hall) in Hx as (Hids & Hskip & Hin);
      rename out into out0
    end.
    simpl in Hids, Hskip, Hin. split_and!.
    - intros id. rewrite Hids, sorted_perm, elem_of_elements, elem_of_dom.
      rewrite Hdom. cbn [SummaryGenerator.step_states].
      rewrite lookup_empty, is_Some_alt. tauto.
    - intros entry Hentry Hsk. apply Hin in Hentry as [Hentry|Hentry];
        [by apply elem_of_nil in Hentry|].
      rewrite Hsk in Hentry. unfold tracked_states in Hentry.
      repeat (apply elem_of_cons in Hentry as [?|Hentry]; [discriminate|]).
      by apply elem_of_nil in Hentry.
    - exact Hskip. }
  split; [exact Hsummary|]. split; [|split; [apply skip_pending_log|]].
  - intros self step_id rest step w dag Hget Hcan.
    eexists. split.
    + rewrite execute_steps_cons. fold dag. rewrite Hget, Hcan.
      cbn [negb]. reflexivity.
    + cbn [ctx log RunContext.with_step_state RunContext.step_states].
      split; [apply lookup_insert_eq|reflexivity].
  - intros step_functions steps run_id reason clock0 pre rest step_id step
      w1 w2 s self dag w0 w3 downstream Horder Hpre Hget Hgate Hcan Hstep Hs.
    pose proof (init_get_step_id step_functions steps) as Hkeyed.
    pose proof (execute_takes_gate_branch self run_id reason [] clock0 pre
                  rest step_id step w1 w2 Horder Hpre Hget Hgate Hcan Hstep)
      as Hw3.
    fold w0 w3 in Hw3.
    destruct (Hsummary _ _ Hs) as (Hids & _ & Hcount).
    split; [exact Hcount|]. split.
    + intros ds Hds Hfresh Hne Hentry.
      apply Hids in Hentry as (ev & Hev & Habout & _).
      destruct (gate_branch_log self step_id w2) as (l3 & Hl3 & Hall3).
      destruct (log_up_to_step self run_id reason [] clock0 pre step w1
                  (Ok false) w2 Hkeyed Hpre Hstep)
        as (l0 & l1 & l2 & Hl2 & Hall0 & Hall1 & Hall2).
      rewrite (Hkeyed _ _ Hget) in Hall2.
      rewrite Hw3, Hl3, Hl2 in Hev. cbn [app] in Hev.
      rewrite Forall_forall in Hall0. rewrite Forall_forall in Hall3.
      repeat (apply elem_of_app in Hev as [Hev|Hev]).
      * by rewrite (Hall0 ev Hev) in Habout.
      * rewrite Forall_forall in Hall1.
        destruct (Hall1 ev Hev) as (id & Hid & Hid').
        unfold about in Hid'. rewrite Hid' in Habout.
        injection Habout as ->. done.
      * rewrite Forall_forall in Hall2. specialize (Hall2 ev Hev).
        unfold about in Hall2. rewrite Hall2 in Habout.
        injection Habout as ->. done.
      * by rewrite (Hall3 ev Hev) in Habout.
    + intros Hexec Hkeys ds Hds Hpending.
      destruct (execute_reaches_failed_gate self run_id reason [] clock0 pre
                  rest step_id step w1 w2 Horder Hpre Hget Hgate Hcan Hstep
                  Hexec Hkeys)
        as (w3' & Hrun & _ & _ & _ & Hst3).
      apply (f_equal snd) in Hrun. cbn [snd] in Hrun.
      change (w3 = w3') in Hrun. rewrite Hrun, Hst3.
      by rewrite decide_True.
Qed.

Lemma summary_lists_steps_with_events_witness :
  ∃ s,
    @SummaryGenerator.generate sample_env
      (log (snd (@PipelineExecutor.execute sample_env gate_then_step
                   (@PipelineExecutor.start sample_env gate_then_step
                      "run_123" None [] 0))))
    = Ok s
    ∧ RunSummary.skipped_steps s = 0
    ∧ "step_2" ∉ StepSummary.step_id <$> RunSummary.steps s.
Proof.
  pose (step_functions :=
          {[ "step_1" := hard_fail; "step_2" := succeed ]}
          : gmap string StepFunction).
  pose (steps := [hard_gate_step "step_1" "Step 1";
                  plain_step "step_2" "Step 2"]).
  pose (w0 := @PipelineExecutor.start sample_env gate_then_step "run_123" None
                [] 0).
  pose (opening :=
          (@PipelineExecutor._transition_run_state sample_env
             RunState.PREFLIGHT_VALIDATED
             (Some "Pre-execution validation passed");;
           @PipelineExecutor._transition_run_state sample_env
             RunState.EXECUTING None;;
           @PipelineExecutor.execute_steps sample_env gate_then_step [])).
  pose (step := hard_gate_step "step_1" "Step 1").
  pose (run := @StepExecutor.execute_step sample_env step_functions step).
  assert (Hpre : opening w0 = (Ok None, snd (opening w0)))
    by (apply (pair_of_fst (opening w0) (Ok None)); vm_compute; reflexivity).
  assert (Hstep : run (snd (opening w0))
                  = (Ok false, snd (run (snd (opening w0)))))
    by (apply (pair_of_fst (run (snd (opening w0))) (Ok false));
        vm_compute; reflexivity).
  assert (Hcan : fst (@RunContext.can_run_step sample_env
                        (ctx (snd (opening w0))) "step_1"
                        (PipelineExecutor.dag gate_then_step)) = true)
    by (vm_compute; reflexivity).
  destruct (ok_and_elim
              (@SummaryGenerator.generate sample_env
                 (log (snd (@PipelineExecutor.execute sample_env
                              gate_then_step w0)))) (λ _, true))
    as (s & Hs & _); [vm_compute; reflexivity|].
  destruct (proj2 (proj2 (proj2 (@summary_lists_steps_with_events
                                   sample_env)))
              step_functions steps "run_123" None 0%nat [] ["step_2"]
              "step_1" step (snd (opening w0)) (snd (run (snd (opening w0))))
              s eq_refl Hpre eq_refl eq_refl Hcan Hstep Hs)
    as (Hcount & Habsent & _).
  exists s. split; [exact Hs|]. split; [exact Hcount|].
  apply Habsent.
  - apply (bool_decide_unpack _). vm_compute. exact I.
  - apply not_elem_of_nil.
  - discriminate.
Defined.

(** C7 fails as stated: in the run of the failing hard gate [step_1] with
    the downstream step [step_2], the context ends with [step_2] SKIPPED,
    but the summary of the log, generated over the seven seconds the run
    took, has the single entry [step_1] and a skipped count of 0. *)
Lemma summary_omits_skipped_step :
  ∃ w s,
    @PipelineExecutor.execute sample_env gate_then_step
      (@PipelineExecutor.start sample_env gate_then_step "run_123" None [] 0)
    = (Ok RunState.FAILED, w)
    ∧ PipelineDAG.order (PipelineExecutor.dag gate_then_step)
      = ["step_1"; "step_2"]
    ∧ RunContext.step_states (ctx w) !! "step_2" = Some StepState.SKIPPED
    ∧ @generate_summary sample_env "run_123" (Some (log w)) = Ok s
    ∧ StepSummary.step_id <$> RunSummary.steps s = ["step_1"]
    ∧ RunSummary.skipped_steps s = 0
    ∧ RunSummary.created_at s = "2026-02-16T23:00:00+00:00"
    ∧ RunSummary.completed_at s = Some "2026-02-16T23:00:07+00:00"
    ∧ RunSummary.duration_ms s = Some 7000.
Proof.
  destruct (ran_and_elim
              (@PipelineExecutor.execute sample_env gate_then_step
                 (@PipelineExecutor.start sample_env gate_then_step
                    "run_123" None [] 0))
              (λ r w,
                 bool_decide
                   (r = RunState.FAILED
                    ∧ RunContext.step_states (ctx w) !! "step_2"
                      = Some StepState.SKIPPED)
                 && ok_and
                      (@generate_summary sample_env "run_123" (Some (log w)))
                      (λ s,
                         bool_decide
                           (StepSummary.step_id <$> RunSummary.steps s
                            = ["step_1"]
                            ∧ RunSummary.skipped_steps s = 0
                            ∧ RunSummary.created_at s
                              = "2026-02-16T23:00:00+00:00"
                            ∧ RunSummary.completed_at s
                              = Some "2026-02-16T23:00:07+00:00"
                            ∧ RunSummary.duration_ms s = Some 7000))))
    as (r & w & Hrun & Hp); [vm_compute; reflexivity|].
  apply andb_true_iff in Hp as [Hp Hsum].
  apply bool_decide_eq_true_1 in Hp as (-> & Hskipped).
  apply ok_and_elim in Hsum as (s & Hs & Hp).
  apply bool_decide_eq_true_1 in Hp as (Hids & Hcount & Hrest).
  exists w, s. split; [exact Hrun|]. split; [reflexivity|].
  split; [exact Hskipped|]. split; [exact Hs|]. split; [exact Hids|].
  split; [exact Hcount|exact Hrest].
Qed.

(** ** Retry exhaustion *)

(** A step that is no hard gate, has two retries for TRANSIENT_IO and a
    callable that always fails with TRANSIENT_IO and leaves the context
    alone, run from attempt 0 with room for two nested calls: three
    attempts, two retries, and the step ends FAILED. *)
Lemma execute_step_retries_exhausted `{Environment}
    (step_functions : gmap string StepFunction) (step : StepDefinition.t)
    (step_func : StepFunction) (w : World) :
  let step_id := StepDefinition.step_id step in
  let run_id := RunContext.run_id (ctx w) in
  let k := clock w in
  StepDefinition.is_hard_gate step = false →
  StepDefinition.max_retries step = 2 →
  StepDefinition.retry_classes step = [ErrorClass.TRANSIENT_IO] →
  step_functions !! step_id = Some step_func →
  (∀ n c, ∃ msg, step_func n c step_id
                 = (Returned false (Some ErrorClass.TRANSIENT_IO) msg, c)) →
  (2 ≤ recursion_limit)%nat →
  RunContext.step_attempts (ctx w) !! step_id = Some 0 →
  ∃ w' m0 m1 m2,
    StepExecutor.execute_step step_functions step w = (Ok false, w')
    ∧ log w'
      = (log w
         ++ (Event.to_dict
             <$> [ step_started k run_id step_id 0;
                   step_failed (1 + k) run_id step_id ErrorClass.TRANSIENT_IO
                     m0 0;
                   step_retried (2 + k) run_id step_id 1
                     "Retrying after transient_io";
                   step_started (3 + k) run_id step_id 1;
                   step_failed (4 + k) run_id step_id ErrorClass.TRANSIENT_IO
                     m1 1;
                   step_retried (5 + k) run_id step_id 2
                     "Retrying after transient_io";
                   step_started (6 + k) run_id step_id 2;
                   step_failed (7 + k) run_id step_id ErrorClass.TRANSIENT_IO
                     m2 2 ]))%list
    ∧ clock w' = (8 + k)%nat
    ∧ RunContext.run_state (ctx w') = RunContext.run_state (ctx w)
    ∧ RunContext.run_id (ctx w') = run_id
    ∧ RunContext.failed_hard_gates (ctx w')
      = RunContext.failed_hard_gates (ctx w)
    ∧ RunContext.step_states (ctx w') !! step_id = Some StepState.FAILED
    ∧ RunContext.step_attempts (ctx w') !! step_id = Some 2.
Proof.
  intros step_id run_id k Hgate Hmax Hclasses Hfn Hfail Hroom Hattempt.
  assert (Hretry : ∀ a, a < 2 →
            RetryPolicy.allows_retry step ErrorClass.TRANSIENT_IO a = true).
  { intros a Ha. unfold RetryPolicy.allows_retry, StepDefinition.allows_retry.
    rewrite Hgate, Hmax, Hclasses. simpl.
    destruct (a >=? 2) eqn:Hge; [lia|]. done. }
  assert (Hstop : RetryPolicy.allows_retry step ErrorClass.TRANSIENT_IO 2
                  = false).
  { unfold RetryPolicy.allows_retry, StepDefinition.allows_retry.
    by rewrite Hgate, Hmax. }
  unfold StepExecutor.execute_step.
  destruct recursion_limit as [|[|room]]; [lia..|].
  (* attempt 0 *)
  destruct (Hfail (S (clock w))
              (RunContext.with_step_state step_id StepState.RUNNING (ctx w)))
    as [m0 Hcall0].
  rewrite (execute_step_rec_retried step_functions step w (S (S room)) 0
             Hattempt step_func Hfn _ _ _ Hcall0 0 Hattempt Hgate
             (Hretry 0 eq_refl) eq_refl).
  cbv zeta. simpl default.
  match goal with
  | |- context [StepExecutor.execute_step_rec _ _ _ ?w1] => set (wa := w1)
  end.
  assert (Hattempt1 : RunContext.step_attempts (ctx wa) !! step_id = Some 1)
    by apply lookup_insert_eq.
  (* attempt 1 *)
  destruct (Hfail (S (clock wa))
              (RunContext.with_step_state step_id StepState.RUNNING (ctx wa)))
    as [m1 Hcall1].
  rewrite (execute_step_rec_retried step_functions step wa (S room) 1
             Hattempt1 step_func Hfn _ _ _ Hcall1 1 Hattempt1 Hgate
             (Hretry 1 eq_refl) eq_refl).
  cbv zeta. simpl default.
  match goal with
  | |- context [StepExecutor.execute_step_rec _ _ _ ?w1] => set (wb := w1)
  end.
  assert (Hattempt2 : RunContext.step_attempts (ctx wb) !! step_id = Some 2)
    by apply lookup_insert_eq.
  (* attempt 2 *)
  destruct (Hfail (S (clock wb))
              (RunContext.with_step_state step_id StepState.RUNNING (ctx wb)))
    as [m2 Hcall2].
  rewrite (execute_step_rec_failed step_functions step wb room 2 Hattempt2
             step_func Hfn _ _ _ Hcall2 Hgate Hstop).
  eexists _, (message_or m0 "Step failed"), (message_or m1 "Step failed"),
    (message_or m2 "Step failed").
  split; [reflexivity|]. simpl.
  split_and!; try done.
  - by rewrite <- !app_assoc.
  - apply lookup_insert_eq.
Qed.

(** [execute] on the started run of a one-step pipeline whose step is no
    hard gate and leaves the run EXECUTING: whatever the step returns, the
    run ends SUCCEEDED. *)
Lemma execute_single_step `{Environment}
    (step_functions : gmap string StepFunction) (step : StepDefinition.t)
    (run_id : string) (reason : option string)
    (log0 : list (gmap string JValue)) (clock0 : nat)
    (b : bool) (w' : World) :
  let self := PipelineExecutor.init step_functions [step] in
  let w0 := PipelineExecutor.start self run_id reason log0 clock0 in
  let why := Some "All steps succeeded" in
  StepDefinition.is_hard_gate step = false →
  StepExecutor.execute_step step_functions step (snd (opening w0))
  = (Ok b, w') →
  RunContext.run_state (ctx w') = RunState.EXECUTING →
  RunContext.failed_hard_gates (ctx w') = ∅ →
  ∃ w,
    PipelineExecutor.execute self w0 = (Ok RunState.SUCCEEDED, w)
    ∧ ctx w = RunContext.with_run_state RunState.SUCCEEDED (ctx w')
    ∧ log w
      = (log w'
         ++ [Event.to_dict
               (run_state_changed (clock w') (RunContext.run_id (ctx w'))
                  RunState.EXECUTING RunState.SUCCEEDED why);
             Event.to_dict
               (run_completed (S (clock w')) (RunContext.run_id (ctx w'))
                  RunState.SUCCEEDED why)])%list.
Proof.
  intros self w0 why Hgate Hstep Hs Hnone.
  set (step_id := StepDefinition.step_id step).
  assert (Hopen : opening w0 = (Ok tt, snd (opening w0))).
  { unfold opening. by rewrite (execute_opening w0 eq_refl). }
  unfold PipelineExecutor.execute.
  change (?a;; ?b;; ?c) with (a;; (b;; c)).
  rewrite <- M_bind_assoc, M_bind_eq.
  unfold opening at 1 in Hopen. rewrite Hopen, M_bind_eq.
  change (PipelineDAG.order (PipelineExecutor.dag self)) with [step_id].
  rewrite execute_steps_cons.
  assert (Hget : PipelineDAG.get_step (PipelineExecutor.dag self) step_id
                 = Some step)
    by apply lookup_insert_eq.
  rewrite Hget.
  assert (Hcan : fst (RunContext.can_run_step (ctx (snd (opening w0)))
                        step_id (PipelineExecutor.dag self)) = true).
  { unfold RunContext.can_run_step, PipelineDAG.can_execute_step.
    rewrite Hget. unfold PipelineDAG.get_upstream_steps. simpl.
    rewrite String.eqb_refl. simpl.
    rewrite !bool_decide_eq_true_2; [done|..].
    - apply elem_of_equiv_empty_L. intros x. rewrite elem_of_difference.
      intros [Hx _]. by apply not_elem_of_empty in Hx.
    - apply elem_of_equiv_empty_L. intros x. rewrite elem_of_intersection.
      intros [Hx _]. by apply not_elem_of_empty in Hx. }
  rewrite Hcan. cbn [negb].
  change (PipelineExecutor.step_functions self) with step_functions.
  rewrite Hstep, Hgate.
  destruct b; cbn [PipelineExecutor.execute_steps]; unfold mret at 1, M_ret.
  all: rewrite M_bind_eq; unfold gets at 1; rewrite Hnone.
  all: rewrite (bool_decide_eq_true_2 (∅ = ∅)) by done; cbn [negb].
  all: rewrite M_bind_eq, (complete_run_executing w' _ Hs); cbv zeta.
  all: eexists; split; [reflexivity|]; by simpl.
Qed.

(** C6.  Scenario S4.  A pipeline of one step that is no hard gate, with
    [max_retries = 2], retry class TRANSIENT_IO and a callable that always
    fails with TRANSIENT_IO and does nothing else, in an interpreter with
    room for the two nested calls of [execute_step].  Starting and
    executing the run appends, after the two opening transitions, three
    [step.started] with attempts 0, 1, 2, each followed by a [step.failed]
    of class [transient_io], the first two of these followed by a
    [step.retried] (attempts 1 and 2); then [run.state_changed] to
    [succeeded] and, last, [run.completed] with [succeeded].  The step ends
    FAILED and the run returns SUCCEEDED. *)
Theorem retry_exhaustion_run `{Environment}
    (step_id name : string) (manual : bool) (step_func : StepFunction)
    (run_id : string) (reason : option string)
    (log0 : list (gmap string JValue)) (clock0 : nat) :
  (∀ n c, ∃ msg, step_func n c step_id
                 = (Returned false (Some ErrorClass.TRANSIENT_IO) msg, c)) →
  (2 ≤ recursion_limit)%nat →
  let step := StepDefinition.mk step_id name false manual 2
                [ErrorClass.TRANSIENT_IO] in
  let self := PipelineExecutor.init {[ step_id := step_func ]} [step] in
  let w0 := PipelineExecutor.start self run_id reason log0 clock0 in
  ∃ w appended,
    PipelineExecutor.execute self w0 = (Ok RunState.SUCCEEDED, w)
    ∧ RunContext.run_state (ctx w) = RunState.SUCCEEDED
    ∧ RunContext.step_states (ctx w) !! step_id = Some StepState.FAILED
    ∧ log w = (log w0 ++ appended)%list
    ∧ (λ d, (d !! "event_type", d !! "attempt", d !! "error_class",
             d !! "new_state")) <$> appended
      = [ (Some (JStr "run.state_changed"), Some (JInt 0), None,
           Some (JStr "preflight_validated"));
          (Some (JStr "run.state_changed"), Some (JInt 0), None,
           Some (JStr "executing"));
          (Some (JStr "step.started"), Some (JInt 0), None,
           Some (JStr "running"));
          (Some (JStr "step.failed"), Some (JInt 0),
           Some (JStr "transient_io"), Some (JStr "failed"));
          (Some (JStr "step.retried"), Some (JInt 1), None, None);
          (Some (JStr "step.started"), Some (JInt 1), None,
           Some (JStr "running"));
          (Some (JStr "step.failed"), Some (JInt 1),
           Some (JStr "transient_io"), Some (JStr "failed"));
          (Some (JStr "step.retried"), Some (JInt 2), None, None);
          (Some (JStr "step.started"), Some (JInt 2), None,
           Some (JStr "running"));
          (Some (JStr "step.failed"), Some (JInt 2),
           Some (JStr "transient_io"), Some (JStr "failed"));
          (Some (JStr "run.state_changed"), Some (JInt 0), None,
           Some (JStr "succeeded"));
          (Some (JStr "run.completed"), Some (JInt 0), None,
           Some (JStr "succeeded")) ]
    ∧ (λ d, d !! "step_id") <$> appended
      = [ None; None;
          Some (JStr step_id); Some (JStr step_id); Some (JStr step_id);
          Some (JStr step_id); Some (JStr step_id); Some (JStr step_id);
          Some (JStr step_id); Some (JStr step_id);
          None; None ]
    ∧ (λ d, d !! "run_id") <$> appended
      = replicate 12 (Some (JStr run_id)).
Proof.
  intros Hfail Hroom step self w0.
  assert (Hwo : opening w0 = (Ok tt, snd (opening w0))).
  { unfold opening. by rewrite (execute_opening w0 eq_refl). }
  pose proof (f_equal snd (execute_opening w0 eq_refl)) as Hexplicit.
  fold opening in Hexplicit. cbv zeta in Hexplicit.
  change (snd (?a, ?b)) with b in Hexplicit.
  destruct (execute_step_retries_exhausted {[ step_id := step_func ]} step
              step_func (snd (opening w0)))
    as (w' & m0 & m1 & m2 & Hstep & Hlog' & Hclock' & Hrs' & Hrid' & Hfhg'
        & Hst' & _); try done.
  { apply lookup_insert_eq. }
  { rewrite Hexplicit. apply lookup_insert_eq. }
  assert (Hnone : RunContext.failed_hard_gates (ctx w') = ∅)
    by (rewrite Hfhg', Hexplicit; reflexivity).
  assert (Hexec' : RunContext.run_state (ctx w') = RunState.EXECUTING)
    by (rewrite Hrs', Hexplicit; reflexivity).
  destruct (execute_single_step {[ step_id := step_func ]} step run_id reason
              log0 clock0 false w' eq_refl Hstep Hexec' Hnone)
    as (w & Hexec & Hctx & Hlog).
  eexists w, _. split; [exact Hexec|].
  rewrite Hctx. split; [reflexivity|]. split; [exact Hst'|].
  rewrite Hlog, Hlog', Hclock', Hrid', Hexplicit. cbn [log clock ctx].
  split.
  { rewrite <- !app_assoc. f_equal. }
  cbn [fmap list_fmap app].
  rewrite !to_dict_event_type, !to_dict_attempt, !to_dict_error_class,
    !to_dict_new_state, !to_dict_step_id, !to_dict_run_id.
  split_and!; reflexivity.
Qed.

Lemma retry_exhaustion_run_witness :
  ∃ (w : World) (appended : list (gmap string JValue)),
    @PipelineExecutor.execute sample_env retry_exhausted
      (@PipelineExecutor.start sample_env retry_exhausted "run_123" None [] 0)
    = (Ok RunState.SUCCEEDED, w)
    ∧ RunContext.step_states (ctx w) !! "step_1" = Some StepState.FAILED
    ∧ length (log w) = (1 + length appended)%nat
    ∧ (λ d, (d !! "event_type", d !! "attempt")) <$> appended
      = [ (Some (JStr "run.state_changed"), Some (JInt 0));
          (Some (JStr "run.state_changed"), Some (JInt 0));
          (Some (JStr "step.started"), Some (JInt 0));
          (Some (JStr "step.failed"), Some (JInt 0));
          (Some (JStr "step.retried"), Some (JInt 1));
          (Some (JStr "step.started"), Some (JInt 1));
          (Some (JStr "step.failed"), Some (JInt 1));
          (Some (JStr "step.retried"), Some (JInt 2));
          (Some (JStr "step.started"), Some (JInt 2));
          (Some (JStr "step.failed"), Some (JInt 2));
          (Some (JStr "run.state_changed"), Some (JInt 0));
          (Some (JStr "run.completed"), Some (JInt 0)) ].
Proof.
  destruct (@retry_exhaustion_run sample_env "step_1" "Step 1" false
              always_fail "run_123" None [] 0%nat)
    as (w & appended & Hexec & _ & Hstate & Hlog & Hcolumns & _).
  - intros n c. by exists (Some "Persistent failure").
  - cbn [recursion_limit sample_env]. lia.
  - exists w, appended. split; [exact Hexec|]. split; [exact Hstate|].
    split; [rewrite Hlog; apply length_app|].
    apply (f_equal (fmap (λ q : _ * _ * option JValue * option JValue,
                            (q.1.1.1, q.1.1.2)))) in Hcolumns.
    rewrite <- list_fmap_compose in Hcolumns. exact Hcolumns.
Defined.

(** * Further properties of the runner *)

(** ** Enumerations by value *)

(** X1.  [RunState(v)] and [ErrorClass(v)] invert [.value]: the member
    found for the value of [s] is [s], and a member found for [v] has the
    value [v]. *)
Theorem enum_value_round_trip :
  (∀ s, RunState.of_value (RunState.value s) = Some s)
  ∧ (∀ v s, RunState.of_value v = Some s → RunState.value s = v)
  ∧ (∀ c, ErrorClass.of_value (ErrorClass.value c) = Some c)
  ∧ (∀ v c, ErrorClass.of_value v = Some c → ErrorClass.value c = v).
Proof.
  split_and!.
  - by intros [].
  - intros v s Hs. apply find_some in Hs as [_ Hs].
    by apply String.eqb_eq in Hs.
  - by intros [].
  - intros v c Hc. apply find_some in Hc as [_ Hc].
    by apply String.eqb_eq in Hc.
Qed.

(** ** The wire form loses nothing *)

Lemma EventType_value_inj (a b : EventType.t) :
  EventType.value a = EventType.value b → a = b.
Proof. destruct a, b; simpl; intros Heq; first [reflexivity|discriminate]. Qed.

Lemma Actor_value_inj (a b : Actor.t) : Actor.value a = Actor.value b → a = b.
Proof. destruct a, b; simpl; intros Heq; first [reflexivity|discriminate]. Qed.

Lemma ErrorClass_value_inj (a b : ErrorClass.t) :
  ErrorClass.value a = ErrorClass.value b → a = b.
Proof. destruct a, b; simpl; intros Heq; first [reflexivity|discriminate]. Qed.

Lemma to_dict_lookups (e : Event.t) :
  Event.to_dict e !! "event_id" = Some (JStr (Event.event_id e))
  ∧ Event.to_dict e !! "run_id" = Some (JStr (Event.run_id e))
  ∧ Event.to_dict e !! "timestamp_utc" = Some (JStr (Event.timestamp_utc e))
  ∧ Event.to_dict e !! "actor" = Some (JStr (Actor.value (Event.actor e)))
  ∧ Event.to_dict e !! "attempt" = Some (JInt (Event.attempt e))
  ∧ Event.to_dict e !! "error_class"
    = (λ c, JStr (ErrorClass.value c)) <$> Event.error_class e
  ∧ Event.to_dict e !! "reason" = JStr <$> Event.reason e
  ∧ Event.to_dict e !! "inputs_hash" = JStr <$> Event.inputs_hash e
  ∧ Event.to_dict e !! "outputs_hash" = JStr <$> Event.outputs_hash e
  ∧ Event.to_dict e !! "artifact_path" = JStr <$> Event.artifact_path e
  ∧ Event.to_dict e !! "previous_state" = JStr <$> Event.previous_state e
  ∧ Event.to_dict e !! "new_state" = JStr <$> Event.new_state e
  ∧ Event.to_dict e !! "override_reason" = JStr <$> Event.override_reason e.
Proof. unfold Event.to_dict; cbv zeta. split_and!; to_dict_lookup. Qed.

Lemma to_dict_inj (e1 e2 : Event.t) :
  Event.to_dict e1 = Event.to_dict e2 → e1 = e2.
Proof.
  intros Heq.
  pose proof (to_dict_lookups e1) as H1. pose proof (to_dict_lookups e2) as H2.
  pose proof (to_dict_event_type e1) as T1.
  pose proof (to_dict_event_type e2) as T2.
  pose proof (to_dict_step_id e1) as S1. pose proof (to_dict_step_id e2) as S2.
  rewrite Heq in H1, T1, S1.
  destruct H1 as (A1 & A2 & A3 & A4 & A5 & A6 & A7 & A8 & A9 & A10 & A11
                  & A12 & A13).
  destruct H2 as (B1 & B2 & B3 & B4 & B5 & B6 & B7 & B8 & B9 & B10 & B11
                  & B12 & B13).
  rewrite A1 in B1. rewrite A2 in B2. rewrite A3 in B3. rewrite A4 in B4.
  rewrite A5 in B5. rewrite A6 in B6. rewrite A7 in B7. rewrite A8 in B8.
  rewrite A9 in B9. rewrite A10 in B10. rewrite A11 in B11.
  rewrite A12 in B12. rewrite A13 in B13. rewrite T1 in T2. rewrite S1 in S2.
  destruct e1 as [i1 t1 r1 ts1 a1 n1 s1 c1 rs1 ih1 oh1 ap1 ps1 ns1 or1].
  destruct e2 as [i2 t2 r2 ts2 a2 n2 s2 c2 rs2 ih2 oh2 ap2 ps2 ns2 or2].
  simpl in *.
  injection B1 as ->. injection B2 as ->. injection B3 as ->.
  injection B4 as B4. apply Actor_value_inj in B4 as ->.
  injection B5 as ->.
  injection T2 as T2. apply EventType_value_inj in T2 as ->.
  assert (c1 = c2) as ->.
  { destruct c1, c2; simpl in B6; try discriminate; [|done].
    injection B6 as B6. by apply ErrorClass_value_inj in B6 as ->. }
  assert (Hopt : ∀ x y : option string, JStr <$> x = JStr <$> y → x = y).
  { intros [x|] [y|]; simpl; intros Hxy; try discriminate; [|done].
    by injection Hxy as ->. }
  apply Hopt in S2 as ->. apply Hopt in B7 as ->. apply Hopt in B8 as ->.
  apply Hopt in B9 as ->. apply Hopt in B10 as ->. apply Hopt in B11 as ->.
  apply Hopt in B12 as ->. apply Hopt in B13 as ->.
  reflexivity.
Qed.

(** X2.  [Event.to_dict] is injective: two events have the same wire dict
    exactly when they are the same event, so a line of the log determines
    every field of the event that was appended. *)
Theorem to_dict_injective (e1 e2 : Event.t) :
  Event.to_dict e1 = Event.to_dict e2 ↔ e1 = e2.
Proof. split; [apply to_dict_inj|by intros ->]. Qed.

(** ** The order of the DAG *)

Lemma list_index_Some (x : string) (l : list string) (i : nat) :
  list_index x l = Some i →
  (take i l ++ x :: drop (S i) l)%list = l ∧ x ∉ take i l.
Proof.
  revert i. induction l as [|y l IH]; intros i; simpl; [discriminate|].
  destruct (String.eqb_spec y x) as [->|Hne].
  - intros [= <-]. simpl. split; [done|]. apply not_elem_of_nil.
  - destruct (list_index x l) as [j|]; [|discriminate].
    intros [= <-]. destruct (IH j eq_refl) as [Heq Hnot]. simpl.
    rewrite Heq. split; [done|].
    intros Hin. apply elem_of_cons in Hin as [->|Hin]; done.
Qed.

Lemma list_index_None (x : string) (l : list string) :
  list_index x l = None ↔ x ∉ l.
Proof.
  induction l as [|y l IH]; simpl.
  - split; [intros _; apply not_elem_of_nil|done].
  - destruct (String.eqb_spec y x) as [->|Hne].
    + split; [discriminate|]. intros Hn. exfalso. apply Hn.
      apply list_elem_of_here.
    + rewrite not_elem_of_cons. destruct (list_index x l); simpl.
      * split; [discriminate|]. intros [_ Hn]. by apply IH in Hn.
      * split; [|done]. intros _. split; [done|]. by apply IH.
Qed.

(** X3.  For a step of the order, its upstream steps, the step and its
    downstream steps make up the order, split at the first occurrence of
    the step; for any other id both lists are empty. *)
Theorem upstream_downstream_split (dag : PipelineDAG.t) (step_id : string) :
  (step_id ∈ PipelineDAG.order dag →
   (PipelineDAG.get_upstream_steps dag step_id
    ++ step_id :: PipelineDAG.get_downstream_steps dag step_id)%list
   = PipelineDAG.order dag
   ∧ step_id ∉ PipelineDAG.get_upstream_steps dag step_id)
  ∧ (step_id ∉ PipelineDAG.order dag →
     PipelineDAG.get_upstream_steps dag step_id = []
     ∧ PipelineDAG.get_downstream_steps dag step_id = []).
Proof.
  unfold PipelineDAG.get_upstream_steps, PipelineDAG.get_downstream_steps.
  split.
  - intros Hin.
    destruct (list_index step_id (PipelineDAG.order dag)) as [i|] eqn:Hi.
    + by apply list_index_Some.
    + by apply list_index_None in Hi.
  - intros Hnot. apply list_index_None in Hnot. by rewrite Hnot.
Qed.

Lemma upstream_downstream_split_witness :
  let dag := PipelineDAG.init PIPELINE_STEPS in
  PipelineDAG.get_upstream_steps dag "stage_data_layout"
  = ["preflight_contract_check"; "phase_benchmark"]
  ∧ PipelineDAG.get_downstream_steps dag "stage_data_layout"
    = ["build_steward_bundle"; "validate_bundle_quality";
       "build_minimal_deliverable"; "verify_artifacts"; "publish_internal"]
  ∧ (PipelineDAG.get_upstream_steps dag "stage_data_layout"
     ++ "stage_data_layout"
        :: PipelineDAG.get_downstream_steps dag "stage_data_layout")%list
    = PipelineDAG.order dag
  ∧ PipelineDAG.get_upstream_steps dag "no_such_step" = [].
Proof.
  intros dag. split; [reflexivity|]. split; [reflexivity|]. split.
  - apply (proj1 (upstream_downstream_split dag "stage_data_layout")).
    apply (bool_decide_unpack _). vm_compute. exact I.
  - apply (proj2 (upstream_downstream_split dag "no_such_step")).
    apply (bool_decide_unpack _). vm_compute. exact I.
Defined.

(** X4.  [PipelineDAG(steps).get_step(id)] is the last definition in
    [steps] that carries the id, and [None] when there is none. *)
Theorem get_step_last_definition (steps : list StepDefinition.t)
    (step_id : string) :
  PipelineDAG.get_step (PipelineDAG.init steps) step_id
  = last (filter (λ s, StepDefinition.step_id s = step_id) steps).
Proof.
  unfold PipelineDAG.get_step, PipelineDAG.init; simpl.
  assert (Hgen : ∀ (l : list StepDefinition.t)
                    (m : gmap string StepDefinition.t),
             foldl (λ m step, <[StepDefinition.step_id step := step]> m) m l
             !! step_id
             = match last (filter (λ s, StepDefinition.step_id s = step_id) l)
               with
               | Some s => Some s
               | None => m !! step_id
               end).
  { induction l as [|x l IH]; intros m; simpl; [done|].
    rewrite IH, filter_cons. case_decide as Hx.
    - rewrite last_cons.
      destruct (last (filter _ l)); [done|].
      by rewrite <- Hx, lookup_insert_eq.
    - destruct (last (filter _ l)); [done|].
      by rewrite lookup_insert_ne. }
  rewrite Hgen, lookup_empty.
  by destruct (last _).
Qed.

(** ** Initialising the steps of a context *)

(** X5.  [initialize_steps] sets every listed step to PENDING with attempt
    0, whatever it held before, and leaves every other entry and every
    other field of the context as it was. *)
Theorem initialize_steps_lookup (step_ids : list string) (c : RunContext.t)
    (k : string) :
  let c' := RunContext.initialize_steps step_ids c in
  RunContext.step_states c' !! k
  = (if decide (k ∈ step_ids) then Some StepState.PENDING
     else RunContext.step_states c !! k)
  ∧ RunContext.step_attempts c' !! k
    = (if decide (k ∈ step_ids) then Some 0
       else RunContext.step_attempts c !! k)
  ∧ RunContext.run_id c' = RunContext.run_id c
  ∧ RunContext.run_state c' = RunContext.run_state c
  ∧ RunContext.completed_steps c' = RunContext.completed_steps c
  ∧ RunContext.failed_hard_gates c' = RunContext.failed_hard_gates c
  ∧ RunContext.artifacts c' = RunContext.artifacts c.
Proof.
  unfold RunContext.initialize_steps. cbv zeta.
  revert c. induction step_ids as [|x l IH]; intros c; cbn [foldl].
  - destruct (decide (k ∈ [])) as [Hin|_]; [by apply elem_of_nil in Hin|done].
  - destruct (IH (RunContext.with_step_attempt x 0
                    (RunContext.with_step_state x StepState.PENDING c)))
      as (Hs & Ha & H1 & H2 & H3 & H4 & H5).
    rewrite Hs, Ha, H1, H2, H3, H4, H5. simpl.
    split_and!; try done.
    + destruct (decide (k ∈ l)) as [Hin|Hnot].
      * rewrite decide_True; [done|]. by apply list_elem_of_further.
      * destruct (decide (k = x)) as [->|Hne].
        -- rewrite decide_True by apply list_elem_of_here.
           by rewrite lookup_insert_eq.
        -- rewrite decide_False, lookup_insert_ne; [done..|].
           rewrite not_elem_of_cons. done.
    + destruct (decide (k ∈ l)) as [Hin|Hnot].
      * rewrite decide_True; [done|]. by apply list_elem_of_further.
      * destruct (decide (k = x)) as [->|Hne].
        -- rewrite decide_True by apply list_elem_of_here.
           by rewrite lookup_insert_eq.
        -- rewrite decide_False, lookup_insert_ne; [done..|].
           rewrite not_elem_of_cons. done.
Qed.

(** ** The end of the log *)

(** X6.  [tail(n)] reads the log and leaves it as it is.  For [n ≥ 1] it
    returns the last [n] events, or all of them when there are fewer; for
    [n = 0] it returns the whole log, not an empty list; for [n < 0] it
    drops the first [-n] events. *)
Theorem tail_returns_suffix (n : Z) (w : World) :
  let len := Z.of_nat (length (log w)) in
  ∃ l,
    EventLog.tail n w = (Ok l, w)
    ∧ l `suffix_of` log w
    ∧ Z.of_nat (length l)
      = (if decide (n = 0) then len
         else if decide (0 < n) then Z.min n len
         else Z.max (len + n) 0).
Proof.
  intros len. unfold EventLog.tail, EventLog.read_all.
  unfold mbind, M_bind, gets, mret, M_ret.
  destruct (log w) as [|e l] eqn:Hlog.
  - exists []. subst len. simpl. split; [done|]. split; [done|].
    repeat case_decide; lia.
  - eexists. split; [reflexivity|]. unfold slice_from.
    split; [apply suffix_drop|].
    rewrite length_drop. fold len.
    assert (0 < len) by (subst len; simpl; lia).
    destruct (Z.ltb_spec (- n) 0); repeat case_decide; lia.
Qed.

(** ** The resume point *)

Lemma get_resume_point_cons (ctx : RunContext.t)
    (steps : gmap string StepDefinition.t) (x : string) (l : list string) :
  ResumeGuard.get_resume_point ctx (PipelineDAG.mk steps (x :: l))
  = match RunContext.step_states ctx !! x with
    | None => Raise (KeyError x)
    | Some state =>
      if bool_decide (state = StepState.SUCCEEDED)
      then ResumeGuard.get_resume_point ctx (PipelineDAG.mk steps l)
      else if bool_decide (state = StepState.SKIPPED)
           then ResumeGuard.get_resume_point ctx (PipelineDAG.mk steps l)
           else if bool_decide (state ∈ ResumeGuard.RESUMABLE_STEP_STATES)
                then Ok (Some x)
                else ResumeGuard.get_resume_point ctx (PipelineDAG.mk steps l)
    end.
Proof. reflexivity. Qed.

(** X7.  [get_resume_point] walks the order and returns the first step
    whose state is PENDING or FAILED.  Every step before it has a state that
    is neither (SUCCEEDED and SKIPPED, but also RUNNING and COMPENSATED are
    passed over); [None] means that every step of the order has such a
    state; a step without a state met on the way raises [KeyError]. *)
Theorem get_resume_point_first_resumable (ctx : RunContext.t)
    (dag : PipelineDAG.t) :
  let passed (x : string) :=
    ∃ s, RunContext.step_states ctx !! x = Some s
         ∧ s ∉ ResumeGuard.RESUMABLE_STEP_STATES in
  match ResumeGuard.get_resume_point ctx dag with
  | Ok (Some step_id) =>
    ∃ pre rest s,
      PipelineDAG.order dag = (pre ++ step_id :: rest)%list
      ∧ (∀ x, x ∈ pre → passed x)
      ∧ RunContext.step_states ctx !! step_id = Some s
      ∧ s ∈ ResumeGuard.RESUMABLE_STEP_STATES
  | Ok None => ∀ x, x ∈ PipelineDAG.order dag → passed x
  | Raise e =>
    ∃ pre rest k,
      e = KeyError k
      ∧ PipelineDAG.order dag = (pre ++ k :: rest)%list
      ∧ (∀ x, x ∈ pre → passed x)
      ∧ RunContext.step_states ctx !! k = None
  end.
Proof.
  intros passed. destruct dag as [steps order]. cbn [PipelineDAG.order].
  induction order as [|x l IH].
  { intros y Hy. by apply elem_of_nil in Hy. }
  rewrite get_resume_point_cons.
  destruct (RunContext.step_states ctx !! x) as [s|] eqn:Hs.
  2: { exists [], l, x. split_and!; try done.
       intros y Hy. by apply elem_of_nil in Hy. }
  assert (Hpre : ∀ pre y, (∀ z, z ∈ pre → passed z) →
                          s ∉ ResumeGuard.RESUMABLE_STEP_STATES →
                          y ∈ x :: pre → passed y).
  { intros pre y Hall Hnot Hy. apply elem_of_cons in Hy as [->|Hy];
      [by exists s|by apply Hall]. }
  assert (Hskip : s ∉ ResumeGuard.RESUMABLE_STEP_STATES →
            match ResumeGuard.get_resume_point ctx (PipelineDAG.mk steps l)
            with
            | Ok (Some step_id) =>
              ∃ pre rest s,
                (x :: l = pre ++ step_id :: rest)%list
                ∧ (∀ x, x ∈ pre → passed x)
                ∧ RunContext.step_states ctx !! step_id = Some s
                ∧ s ∈ ResumeGuard.RESUMABLE_STEP_STATES
            | Ok None => ∀ y, y ∈ x :: l → passed y
            | Raise e =>
              ∃ pre rest k,
                e = KeyError k
                ∧ (x :: l = pre ++ k :: rest)%list
                ∧ (∀ x, x ∈ pre → passed x)
                ∧ RunContext.step_states ctx !! k = None
            end).
  { intros Hnot.
    destruct (ResumeGuard.get_resume_point ctx _) as [[id|]|e].
    - destruct IH as (pre & rest & s' & -> & Hall & Hs' & Hin).
      exists (x :: pre), rest, s'. split_and!; try done.
      intros y Hy. by apply (Hpre pre).
    - intros y Hy. by apply (Hpre l).
    - destruct IH as (pre & rest & k & -> & -> & Hall & Hk).
      exists (x :: pre), rest, k. split_and!; try done.
      intros y Hy. by apply (Hpre pre). }
  case_bool_decide as H1.
  { apply Hskip. subst s. unfold ResumeGuard.RESUMABLE_STEP_STATES.
    rewrite !not_elem_of_cons. split_and!; try done. apply not_elem_of_nil. }
  case_bool_decide as H2.
  { apply Hskip. subst s. unfold ResumeGuard.RESUMABLE_STEP_STATES.
    rewrite !not_elem_of_cons. split_and!; try done. apply not_elem_of_nil. }
  case_bool_decide as H3; [|by apply Hskip].
  exists [], l, s. split_and!; try done.
  intros y Hy. by apply elem_of_nil in Hy.
Qed.

(** ** The run state machine, and what the executor makes of it *)

Lemma transition_run_state_invalid `{Environment} (new_state : RunState.t)
    (reason : option string) (w : World) :
  RunStateMachine.can_transition (RunContext.run_state (ctx w)) new_state
  = false →
  PipelineExecutor._transition_run_state new_state reason w
  = (Raise (ValueError ("Invalid run state transition: "
                          ++ RunState.value (RunContext.run_state (ctx w))
                          ++ " -> " ++ RunState.value new_state)), w).
Proof.
  intros Hno. unfold PipelineExecutor._transition_run_state.
  rewrite M_bind_eq. unfold gets at 1. cbv beta iota.
  rewrite M_bind_eq, Hno. reflexivity.
Qed.

(** X8.  The transition table is fail-closed.  No transition leaves
    SUCCEEDED or ROLLED_BACK, none enters CREATED, none stays where it is,
    and FAILED is open from CREATED, PREFLIGHT_VALIDATED, EXECUTING and
    BLOCKED.  A transition the table does not allow makes
    [_transition_run_state] raise [ValueError] before anything is written
    or changed. *)
Theorem run_state_machine_fail_closed `{Environment} :
  (∀ s t, RunStateMachine.can_transition s t = true →
          s ≠ t ∧ t ≠ RunState.CREATED
          ∧ s ≠ RunState.SUCCEEDED ∧ s ≠ RunState.ROLLED_BACK)
  ∧ (∀ s, s ∈ [RunState.CREATED; RunState.PREFLIGHT_VALIDATED;
               RunState.EXECUTING; RunState.BLOCKED] →
          RunStateMachine.can_transition s RunState.FAILED = true)
  ∧ (∀ (new_state : RunState.t) (reason : option string) (w : World),
       RunStateMachine.can_transition (RunContext.run_state (ctx w))
         new_state = false →
       PipelineExecutor._transition_run_state new_state reason w
       = (Raise (ValueError
                   ("Invalid run state transition: "
                      ++ RunState.value (RunContext.run_state (ctx w))
                      ++ " -> " ++ RunState.value new_state)), w)).
Proof.
  split_and!.
  - intros s t Hst. destruct s, t; try discriminate Hst; done.
  - intros s Hs.
    repeat (apply elem_of_cons in Hs as [->|Hs]; [reflexivity|]).
    by apply elem_of_nil in Hs.
  - intros new_state reason w. apply transition_run_state_invalid.
Qed.



(** ** Replaying what the runner writes *)

Ltac decide_event_type :=
  repeat first
    [ rewrite bool_decide_eq_true_2 by reflexivity
    | rewrite bool_decide_eq_false_2 by discriminate ].

(** [_apply_event] on the wire form of an event, by the fields of the
    event. *)
Lemma apply_event_to_dict (c : RunContext.t) (e : Event.t) :
  RunReconstructor._apply_event c (Event.to_dict e)
  = match Event.event_type e with
    | EventType.RUN_STATE_CHANGED | EventType.RUN_COMPLETED =>
      match Event.new_state e with
      | Some v => s ← RunState_call (JStr v);
                  Ok (RunContext.with_run_state s c)
      | None => Raise (KeyError "new_state")
      end
    | EventType.STEP_STARTED =>
      match Event.step_id e with
      | Some id =>
        Ok (RunContext.with_step_attempt id (Event.attempt e)
              (RunContext.with_step_state id StepState.RUNNING c))
      | None => Raise (KeyError "step_id")
      end
    | EventType.STEP_SUCCEEDED =>
      match Event.step_id e with
      | Some id =>
        Ok (RunContext.with_completed id
              (RunContext.with_step_state id StepState.SUCCEEDED c))
      | None => Raise (KeyError "step_id")
      end
    | EventType.STEP_FAILED =>
      match Event.step_id e with
      | Some id => Ok (RunContext.with_step_state id StepState.FAILED c)
      | None => Raise (KeyError "step_id")
      end
    | EventType.GATE_FAILED =>
      match Event.step_id e with
      | Some id => Ok (RunContext.with_failed_hard_gate id c)
      | None => Raise (KeyError "step_id")
      end
    | EventType.STEP_RETRIED =>
      match Event.step_id e with
      | Some id =>
        Ok (RunContext.with_step_state id StepState.PENDING
              (RunContext.with_step_attempt id (Event.attempt e) c))
      | None => Raise (KeyError "step_id")
      end
    | _ => Ok c
    end.
Proof.
  unfold RunReconstructor._apply_event, item.
  rewrite to_dict_event_type, to_dict_attempt, to_dict_new_state,
    to_dict_step_id.
  cbn [mbind Res_bind].
  destruct (Event.event_type e); cbn [EventType.value]; decide_event_type;
    try reflexivity.
  all: try (destruct (Event.new_state e); reflexivity).
  all: destruct (Event.step_id e); reflexivity.
Qed.

Lemma RunState_call_value (s : RunState.t) :
  RunState_call (JStr (RunState.value s)) = Ok s.
Proof. by destruct s. Qed.

(** X11.  [_apply_event] reads back what the builders of [contracts.py]
    write: replaying the wire form of a built event sets the run state for
    [run.state_changed] and [run.completed]; the state RUNNING and the
    attempt for [step.started]; SUCCEEDED and membership in
    [completed_steps] for [step.succeeded]; FAILED for [step.failed];
    membership in [failed_hard_gates] for [gate.failed]; the attempt and
    PENDING for [step.retried]; and nothing for [run.created] and
    [artifact.emitted]. *)
Theorem apply_event_of_builders `{Environment} (c : RunContext.t) (n : nat)
    (run_id step_id : string) :
  (∀ reason,
     RunReconstructor._apply_event c
       (Event.to_dict (run_created n run_id reason)) = Ok c)
  ∧ (∀ previous_state new_state reason,
       RunReconstructor._apply_event c
         (Event.to_dict
            (run_state_changed n run_id previous_state new_state reason))
       = Ok (RunContext.with_run_state new_state c))
  ∧ (∀ final_state reason,
       RunReconstructor._apply_event c
         (Event.to_dict (run_completed n run_id final_state reason))
       = Ok (RunContext.with_run_state final_state c))
  ∧ (∀ attempt,
       RunReconstructor._apply_event c
         (Event.to_dict (step_started n run_id step_id attempt))
       = Ok (RunContext.with_step_attempt step_id attempt
               (RunContext.with_step_state step_id StepState.RUNNING c)))
  ∧ (∀ attempt outputs_hash,
       RunReconstructor._apply_event c
         (Event.to_dict
            (step_succeeded n run_id step_id attempt outputs_hash))
       = Ok (RunContext.with_completed step_id
               (RunContext.with_step_state step_id StepState.SUCCEEDED c)))
  ∧ (∀ error_class reason attempt,
       RunReconstructor._apply_event c
         (Event.to_dict
            (step_failed n run_id step_id error_class reason attempt))
       = Ok (RunContext.with_step_state step_id StepState.FAILED c))
  ∧ (∀ error_class reason,
       RunReconstructor._apply_event c
         (Event.to_dict (gate_failed n run_id step_id error_class reason))
       = Ok (RunContext.with_failed_hard_gate step_id c))
  ∧ (∀ attempt reason,
       RunReconstructor._apply_event c
         (Event.to_dict (step_retried n run_id step_id attempt reason))
       = Ok (RunContext.with_step_state step_id StepState.PENDING
               (RunContext.with_step_attempt step_id attempt c)))
  ∧ (∀ artifact_path outputs_hash,
       RunReconstructor._apply_event c
         (Event.to_dict
            (artifact_emitted n run_id step_id artifact_path outputs_hash))
       = Ok c).
Proof.
  split_and!; intros; rewrite apply_event_to_dict; try reflexivity.
  - cbn [Event.event_type Event.new_state run_state_changed].
    by rewrite RunState_call_value.
  - cbn [Event.event_type Event.new_state run_completed].
    by rewrite RunState_call_value.
Qed.
